(** * ERABU agent, chat client: a shallow embedding of [frontend/src/App.jsx]

    The component [App] keeps the whole client-side session: the message
    list, the values pushed by the server (phase, field status, quick
    options, UI component, completion), the item lists, the address-card
    bookkeeping, the typing queue and the references to the socket.  Every
    handler of the component is transcribed below as a function on one
    record [State]; what the component hands to the outside world (frames
    given to [ws.send], HTTP uploads, toast notices, callbacks armed with
    [setTimeout]/[setInterval]) is logged in the same record.

    Conventions of the embedding:
    - one event is handled at a time, and the state a handler reads is the
      one left by the previous event; the only cell read through a stale
      closure, [isVerifyingAddress] in [handleServerMessage], is passed
      as an explicit argument;
    - time is not measured: an armed callback may fire at any later
      moment, in any order with the other events;
    - JavaScript strings are sequences of code points; the string literals
      of the source are written [js "..."] and decoded from UTF-8;
    - line numbers refer to [frontend/src/App.jsx]; the second source
      file is an earlier revision of the same component, in which
      [sendMessage], [confirmItems] and [deleteItem] read the same. *)

From Stdlib Require Import ZArith NArith QArith Qround List String Ascii Lia.
From stdpp Require Import base option list gmap.
Import ListNotations.

#[local] Set Warnings "-register-all".
#[local] Open Scope Z_scope.

(* ================================================================== *)
(** ** JavaScript strings *)
(* ================================================================== *)

Module Js.

(** A string is the list of its Unicode code points: this is what
    [for (const char of s)] enumerates. *)
Abbreviation jsstring := (list N).

(** Decoder for the literals of this file, which are stored as UTF-8. *)
Fixpoint utf8_decode (l : list N) : jsstring :=
  match l with
  | [] => []
  | b0 :: t =>
    if (b0 <? 128)%N then b0 :: utf8_decode t
    else if (b0 <? 224)%N then
      match t with
      | b1 :: t' => ((b0 mod 32) * 64 + b1 mod 64)%N :: utf8_decode t'
      | _ => []
      end
    else if (b0 <? 240)%N then
      match t with
      | b1 :: b2 :: t' =>
        ((b0 mod 16) * 4096 + (b1 mod 64) * 64 + b2 mod 64)%N
          :: utf8_decode t'
      | _ => []
      end
    else
      match t with
      | b1 :: b2 :: b3 :: t' =>
        ((b0 mod 8) * 262144 + (b1 mod 64) * 4096
         + (b2 mod 64) * 64 + b3 mod 64)%N :: utf8_decode t'
      | _ => []
      end
  end.

Definition js (s : string) : jsstring :=
  utf8_decode (List.map N_of_ascii (list_ascii_of_string s)).

(** ECMAScript [WhiteSpace] and [LineTerminator] code points, the
    characters removed by [String.prototype.trim]. *)
Definition isWhiteSpace (c : N) : bool :=
  ((9 <=? c) && (c <=? 13) || (c =? 32) || (c =? 160) || (c =? 5760)
   || (8192 <=? c) && (c <=? 8202) || (c =? 8232) || (c =? 8233)
   || (c =? 8239) || (c =? 8287) || (c =? 12288) || (c =? 65279))%N.

Fixpoint trimStart (s : jsstring) : jsstring :=
  match s with
  | c :: t => if isWhiteSpace c then trimStart t else s
  | [] => []
  end.

Definition trimEnd (s : jsstring) : jsstring := rev (trimStart (rev s)).

(** [s.trim()] *)
Definition trim (s : jsstring) : jsstring := trimEnd (trimStart s).

Fixpoint startsWith (s kw : jsstring) : bool :=
  match kw, s with
  | [], _ => true
  | k :: kw', c :: s' => (c =? k)%N && startsWith s' kw'
  | _ :: _, [] => false
  end.

(** [s.includes(kw)] *)
Fixpoint includes (s kw : jsstring) : bool :=
  startsWith s kw ||
  match s with
  | [] => false
  | _ :: s' => includes s' kw
  end.

(** [l.join(sep)] *)
Fixpoint join (sep : jsstring) (l : list jsstring) : jsstring :=
  match l with
  | [] => []
  | [x] => x
  | x :: t => x ++ sep ++ join sep t
  end.

(** [l.includes(x)] on an array of strings. *)
Definition arrayIncludes (l : list jsstring) (x : jsstring) : bool :=
  bool_decide (x ∈ l).

(** Truthiness of a string: non-empty. *)
Definition nonEmpty (s : jsstring) : bool :=
  match s with [] => false | _ => true end.

(** *** [JSON.stringify] on an array of strings

    [QuoteJSONString]: the two-character escapes, [\u00xx] for the other
    control characters, every other code point as it is. *)
Definition hexDigit (n : N) : N :=
  (if n <? 10 then 48 + n else 87 + n)%N.

Definition quoteChar (c : N) : jsstring :=
  if (c =? 34)%N then [92; 34]%N
  else if (c =? 92)%N then js "\\"
  else if (c =? 8)%N then js "\b"
  else if (c =? 12)%N then js "\f"
  else if (c =? 10)%N then js "\n"
  else if (c =? 13)%N then js "\r"
  else if (c =? 9)%N then js "\t"
  else if (c <? 32)%N then
    js "\u00" ++ [hexDigit (c / 16); hexDigit (c mod 16)]
  else [c].

Definition quoteJSONString (s : jsstring) : jsstring :=
  [34%N] ++ concat (List.map quoteChar s) ++ [34%N].

Definition JSON_stringify (l : list jsstring) : jsstring :=
  js "[" ++ join (js ",") (List.map quoteJSONString l) ++ js "]".

End Js.
Export Js.

(* ================================================================== *)
(** ** Values decoded from JSON *)
(* ================================================================== *)

(** A decoded JSON value ([JUndef] is what reading an absent property
    gives).  Used for the payloads the component stores or forwards
    without a fixed shape: the entries of [fields_status], an address
    candidate, an image id. *)
Inductive JsVal : Type :=
| JUndef
| JNull
| JBool (b : bool)
| JNum (q : Q)
| JStr (s : jsstring)
| JArr (l : list JsVal)
| JObj (o : list (jsstring * JsVal)).

(** [ToBoolean]. *)
Definition truthy (v : JsVal) : bool :=
  match v with
  | JUndef | JNull => false
  | JBool b => b
  | JNum q => negb (Qeq_bool q 0)
  | JStr s => nonEmpty s
  | JArr _ | JObj _ => true
  end.

Fixpoint assocGet (k : jsstring) (o : list (jsstring * JsVal)) : JsVal :=
  match o with
  | [] => JUndef
  | (k', v) :: o' => if bool_decide (k' = k) then v else assocGet k o'
  end.

(** [v?.k], and [v.k] where [v] is known to be an object. *)
Definition prop (k : jsstring) (v : JsVal) : JsVal :=
  match v with
  | JObj o => assocGet k o
  | _ => JUndef
  end.

(** [v === 'lit'] *)
Definition isStr (lit : jsstring) (v : JsVal) : bool :=
  match v with
  | JStr s => bool_decide (s = lit)
  | _ => false
  end.

(** [a || b] on values. *)
Definition jsOr (a b : JsVal) : JsVal := if truthy a then a else b.

(** [v?.length > 0] *)
Definition lengthPositive (v : JsVal) : bool :=
  match v with
  | JArr l => bool_decide (l ≠ [])
  | JStr s => nonEmpty s
  | JObj o => match prop (js "length") v with
              | JNum q => negb (Qle_bool q 0)
              | _ => false
              end
  | _ => false
  end.

(** The object [fields_status] of a [metadata] event. *)
Abbreviation FieldsStatus := (gmap jsstring JsVal).

(** [fieldsStatus[k]] (and [fieldsStatus.k]). *)
Definition field (fs : FieldsStatus) (k : jsstring) : JsVal :=
  default JUndef (fs !! k).

(* ================================================================== *)
(** ** Data of the component *)
(* ================================================================== *)

(** An item of a recognition result.  [item_id] is the client-side key
    ([index + 1] after an upload); every other property is copied from
    the payload and may be absent. *)
Record Item : Type := mkItem {
  item_id : option Z;
  item_name : jsstring;
  item_name_ja : option jsstring;
  item_category : jsstring;
  item_count : option Z;
  item_confidence : option Q;
  item_note : option jsstring
}.

(** An element of [result.items] in the answer of [/api/items/upload]. *)
Record RawItem : Type := mkRawItem {
  raw_name : jsstring;
  raw_name_ja : option jsstring;
  raw_category : jsstring;
  raw_count : option Z;
  raw_confidence : option Q;
  raw_note : option jsstring
}.

(** [i.count || 1] *)
Definition countOr1 (c : option Z) : Z :=
  match c with
  | Some z => if z =? 0 then 1 else z
  | None => 1
  end.

(** [item.note || ''] *)
Definition noteOrEmpty (n : option jsstring) : jsstring := default [] n.

(** [data.ui_component.data] of an address card: the role, the candidate
    list of a selection card, and the rest of the payload as sent. *)
Record UiData : Type := mkUiData {
  address_type : option jsstring;
  candidates : option (list JsVal);
  original_input : option jsstring;
  payload : JsVal
}.

Record UiComponent : Type := mkUi {
  ui_type : jsstring;
  ui_data : option UiData
}.

Record Completion : Type := mkCompletion {
  completion_rate : option Q;
  can_submit : bool
}.

(** The [type] property of an entry of [messages]; only the component
    itself ever sets it. *)
Inductive MsgType : Type :=
| plain
| items_card
| address_confirm_card
| address_selection_card.

#[global] Instance MsgType_eq_dec : EqDecision MsgType.
Proof. solve_decision. Defined.

(** An entry of [messages]. *)
Record Msg : Type := mkMsg {
  role : jsstring;
  type : MsgType;
  content : option jsstring;
  streaming : bool;
  addressType : option jsstring;
  data : option UiData;
  items : list Item;
  confirmed : bool
}.

(** [{ role, content, streaming }] *)
Definition textMsg (r : jsstring) (c : option jsstring) (st : bool) : Msg :=
  mkMsg r plain c st None None [] false.

(** [{ ...m, confirmed: true }] *)
Definition markConfirmed (m : Msg) : Msg :=
  mkMsg (role m) (type m) (content m) (streaming m) (addressType m)
        (data m) (items m) true.

(** [{ ...m, streaming: false }] *)
Definition stopStreaming (m : Msg) : Msg :=
  mkMsg (role m) (type m) (content m) false (addressType m)
        (data m) (items m) (confirmed m).

(** [{ ...m, content: m.content + char }]; an absent content prints as
    [undefined] under [+]. *)
Definition appendChar (m : Msg) (char : N) : Msg :=
  mkMsg (role m) (type m)
        (Some (default (js "undefined") (content m) ++ [char]))
        (streaming m) (addressType m) (data m) (items m) (confirmed m).

(** The card pushed once the verification animation is over
    (lines 265-272). *)
Definition addressCard (uiType : jsstring) (ty : option jsstring)
    (d : option UiData) : Msg :=
  mkMsg (js "assistant")
        (if bool_decide (uiType = js "address_confirm")
         then address_confirm_card else address_selection_card)
        None false ty d [] false.

(** [pendingAddressData] (lines 250-254). *)
Record PendingAddress : Type := mkPendingAddress {
  pa_type : MsgType;
  pa_addressType : option jsstring;
  pa_data : option UiData
}.

(** A file picked in the hidden [<input type="file">]. *)
Record File : Type := mkFile {
  file_type : jsstring;
  file_size : Z
}.

(** *** Frames handed to [ws.send] *)
Inductive WsOut : Type :=
| out_message (content : jsstring)
| out_image_uploaded (image_id : JsVal) (its : list Item)
| out_items_confirmed (its : list Item)
| out_address_selected (address_type : jsstring) (address : JsVal)
| out_address_confirmed (address_type : jsstring) (confirmed : bool)
| out_submit_quote (phone email : jsstring)
| out_reset_session.

(** *** Events decoded by [ws.onmessage] *)
Record MetadataMsg : Type := mkMetadata {
  md_current_phase : option Z;
  md_fields_status : option FieldsStatus;
  md_quick_options : option (list jsstring);
  md_ui_component : option UiComponent;
  md_completion : option Completion
}.

Record HistoryEntry : Type := mkHistory {
  h_role : jsstring;
  h_content : option jsstring
}.

Inductive ServerMsg : Type :=
| SESSION (session_token : jsstring) (current_phase : option Z)
| TYPING_START
| TEXT_DELTA (content : jsstring)
| TEXT_DONE
| METADATA (md : MetadataMsg)
| MESSAGE_HISTORY (messages : option (list HistoryEntry))
| SESSION_RESET (session_token : jsstring) (fields_status : option FieldsStatus)
| ITEMS_RECOGNIZED (its : option (list Item))
| ITEMS_CONFIRMED (its : option (list Item))
| ADDRESS_SELECTED
| ADDRESS_CONFIRMED (address_type : option jsstring)
| ERROR (message : option jsstring)
| UNKNOWN.

(** *** Toasts of [antd]'s [message] *)
Inductive Notice : Type :=
| notice_error (text : jsstring)
| notice_warning (text : jsstring)
| notice_recognized (n : nat).   (* message.success(`识别到 ${n} 件物品`) *)

(** *** Callbacks armed with [setTimeout] / [setInterval] and not yet run *)
Inductive Task : Type :=
| typeNextChar                         (* line 126 *)
| waitForTyping                        (* line 203 *)
| stepInterval (step : Z) (card : Msg) (* lines 257-277, with its closure *)
| addCardTimeout (card : Msg)          (* lines 264-275 *)
| reconnect.                           (* line 151 *)

(** *** [fetch('/api/items/upload')] *)
(** The form posted: the file, and the session token when the reference
    holds one (lines 483-487). *)
Record UploadRequest : Type := mkUpload {
  up_file : File;
  up_session_token : option jsstring
}.

(** How the two awaits of [handleFileSelected] settle. *)
Inductive UploadOutcome : Type :=
| fetch_rejected (message : jsstring)
    (* fetch(..) rejected *)
| json_rejected (message : jsstring)
    (* fetch(..) resolved and response.json() rejected *)
| upload_not_ok (detail : option jsstring)
    (* !response.ok, with errorData.detail *)
| upload_ok (success : bool) (error : option jsstring)
            (image_id : JsVal) (its : list RawItem).

(* ================================================================== *)
(** ** The state of [App] *)
(* ================================================================== *)

(** One field per [useState] cell and per [useRef] cell of the component
    (lines 48-96), followed by what the component has handed to its
    environment:
    - [wsRef]: whether [wsRef.current] holds a socket ([sent] lists the
      frames given to its [send], oldest first; delivery is the
      transport's business);
    - [localStorageToken]: the entry [erabu_session_token];
    - [fileInputValue]: the value of the hidden file input;
    - [fetched]: the uploads issued with [fetch], [awaited] how many of
      them have not settled yet;
    - [notices]: the toasts shown;
    - [timers]: the callbacks armed and not yet run, oldest first. *)
Record State : Type := mkState {
  messages : list Msg;
  inputValue : jsstring;
  isConnected : bool;
  isLoading : bool;
  currentPhase : Z;
  fieldsStatus : FieldsStatus;
  quickOptions : list jsstring;
  uiComponent : UiComponent;
  completion : Completion;
  pendingItems : list Item;
  confirmedItems : list Item;
  isRecognizing : bool;
  recognitionStep : Z;
  itemsJustConfirmed : bool;
  isVerifyingAddress : bool;
  addressVerifyStep : Z;
  pendingAddressData : option PendingAddress;
  selectedOptions : list jsstring;
  showPrivacyModal : bool;
  showItemListModal : bool;
  contactPhone : jsstring;
  contactEmail : jsstring;
  textQueueRef : list N;
  isTypingRef : bool;
  lastOptionsRef : list jsstring;
  addedAddressCardsRef : gmap jsstring bool;
  wsRef : bool;
  sessionTokenRef : option jsstring;
  localStorageToken : option jsstring;
  fileInputValue : jsstring;
  sent : list WsOut;
  fetched : list UploadRequest;
  awaited : nat;
  notices : list Notice;
  timers : list Task
}.

(** *** Setters: [setX v] for a state cell, [set_r v] for [r.current = v]
    and for the environment. *)
Definition setMessages (v : list Msg) (s : State) : State :=
  mkState v (inputValue s) (isConnected s) (isLoading s) (currentPhase s)
    (fieldsStatus s) (quickOptions s) (uiComponent s) (completion s)
    (pendingItems s) (confirmedItems s) (isRecognizing s) (recognitionStep
    s) (itemsJustConfirmed s) (isVerifyingAddress s) (addressVerifyStep s)
    (pendingAddressData s) (selectedOptions s) (showPrivacyModal s)
    (showItemListModal s) (contactPhone s) (contactEmail s) (textQueueRef s)
    (isTypingRef s) (lastOptionsRef s) (addedAddressCardsRef s) (wsRef s)
    (sessionTokenRef s) (localStorageToken s) (fileInputValue s) (sent s)
    (fetched s) (awaited s) (notices s) (timers s).

Definition setInputValue (v : jsstring) (s : State) : State :=
  mkState (messages s) v (isConnected s) (isLoading s) (currentPhase s)
    (fieldsStatus s) (quickOptions s) (uiComponent s) (completion s)
    (pendingItems s) (confirmedItems s) (isRecognizing s) (recognitionStep
    s) (itemsJustConfirmed s) (isVerifyingAddress s) (addressVerifyStep s)
    (pendingAddressData s) (selectedOptions s) (showPrivacyModal s)
    (showItemListModal s) (contactPhone s) (contactEmail s) (textQueueRef s)
    (isTypingRef s) (lastOptionsRef s) (addedAddressCardsRef s) (wsRef s)
    (sessionTokenRef s) (localStorageToken s) (fileInputValue s) (sent s)
    (fetched s) (awaited s) (notices s) (timers s).

Definition setIsConnected (v : bool) (s : State) : State :=
  mkState (messages s) (inputValue s) v (isLoading s) (currentPhase s)
    (fieldsStatus s) (quickOptions s) (uiComponent s) (completion s)
    (pendingItems s) (confirmedItems s) (isRecognizing s) (recognitionStep
    s) (itemsJustConfirmed s) (isVerifyingAddress s) (addressVerifyStep s)
    (pendingAddressData s) (selectedOptions s) (showPrivacyModal s)
    (showItemListModal s) (contactPhone s) (contactEmail s) (textQueueRef s)
    (isTypingRef s) (lastOptionsRef s) (addedAddressCardsRef s) (wsRef s)
    (sessionTokenRef s) (localStorageToken s) (fileInputValue s) (sent s)
    (fetched s) (awaited s) (notices s) (timers s).

Definition setIsLoading (v : bool) (s : State) : State :=
  mkState (messages s) (inputValue s) (isConnected s) v (currentPhase s)
    (fieldsStatus s) (quickOptions s) (uiComponent s) (completion s)
    (pendingItems s) (confirmedItems s) (isRecognizing s) (recognitionStep
    s) (itemsJustConfirmed s) (isVerifyingAddress s) (addressVerifyStep s)
    (pendingAddressData s) (selectedOptions s) (showPrivacyModal s)
    (showItemListModal s) (contactPhone s) (contactEmail s) (textQueueRef s)
    (isTypingRef s) (lastOptionsRef s) (addedAddressCardsRef s) (wsRef s)
    (sessionTokenRef s) (localStorageToken s) (fileInputValue s) (sent s)
    (fetched s) (awaited s) (notices s) (timers s).

Definition setCurrentPhase (v : Z) (s : State) : State :=
  mkState (messages s) (inputValue s) (isConnected s) (isLoading s) v
    (fieldsStatus s) (quickOptions s) (uiComponent s) (completion s)
    (pendingItems s) (confirmedItems s) (isRecognizing s) (recognitionStep
    s) (itemsJustConfirmed s) (isVerifyingAddress s) (addressVerifyStep s)
    (pendingAddressData s) (selectedOptions s) (showPrivacyModal s)
    (showItemListModal s) (contactPhone s) (contactEmail s) (textQueueRef s)
    (isTypingRef s) (lastOptionsRef s) (addedAddressCardsRef s) (wsRef s)
    (sessionTokenRef s) (localStorageToken s) (fileInputValue s) (sent s)
    (fetched s) (awaited s) (notices s) (timers s).

Definition setFieldsStatus (v : FieldsStatus) (s : State) : State :=
  mkState (messages s) (inputValue s) (isConnected s) (isLoading s)
    (currentPhase s) v (quickOptions s) (uiComponent s) (completion s)
    (pendingItems s) (confirmedItems s) (isRecognizing s) (recognitionStep
    s) (itemsJustConfirmed s) (isVerifyingAddress s) (addressVerifyStep s)
    (pendingAddressData s) (selectedOptions s) (showPrivacyModal s)
    (showItemListModal s) (contactPhone s) (contactEmail s) (textQueueRef s)
    (isTypingRef s) (lastOptionsRef s) (addedAddressCardsRef s) (wsRef s)
    (sessionTokenRef s) (localStorageToken s) (fileInputValue s) (sent s)
    (fetched s) (awaited s) (notices s) (timers s).

Definition setQuickOptions (v : list jsstring) (s : State) : State :=
  mkState (messages s) (inputValue s) (isConnected s) (isLoading s)
    (currentPhase s) (fieldsStatus s) v (uiComponent s) (completion s)
    (pendingItems s) (confirmedItems s) (isRecognizing s) (recognitionStep
    s) (itemsJustConfirmed s) (isVerifyingAddress s) (addressVerifyStep s)
    (pendingAddressData s) (selectedOptions s) (showPrivacyModal s)
    (showItemListModal s) (contactPhone s) (contactEmail s) (textQueueRef s)
    (isTypingRef s) (lastOptionsRef s) (addedAddressCardsRef s) (wsRef s)
    (sessionTokenRef s) (localStorageToken s) (fileInputValue s) (sent s)
    (fetched s) (awaited s) (notices s) (timers s).

Definition setUiComponent (v : UiComponent) (s : State) : State :=
  mkState (messages s) (inputValue s) (isConnected s) (isLoading s)
    (currentPhase s) (fieldsStatus s) (quickOptions s) v (completion s)
    (pendingItems s) (confirmedItems s) (isRecognizing s) (recognitionStep
    s) (itemsJustConfirmed s) (isVerifyingAddress s) (addressVerifyStep s)
    (pendingAddressData s) (selectedOptions s) (showPrivacyModal s)
    (showItemListModal s) (contactPhone s) (contactEmail s) (textQueueRef s)
    (isTypingRef s) (lastOptionsRef s) (addedAddressCardsRef s) (wsRef s)
    (sessionTokenRef s) (localStorageToken s) (fileInputValue s) (sent s)
    (fetched s) (awaited s) (notices s) (timers s).

Definition setCompletion (v : Completion) (s : State) : State :=
  mkState (messages s) (inputValue s) (isConnected s) (isLoading s)
    (currentPhase s) (fieldsStatus s) (quickOptions s) (uiComponent s) v
    (pendingItems s) (confirmedItems s) (isRecognizing s) (recognitionStep
    s) (itemsJustConfirmed s) (isVerifyingAddress s) (addressVerifyStep s)
    (pendingAddressData s) (selectedOptions s) (showPrivacyModal s)
    (showItemListModal s) (contactPhone s) (contactEmail s) (textQueueRef s)
    (isTypingRef s) (lastOptionsRef s) (addedAddressCardsRef s) (wsRef s)
    (sessionTokenRef s) (localStorageToken s) (fileInputValue s) (sent s)
    (fetched s) (awaited s) (notices s) (timers s).

Definition setPendingItems (v : list Item) (s : State) : State :=
  mkState (messages s) (inputValue s) (isConnected s) (isLoading s)
    (currentPhase s) (fieldsStatus s) (quickOptions s) (uiComponent s)
    (completion s) v (confirmedItems s) (isRecognizing s) (recognitionStep
    s) (itemsJustConfirmed s) (isVerifyingAddress s) (addressVerifyStep s)
    (pendingAddressData s) (selectedOptions s) (showPrivacyModal s)
    (showItemListModal s) (contactPhone s) (contactEmail s) (textQueueRef s)
    (isTypingRef s) (lastOptionsRef s) (addedAddressCardsRef s) (wsRef s)
    (sessionTokenRef s) (localStorageToken s) (fileInputValue s) (sent s)
    (fetched s) (awaited s) (notices s) (timers s).

Definition setConfirmedItems (v : list Item) (s : State) : State :=
  mkState (messages s) (inputValue s) (isConnected s) (isLoading s)
    (currentPhase s) (fieldsStatus s) (quickOptions s) (uiComponent s)
    (completion s) (pendingItems s) v (isRecognizing s) (recognitionStep s)
    (itemsJustConfirmed s) (isVerifyingAddress s) (addressVerifyStep s)
    (pendingAddressData s) (selectedOptions s) (showPrivacyModal s)
    (showItemListModal s) (contactPhone s) (contactEmail s) (textQueueRef s)
    (isTypingRef s) (lastOptionsRef s) (addedAddressCardsRef s) (wsRef s)
    (sessionTokenRef s) (localStorageToken s) (fileInputValue s) (sent s)
    (fetched s) (awaited s) (notices s) (timers s).

Definition setIsRecognizing (v : bool) (s : State) : State :=
  mkState (messages s) (inputValue s) (isConnected s) (isLoading s)
    (currentPhase s) (fieldsStatus s) (quickOptions s) (uiComponent s)
    (completion s) (pendingItems s) (confirmedItems s) v (recognitionStep s)
    (itemsJustConfirmed s) (isVerifyingAddress s) (addressVerifyStep s)
    (pendingAddressData s) (selectedOptions s) (showPrivacyModal s)
    (showItemListModal s) (contactPhone s) (contactEmail s) (textQueueRef s)
    (isTypingRef s) (lastOptionsRef s) (addedAddressCardsRef s) (wsRef s)
    (sessionTokenRef s) (localStorageToken s) (fileInputValue s) (sent s)
    (fetched s) (awaited s) (notices s) (timers s).

Definition setRecognitionStep (v : Z) (s : State) : State :=
  mkState (messages s) (inputValue s) (isConnected s) (isLoading s)
    (currentPhase s) (fieldsStatus s) (quickOptions s) (uiComponent s)
    (completion s) (pendingItems s) (confirmedItems s) (isRecognizing s) v
    (itemsJustConfirmed s) (isVerifyingAddress s) (addressVerifyStep s)
    (pendingAddressData s) (selectedOptions s) (showPrivacyModal s)
    (showItemListModal s) (contactPhone s) (contactEmail s) (textQueueRef s)
    (isTypingRef s) (lastOptionsRef s) (addedAddressCardsRef s) (wsRef s)
    (sessionTokenRef s) (localStorageToken s) (fileInputValue s) (sent s)
    (fetched s) (awaited s) (notices s) (timers s).

Definition setItemsJustConfirmed (v : bool) (s : State) : State :=
  mkState (messages s) (inputValue s) (isConnected s) (isLoading s)
    (currentPhase s) (fieldsStatus s) (quickOptions s) (uiComponent s)
    (completion s) (pendingItems s) (confirmedItems s) (isRecognizing s)
    (recognitionStep s) v (isVerifyingAddress s) (addressVerifyStep s)
    (pendingAddressData s) (selectedOptions s) (showPrivacyModal s)
    (showItemListModal s) (contactPhone s) (contactEmail s) (textQueueRef s)
    (isTypingRef s) (lastOptionsRef s) (addedAddressCardsRef s) (wsRef s)
    (sessionTokenRef s) (localStorageToken s) (fileInputValue s) (sent s)
    (fetched s) (awaited s) (notices s) (timers s).

Definition setIsVerifyingAddress (v : bool) (s : State) : State :=
  mkState (messages s) (inputValue s) (isConnected s) (isLoading s)
    (currentPhase s) (fieldsStatus s) (quickOptions s) (uiComponent s)
    (completion s) (pendingItems s) (confirmedItems s) (isRecognizing s)
    (recognitionStep s) (itemsJustConfirmed s) v (addressVerifyStep s)
    (pendingAddressData s) (selectedOptions s) (showPrivacyModal s)
    (showItemListModal s) (contactPhone s) (contactEmail s) (textQueueRef s)
    (isTypingRef s) (lastOptionsRef s) (addedAddressCardsRef s) (wsRef s)
    (sessionTokenRef s) (localStorageToken s) (fileInputValue s) (sent s)
    (fetched s) (awaited s) (notices s) (timers s).

Definition setAddressVerifyStep (v : Z) (s : State) : State :=
  mkState (messages s) (inputValue s) (isConnected s) (isLoading s)
    (currentPhase s) (fieldsStatus s) (quickOptions s) (uiComponent s)
    (completion s) (pendingItems s) (confirmedItems s) (isRecognizing s)
    (recognitionStep s) (itemsJustConfirmed s) (isVerifyingAddress s) v
    (pendingAddressData s) (selectedOptions s) (showPrivacyModal s)
    (showItemListModal s) (contactPhone s) (contactEmail s) (textQueueRef s)
    (isTypingRef s) (lastOptionsRef s) (addedAddressCardsRef s) (wsRef s)
    (sessionTokenRef s) (localStorageToken s) (fileInputValue s) (sent s)
    (fetched s) (awaited s) (notices s) (timers s).

Definition setPendingAddressData (v : option PendingAddress) (s : State) : State :=
  mkState (messages s) (inputValue s) (isConnected s) (isLoading s)
    (currentPhase s) (fieldsStatus s) (quickOptions s) (uiComponent s)
    (completion s) (pendingItems s) (confirmedItems s) (isRecognizing s)
    (recognitionStep s) (itemsJustConfirmed s) (isVerifyingAddress s)
    (addressVerifyStep s) v (selectedOptions s) (showPrivacyModal s)
    (showItemListModal s) (contactPhone s) (contactEmail s) (textQueueRef s)
    (isTypingRef s) (lastOptionsRef s) (addedAddressCardsRef s) (wsRef s)
    (sessionTokenRef s) (localStorageToken s) (fileInputValue s) (sent s)
    (fetched s) (awaited s) (notices s) (timers s).

Definition setSelectedOptions (v : list jsstring) (s : State) : State :=
  mkState (messages s) (inputValue s) (isConnected s) (isLoading s)
    (currentPhase s) (fieldsStatus s) (quickOptions s) (uiComponent s)
    (completion s) (pendingItems s) (confirmedItems s) (isRecognizing s)
    (recognitionStep s) (itemsJustConfirmed s) (isVerifyingAddress s)
    (addressVerifyStep s) (pendingAddressData s) v (showPrivacyModal s)
    (showItemListModal s) (contactPhone s) (contactEmail s) (textQueueRef s)
    (isTypingRef s) (lastOptionsRef s) (addedAddressCardsRef s) (wsRef s)
    (sessionTokenRef s) (localStorageToken s) (fileInputValue s) (sent s)
    (fetched s) (awaited s) (notices s) (timers s).

Definition setShowPrivacyModal (v : bool) (s : State) : State :=
  mkState (messages s) (inputValue s) (isConnected s) (isLoading s)
    (currentPhase s) (fieldsStatus s) (quickOptions s) (uiComponent s)
    (completion s) (pendingItems s) (confirmedItems s) (isRecognizing s)
    (recognitionStep s) (itemsJustConfirmed s) (isVerifyingAddress s)
    (addressVerifyStep s) (pendingAddressData s) (selectedOptions s) v
    (showItemListModal s) (contactPhone s) (contactEmail s) (textQueueRef s)
    (isTypingRef s) (lastOptionsRef s) (addedAddressCardsRef s) (wsRef s)
    (sessionTokenRef s) (localStorageToken s) (fileInputValue s) (sent s)
    (fetched s) (awaited s) (notices s) (timers s).

Definition setShowItemListModal (v : bool) (s : State) : State :=
  mkState (messages s) (inputValue s) (isConnected s) (isLoading s)
    (currentPhase s) (fieldsStatus s) (quickOptions s) (uiComponent s)
    (completion s) (pendingItems s) (confirmedItems s) (isRecognizing s)
    (recognitionStep s) (itemsJustConfirmed s) (isVerifyingAddress s)
    (addressVerifyStep s) (pendingAddressData s) (selectedOptions s)
    (showPrivacyModal s) v (contactPhone s) (contactEmail s) (textQueueRef
    s) (isTypingRef s) (lastOptionsRef s) (addedAddressCardsRef s) (wsRef s)
    (sessionTokenRef s) (localStorageToken s) (fileInputValue s) (sent s)
    (fetched s) (awaited s) (notices s) (timers s).

Definition setContactPhone (v : jsstring) (s : State) : State :=
  mkState (messages s) (inputValue s) (isConnected s) (isLoading s)
    (currentPhase s) (fieldsStatus s) (quickOptions s) (uiComponent s)
    (completion s) (pendingItems s) (confirmedItems s) (isRecognizing s)
    (recognitionStep s) (itemsJustConfirmed s) (isVerifyingAddress s)
    (addressVerifyStep s) (pendingAddressData s) (selectedOptions s)
    (showPrivacyModal s) (showItemListModal s) v (contactEmail s)
    (textQueueRef s) (isTypingRef s) (lastOptionsRef s)
    (addedAddressCardsRef s) (wsRef s) (sessionTokenRef s)
    (localStorageToken s) (fileInputValue s) (sent s) (fetched s) (awaited
    s) (notices s) (timers s).

Definition setContactEmail (v : jsstring) (s : State) : State :=
  mkState (messages s) (inputValue s) (isConnected s) (isLoading s)
    (currentPhase s) (fieldsStatus s) (quickOptions s) (uiComponent s)
    (completion s) (pendingItems s) (confirmedItems s) (isRecognizing s)
    (recognitionStep s) (itemsJustConfirmed s) (isVerifyingAddress s)
    (addressVerifyStep s) (pendingAddressData s) (selectedOptions s)
    (showPrivacyModal s) (showItemListModal s) (contactPhone s) v
    (textQueueRef s) (isTypingRef s) (lastOptionsRef s)
    (addedAddressCardsRef s) (wsRef s) (sessionTokenRef s)
    (localStorageToken s) (fileInputValue s) (sent s) (fetched s) (awaited
    s) (notices s) (timers s).

Definition set_textQueueRef (v : list N) (s : State) : State :=
  mkState (messages s) (inputValue s) (isConnected s) (isLoading s)
    (currentPhase s) (fieldsStatus s) (quickOptions s) (uiComponent s)
    (completion s) (pendingItems s) (confirmedItems s) (isRecognizing s)
    (recognitionStep s) (itemsJustConfirmed s) (isVerifyingAddress s)
    (addressVerifyStep s) (pendingAddressData s) (selectedOptions s)
    (showPrivacyModal s) (showItemListModal s) (contactPhone s)
    (contactEmail s) v (isTypingRef s) (lastOptionsRef s)
    (addedAddressCardsRef s) (wsRef s) (sessionTokenRef s)
    (localStorageToken s) (fileInputValue s) (sent s) (fetched s) (awaited
    s) (notices s) (timers s).

Definition set_isTypingRef (v : bool) (s : State) : State :=
  mkState (messages s) (inputValue s) (isConnected s) (isLoading s)
    (currentPhase s) (fieldsStatus s) (quickOptions s) (uiComponent s)
    (completion s) (pendingItems s) (confirmedItems s) (isRecognizing s)
    (recognitionStep s) (itemsJustConfirmed s) (isVerifyingAddress s)
    (addressVerifyStep s) (pendingAddressData s) (selectedOptions s)
    (showPrivacyModal s) (showItemListModal s) (contactPhone s)
    (contactEmail s) (textQueueRef s) v (lastOptionsRef s)
    (addedAddressCardsRef s) (wsRef s) (sessionTokenRef s)
    (localStorageToken s) (fileInputValue s) (sent s) (fetched s) (awaited
    s) (notices s) (timers s).

Definition set_lastOptionsRef (v : list jsstring) (s : State) : State :=
  mkState (messages s) (inputValue s) (isConnected s) (isLoading s)
    (currentPhase s) (fieldsStatus s) (quickOptions s) (uiComponent s)
    (completion s) (pendingItems s) (confirmedItems s) (isRecognizing s)
    (recognitionStep s) (itemsJustConfirmed s) (isVerifyingAddress s)
    (addressVerifyStep s) (pendingAddressData s) (selectedOptions s)
    (showPrivacyModal s) (showItemListModal s) (contactPhone s)
    (contactEmail s) (textQueueRef s) (isTypingRef s) v
    (addedAddressCardsRef s) (wsRef s) (sessionTokenRef s)
    (localStorageToken s) (fileInputValue s) (sent s) (fetched s) (awaited
    s) (notices s) (timers s).

Definition set_addedAddressCardsRef (v : gmap jsstring bool) (s : State) : State :=
  mkState (messages s) (inputValue s) (isConnected s) (isLoading s)
    (currentPhase s) (fieldsStatus s) (quickOptions s) (uiComponent s)
    (completion s) (pendingItems s) (confirmedItems s) (isRecognizing s)
    (recognitionStep s) (itemsJustConfirmed s) (isVerifyingAddress s)
    (addressVerifyStep s) (pendingAddressData s) (selectedOptions s)
    (showPrivacyModal s) (showItemListModal s) (contactPhone s)
    (contactEmail s) (textQueueRef s) (isTypingRef s) (lastOptionsRef s) v
    (wsRef s) (sessionTokenRef s) (localStorageToken s) (fileInputValue s)
    (sent s) (fetched s) (awaited s) (notices s) (timers s).

Definition set_wsRef (v : bool) (s : State) : State :=
  mkState (messages s) (inputValue s) (isConnected s) (isLoading s)
    (currentPhase s) (fieldsStatus s) (quickOptions s) (uiComponent s)
    (completion s) (pendingItems s) (confirmedItems s) (isRecognizing s)
    (recognitionStep s) (itemsJustConfirmed s) (isVerifyingAddress s)
    (addressVerifyStep s) (pendingAddressData s) (selectedOptions s)
    (showPrivacyModal s) (showItemListModal s) (contactPhone s)
    (contactEmail s) (textQueueRef s) (isTypingRef s) (lastOptionsRef s)
    (addedAddressCardsRef s) v (sessionTokenRef s) (localStorageToken s)
    (fileInputValue s) (sent s) (fetched s) (awaited s) (notices s) (timers
    s).

Definition set_sessionTokenRef (v : option jsstring) (s : State) : State :=
  mkState (messages s) (inputValue s) (isConnected s) (isLoading s)
    (currentPhase s) (fieldsStatus s) (quickOptions s) (uiComponent s)
    (completion s) (pendingItems s) (confirmedItems s) (isRecognizing s)
    (recognitionStep s) (itemsJustConfirmed s) (isVerifyingAddress s)
    (addressVerifyStep s) (pendingAddressData s) (selectedOptions s)
    (showPrivacyModal s) (showItemListModal s) (contactPhone s)
    (contactEmail s) (textQueueRef s) (isTypingRef s) (lastOptionsRef s)
    (addedAddressCardsRef s) (wsRef s) v (localStorageToken s)
    (fileInputValue s) (sent s) (fetched s) (awaited s) (notices s) (timers
    s).

Definition set_localStorageToken (v : option jsstring) (s : State) : State :=
  mkState (messages s) (inputValue s) (isConnected s) (isLoading s)
    (currentPhase s) (fieldsStatus s) (quickOptions s) (uiComponent s)
    (completion s) (pendingItems s) (confirmedItems s) (isRecognizing s)
    (recognitionStep s) (itemsJustConfirmed s) (isVerifyingAddress s)
    (addressVerifyStep s) (pendingAddressData s) (selectedOptions s)
    (showPrivacyModal s) (showItemListModal s) (contactPhone s)
    (contactEmail s) (textQueueRef s) (isTypingRef s) (lastOptionsRef s)
    (addedAddressCardsRef s) (wsRef s) (sessionTokenRef s) v (fileInputValue
    s) (sent s) (fetched s) (awaited s) (notices s) (timers s).

Definition set_fileInputValue (v : jsstring) (s : State) : State :=
  mkState (messages s) (inputValue s) (isConnected s) (isLoading s)
    (currentPhase s) (fieldsStatus s) (quickOptions s) (uiComponent s)
    (completion s) (pendingItems s) (confirmedItems s) (isRecognizing s)
    (recognitionStep s) (itemsJustConfirmed s) (isVerifyingAddress s)
    (addressVerifyStep s) (pendingAddressData s) (selectedOptions s)
    (showPrivacyModal s) (showItemListModal s) (contactPhone s)
    (contactEmail s) (textQueueRef s) (isTypingRef s) (lastOptionsRef s)
    (addedAddressCardsRef s) (wsRef s) (sessionTokenRef s)
    (localStorageToken s) v (sent s) (fetched s) (awaited s) (notices s)
    (timers s).

Definition set_sent (v : list WsOut) (s : State) : State :=
  mkState (messages s) (inputValue s) (isConnected s) (isLoading s)
    (currentPhase s) (fieldsStatus s) (quickOptions s) (uiComponent s)
    (completion s) (pendingItems s) (confirmedItems s) (isRecognizing s)
    (recognitionStep s) (itemsJustConfirmed s) (isVerifyingAddress s)
    (addressVerifyStep s) (pendingAddressData s) (selectedOptions s)
    (showPrivacyModal s) (showItemListModal s) (contactPhone s)
    (contactEmail s) (textQueueRef s) (isTypingRef s) (lastOptionsRef s)
    (addedAddressCardsRef s) (wsRef s) (sessionTokenRef s)
    (localStorageToken s) (fileInputValue s) v (fetched s) (awaited s)
    (notices s) (timers s).

Definition set_fetched (v : list UploadRequest) (s : State) : State :=
  mkState (messages s) (inputValue s) (isConnected s) (isLoading s)
    (currentPhase s) (fieldsStatus s) (quickOptions s) (uiComponent s)
    (completion s) (pendingItems s) (confirmedItems s) (isRecognizing s)
    (recognitionStep s) (itemsJustConfirmed s) (isVerifyingAddress s)
    (addressVerifyStep s) (pendingAddressData s) (selectedOptions s)
    (showPrivacyModal s) (showItemListModal s) (contactPhone s)
    (contactEmail s) (textQueueRef s) (isTypingRef s) (lastOptionsRef s)
    (addedAddressCardsRef s) (wsRef s) (sessionTokenRef s)
    (localStorageToken s) (fileInputValue s) (sent s) v (awaited s) (notices
    s) (timers s).

Definition set_awaited (v : nat) (s : State) : State :=
  mkState (messages s) (inputValue s) (isConnected s) (isLoading s)
    (currentPhase s) (fieldsStatus s) (quickOptions s) (uiComponent s)
    (completion s) (pendingItems s) (confirmedItems s) (isRecognizing s)
    (recognitionStep s) (itemsJustConfirmed s) (isVerifyingAddress s)
    (addressVerifyStep s) (pendingAddressData s) (selectedOptions s)
    (showPrivacyModal s) (showItemListModal s) (contactPhone s)
    (contactEmail s) (textQueueRef s) (isTypingRef s) (lastOptionsRef s)
    (addedAddressCardsRef s) (wsRef s) (sessionTokenRef s)
    (localStorageToken s) (fileInputValue s) (sent s) (fetched s) v (notices
    s) (timers s).

Definition set_notices (v : list Notice) (s : State) : State :=
  mkState (messages s) (inputValue s) (isConnected s) (isLoading s)
    (currentPhase s) (fieldsStatus s) (quickOptions s) (uiComponent s)
    (completion s) (pendingItems s) (confirmedItems s) (isRecognizing s)
    (recognitionStep s) (itemsJustConfirmed s) (isVerifyingAddress s)
    (addressVerifyStep s) (pendingAddressData s) (selectedOptions s)
    (showPrivacyModal s) (showItemListModal s) (contactPhone s)
    (contactEmail s) (textQueueRef s) (isTypingRef s) (lastOptionsRef s)
    (addedAddressCardsRef s) (wsRef s) (sessionTokenRef s)
    (localStorageToken s) (fileInputValue s) (sent s) (fetched s) (awaited
    s) v (timers s).

Definition set_timers (v : list Task) (s : State) : State :=
  mkState (messages s) (inputValue s) (isConnected s) (isLoading s)
    (currentPhase s) (fieldsStatus s) (quickOptions s) (uiComponent s)
    (completion s) (pendingItems s) (confirmedItems s) (isRecognizing s)
    (recognitionStep s) (itemsJustConfirmed s) (isVerifyingAddress s)
    (addressVerifyStep s) (pendingAddressData s) (selectedOptions s)
    (showPrivacyModal s) (showItemListModal s) (contactPhone s)
    (contactEmail s) (textQueueRef s) (isTypingRef s) (lastOptionsRef s)
    (addedAddressCardsRef s) (wsRef s) (sessionTokenRef s)
    (localStorageToken s) (fileInputValue s) (sent s) (fetched s) (awaited
    s) (notices s) v.
(** Statements of a handler run one after the other. *)
Definition andThen (f g : State -> State) : State -> State :=
  fun s => g (f s).
Infix ">>>" := andThen (at level 61, left associativity).

(** [return] / an untaken branch. *)
Definition skip : State -> State := fun s => s.

(** [setX(prev => f prev)] *)
Definition setMessagesWith (f : list Msg -> list Msg) : State -> State :=
  fun s => setMessages (f (messages s)) s.
Definition setPendingItemsWith (f : list Item -> list Item)
  : State -> State :=
  fun s => setPendingItems (f (pendingItems s)) s.
Definition setConfirmedItemsWith (f : list Item -> list Item)
  : State -> State :=
  fun s => setConfirmedItems (f (confirmedItems s)) s.
Definition setSelectedOptionsWith (f : list jsstring -> list jsstring)
  : State -> State :=
  fun s => setSelectedOptions (f (selectedOptions s)) s.

(** [wsRef.current?.send(JSON.stringify(frame))].  A socket that is
    still connecting makes [send] throw, which ends the handler there;
    this is not modelled: the theorems on what such a handler sends and
    does next assume an open connection ([isConnected]). *)
Definition wsSend (frame : WsOut) : State -> State :=
  fun s => if wsRef s then set_sent (sent s ++ [frame]) s else s.

(** [message.error(..)], [message.warning(..)], [message.success(..)] *)
Definition notify (n : Notice) : State -> State :=
  fun s => set_notices (notices s ++ [n]) s.

(** [setTimeout(task, _)] / [setInterval(task, _)] *)
Definition arm (t : Task) : State -> State :=
  fun s => set_timers (timers s ++ [t]) s.

(** The state of the first render (the arguments of [useState] and
    [useRef]); [tok] is [localStorage.getItem('erabu_session_token')]. *)
Definition initialState (tok : option jsstring) : State :=
  {| messages := [];
     inputValue := [];
     isConnected := false;
     isLoading := false;
     currentPhase := 0;
     fieldsStatus := ∅;
     quickOptions := [];
     uiComponent := mkUi (js "none") None;
     completion := mkCompletion (Some 0%Q) false;
     pendingItems := [];
     confirmedItems := [];
     isRecognizing := false;
     recognitionStep := 0;
     itemsJustConfirmed := false;
     isVerifyingAddress := false;
     addressVerifyStep := 0;
     pendingAddressData := None;
     selectedOptions := [];
     showPrivacyModal := false;
     showItemListModal := false;
     contactPhone := [];
     contactEmail := [];
     textQueueRef := [];
     isTypingRef := false;
     lastOptionsRef := [];
     addedAddressCardsRef := <[js "from" := false]> (<[js "to" := false]> ∅);
     wsRef := false;
     sessionTokenRef := tok;
     localStorageToken := tok;
     fileInputValue := [];
     sent := [];
     fetched := [];
     awaited := 0;
     notices := [];
     timers := [] |}.

(* ================================================================== *)
(** ** Small helpers for the JavaScript idioms of the handlers *)
(* ================================================================== *)

(** [l[l.length - 1]] together with [l.slice(0, -1)]. *)
Fixpoint splitLast {A : Type} (l : list A) : option (list A * A) :=
  match l with
  | [] => None
  | x :: t =>
    match splitLast t with
    | None => Some ([], x)
    | Some (init, z) => Some (x :: init, z)
    end
  end.

(** [o || d] for a string that may be absent or empty. *)
Definition strOr (o : option jsstring) (d : jsstring) : jsstring :=
  match o with
  | Some (c :: t) => c :: t
  | _ => d
  end.

(** A value used as a property key or spliced into a template literal:
    an absent one prints as [undefined]. *)
Definition propKey (a : option jsstring) : jsstring :=
  default (js "undefined") a.

(** [addedAddressCardsRef.current[addressType]], read as a condition.
    The keys are those the component has written; a key that a plain
    object inherits ([constructor], [toString], ...) reads as set in the
    code and is not among them. *)
Definition alreadyAddedFor (s : State) (a : option jsstring) : bool :=
  default false (addedAddressCardsRef s !! propKey a).

(** [msg.type === 'address_confirm_card' || msg.type === 'address_selection_card'] *)
Definition isAddressCard (m : Msg) : bool :=
  bool_decide (type m = address_confirm_card)
  || bool_decide (type m = address_selection_card).

(* ================================================================== *)
(** ** The typing effect (lines 104-130) *)
(* ================================================================== *)

(** The updater of [setMessages] at lines 116-122. *)
Definition typeChar (char : N) (prev : list Msg) : list Msg :=
  match splitLast prev with
  | Some (init, last) =>
    if bool_decide (role last = js "assistant") && streaming last
    then init ++ [appendChar last char]
    else prev ++ [textMsg (js "assistant") (Some [char]) true]
  | None => prev ++ [textMsg (js "assistant") (Some [char]) true]
  end.

(** The inner function [typeNextChar]; it re-arms itself after each
    character (the delay only paces the display). *)
Definition typeNextCharBody : State -> State :=
  fun s =>
    match textQueueRef s with
    | [] => set_isTypingRef false s
    | char :: rest =>
      (set_textQueueRef rest
       >>> setMessagesWith (typeChar char)
       >>> arm typeNextChar) s
    end.

Definition processTextQueue : State -> State :=
  fun s =>
    if isTypingRef s || bool_decide (textQueueRef s = []) then s
    else (set_isTypingRef true >>> typeNextCharBody) s.

(** The updater of [setMessages] at lines 206-212. *)
Definition finishLast (prev : list Msg) : list Msg :=
  match splitLast prev with
  | Some (init, last) =>
    if streaming last then init ++ [stopStreaming last] else prev
  | None => prev
  end.

(** The inner function [waitForTyping] of the [text_done] case. *)
Definition waitForTypingBody : State -> State :=
  fun s =>
    if negb (bool_decide (textQueueRef s = [])) || isTypingRef s
    then arm waitForTyping s
    else (setIsLoading false >>> setMessagesWith finishLast) s.

(* ================================================================== *)
(** ** [resetState] (lines 350-363) *)
(* ================================================================== *)

Definition resetState : State -> State :=
  setMessages []
  >>> setCurrentPhase 0
  >>> setFieldsStatus ∅
  >>> setPendingItems []
  >>> setConfirmedItems []
  >>> setQuickOptions []
  >>> setUiComponent (mkUi (js "none") None)
  >>> setSelectedOptions []
  >>> setItemsJustConfirmed false
  >>> set_textQueueRef []
  >>> set_isTypingRef false
  >>> set_addedAddressCardsRef
        (<[js "from" := false]> (<[js "to" := false]> ∅)).

(* ================================================================== *)
(** ** [handleServerMessage] (lines 175-347) *)
(* ================================================================== *)

(** The updater that marks the address cards of one role as confirmed
    (lines 280-286 and 329-335). *)
Definition confirmAddressCards (ty : option jsstring) (prev : list Msg)
  : list Msg :=
  List.map
    (fun msg =>
       if isAddressCard msg && bool_decide (addressType msg = ty)
       then markConfirmed msg else msg)
    prev.

(** Lines 221-229. *)
Definition handleQuickOptions (quick_options : option (list jsstring))
  : State -> State :=
  fun s =>
    match quick_options with
    | Some newOptions =>
      let isSame :=
        bool_decide (JSON_stringify newOptions
                     = JSON_stringify (lastOptionsRef s)) in
      if negb isSame
      then (setQuickOptions newOptions >>> set_lastOptionsRef newOptions) s
      else s
    | None => s
    end.

Section ServerMessages.

(** [handleServerMessage] is memoised with the dependency list
    [[processTextQueue]] and installed once by [connect]: the state cell
    [isVerifyingAddress] it reads at line 243 is the one of the render
    that created it. *)
Variable isVerifyingAddress_seen : bool.

(** Lines 230-290. *)
Definition handleUiComponent (md : MetadataMsg) : State -> State :=
  fun s =>
    match md_ui_component md with
    | Some ui =>
      let uiType := ui_type ui in
      ((fun s =>
          if bool_decide (uiType = js "address_confirm")
             || bool_decide (uiType = js "address_selection")
          then
            let addressType := from_option address_type None (ui_data ui) in
            let addrField :=
              jsOr (match md_fields_status md with
                    | Some fs => field fs (propKey addressType ++ js "_address")
                    | None => JUndef
                    end) (JObj []) in
            let isAlreadyConfirmed :=
              isStr (js "baseline") (prop (js "status") addrField)
              && negb (truthy (prop (js "needs_confirmation") addrField)) in
            let alreadyAdded := alreadyAddedFor s addressType in
            if negb alreadyAdded && negb isAlreadyConfirmed
               && negb isVerifyingAddress_seen
            then
              (set_addedAddressCardsRef
                 (<[propKey addressType := true]> (addedAddressCardsRef s))
               >>> setIsVerifyingAddress true
               >>> setAddressVerifyStep 0
               >>> setPendingAddressData
                     (Some (mkPendingAddress
                              (if bool_decide (uiType = js "address_confirm")
                               then address_confirm_card
                               else address_selection_card)
                              addressType (ui_data ui)))
               >>> arm (stepInterval 0
                          (addressCard uiType addressType (ui_data ui)))) s
            else if alreadyAdded && isAlreadyConfirmed
            then setMessagesWith (confirmAddressCards addressType) s
            else s
          else s)
       >>> setUiComponent ui) s
    | None => s
    end.

Definition handleServerMessage (data : ServerMsg) : State -> State :=
  match data with
  | SESSION session_token current_phase =>
    set_sessionTokenRef (Some session_token)
    >>> set_localStorageToken (Some session_token)
    >>> match current_phase with
        | Some p => setCurrentPhase p
        | None => skip
        end
  | TYPING_START => setIsLoading true
  | TEXT_DELTA content =>
    setIsLoading true
    >>> (fun s => set_textQueueRef (textQueueRef s ++ content) s)
    >>> processTextQueue
  | TEXT_DONE => waitForTypingBody
  | METADATA md =>
    match md_current_phase md with
    | Some p => setCurrentPhase p
    | None => skip
    end
    >>> match md_fields_status md with
        | Some fs => setFieldsStatus fs
        | None => skip
        end
    >>> handleQuickOptions (md_quick_options md)
    >>> handleUiComponent md
    >>> match md_completion md with
        | Some c => setCompletion c
        | None => skip
        end
  | MESSAGE_HISTORY messages =>
    match messages with
    | Some l =>
      setMessages
        (List.map (fun m => textMsg (h_role m) (h_content m) false) l)
    | None => skip
    end
  | SESSION_RESET session_token _ =>
    set_sessionTokenRef (Some session_token)
    >>> set_localStorageToken (Some session_token)
    >>> resetState
  | ITEMS_RECOGNIZED its =>
    setIsRecognizing false >>> setPendingItems (default [] its)
  | ITEMS_CONFIRMED its => setConfirmedItems (default [] its)
  | ADDRESS_SELECTED => skip
  | ADDRESS_CONFIRMED address_type =>
    match address_type with
    | Some (c :: t) => setMessagesWith (confirmAddressCards (Some (c :: t)))
    | _ => skip
    end
  | ERROR message =>
    notify (notice_error (strOr message (js "发生错误")))
    >>> setIsLoading false
  | UNKNOWN => skip
  end.

End ServerMessages.

(* ================================================================== *)
(** ** Handlers of the user's actions *)
(* ================================================================== *)

(** [wsRef.current.send(..)], after the handler has checked [wsRef.current]. *)
Definition wsSendChecked (frame : WsOut) : State -> State :=
  fun s => set_sent (sent s ++ [frame]) s.

Definition addItemKeywords : list jsstring :=
  [js "继续添加"; js "添加物品"; js "再添加"; js "上传图片";
   js "还有物品"; js "还要添加"].

(** [sendMessage] (lines 366-387); [None] is a [null] or [undefined]
    argument. *)
Definition sendMessage (content : option jsstring) : State -> State :=
  fun s =>
    match content with
    | None => s
    | Some c =>
      if negb (nonEmpty (trim c)) || negb (wsRef s) || negb (isConnected s)
      then s
      else
        let isAddItemRequest :=
          existsb (fun kw => includes c kw) addItemKeywords in
        if isAddItemRequest && (currentPhase s =? 4)
        then
          (setUiComponent (mkUi (js "item_evaluation") None)
           >>> setQuickOptions []
           >>> setInputValue []) s
        else
          (setMessagesWith
             (fun prev => prev ++ [textMsg (js "user") (Some c) false])
           >>> wsSendChecked (out_message c)
           >>> setInputValue []
           >>> setQuickOptions []
           >>> set_lastOptionsRef []
           >>> setIsLoading true) s
    end.

Definition multiSelectOptions : list jsstring :=
  [js "有宜家家具"; js "有钢琴需要搬运"; js "空调安装"; js "空调拆卸";
   js "不用品回收"].

(** [handleQuickOption] (lines 390-422). *)
Definition handleQuickOption (opt : jsstring) : State -> State :=
  fun s =>
    if bool_decide (opt = js "继续添加")
       || bool_decide (opt = js "上传照片")
    then
      (setUiComponent (mkUi (js "item_evaluation") None)
       >>> setQuickOptions []
       >>> setPendingItems []
       >>> setItemsJustConfirmed false) s
    else if arrayIncludes multiSelectOptions opt
    then
      setSelectedOptionsWith
        (fun prev =>
           if arrayIncludes prev opt
           then List.filter (fun o => negb (bool_decide (o = opt))) prev
           else prev ++ [opt]) s
    else if bool_decide (opt = js "没有了")
            || bool_decide (opt = js "没有其他行李")
            || bool_decide (opt = js "没有其他行李了")
    then
      ((if bool_decide (selectedOptions s ≠ [])
        then sendMessage (Some (join (js "、") (selectedOptions s)))
             >>> setSelectedOptions []
        else skip)
       >>> setUiComponent (mkUi (js "none") None)
       >>> sendMessage (Some opt)) s
    else sendMessage (Some opt) s.

(** [confirmSelectedOptions] (lines 425-430). *)
Definition confirmSelectedOptions : State -> State :=
  fun s =>
    if bool_decide (selectedOptions s ≠ [])
    then (sendMessage (Some (join (js "、") (selectedOptions s)))
          >>> setSelectedOptions []) s
    else s.

(** [resetSession] (lines 433-437). *)
Definition resetSession : State -> State :=
  fun s =>
    if wsRef s && isConnected s then wsSendChecked out_reset_session s else s.

(** [handleUploadImage] and [confirmPrivacyAndUpload] (lines 443-452);
    the latter opens the file chooser. *)
Definition handleUploadImage : State -> State := setShowPrivacyModal true.
Definition confirmPrivacyAndUpload : State -> State :=
  setShowPrivacyModal false.

Definition allowedTypes : list jsstring :=
  [js "image/jpeg"; js "image/png"; js "image/webp"; js "image/gif"].

Definition maxFileSize : Z := 10 * 1024 * 1024.

(** [handleFileSelected] up to its first [await] (lines 455-494);
    [file] is [event.target.files?.[0]]. *)
Definition handleFileSelected (file : option File) : State -> State :=
  fun s =>
    match file with
    | None => s
    | Some file =>
      (set_fileInputValue []
       >>> (fun s =>
              if negb (arrayIncludes allowedTypes (file_type file))
              then notify (notice_error
                             (js "只支持 JPG、PNG、WebP、GIF 格式的图片")) s
              else if file_size file >? maxFileSize
              then notify (notice_error (js "图片大小不能超过 10MB")) s
              else
                (setIsRecognizing true
                 >>> setRecognitionStep 0
                 >>> setRecognitionStep 1
                 >>> setRecognitionStep 2
                 >>> (fun s =>
                        set_fetched
                          (fetched s
                           ++ [mkUpload file
                                 (match sessionTokenRef s with
                                  | Some (c :: t) => Some (c :: t)
                                  | _ => None
                                  end)]) s)
                 >>> (fun s => set_awaited (S (awaited s)) s)) s)) s
    end.

(** Lines 512-520: the recognised items, numbered from 1. *)
Fixpoint numberItems (index : Z) (l : list RawItem) : list Item :=
  match l with
  | [] => []
  | item :: t =>
    mkItem (Some (index + 1)) (raw_name item) (raw_name_ja item)
           (raw_category item) (Some (countOr1 (raw_count item)))
           (raw_confidence item) (Some (noteOrEmpty (raw_note item)))
      :: numberItems (index + 1) t
  end.

(** The rest of [handleFileSelected], once the upload has settled (lines
    496-537).  The two awaits ([fetch], then [response.json()]) are taken
    in one step: between them the handler only moves the progress
    indicator. *)
Definition uploadSettled (r : UploadOutcome) : State -> State :=
  fun s =>
    match awaited s with
    | O => s
    | S n =>
      (set_awaited n
       >>> match r with
           | fetch_rejected message =>
             notify (notice_error
                       (strOr (Some message) (js "图片处理失败，请重试")))
           | json_rejected message =>
             setRecognitionStep 3
             >>> notify (notice_error
                           (strOr (Some message) (js "图片处理失败，请重试")))
           | upload_not_ok detail =>
             setRecognitionStep 3
             >>> notify (notice_error (strOr detail (js "图片上传失败")))
           | upload_ok success error image_id its =>
             setRecognitionStep 3
             >>> setRecognitionStep 4
             >>> if success
                 then
                   let items := numberItems 0 its in
                   wsSend (out_image_uploaded image_id items)
                   >>> setPendingItems items
                   >>> notify (notice_recognized (length items))
                 else
                   notify (notice_error (strOr error (js "图片识别失败")))
           end
       >>> setIsRecognizing false) s
    end.

(** [confirmItems] (lines 541-560); [pendingItems] is the value of the
    render that created the callback, i.e. the current one. *)
Definition confirmItems : State -> State :=
  fun s =>
    let pendingItems := pendingItems s in
    (wsSend (out_items_confirmed pendingItems)
     >>> setMessagesWith
           (fun prev =>
              prev ++ [mkMsg (js "assistant") items_card None false None None
                             pendingItems true])
     >>> setConfirmedItemsWith (fun prev => prev ++ pendingItems)
     >>> setPendingItems []
     >>> setItemsJustConfirmed false) s.

(** [deleteItem] (lines 563-565). *)
Definition deleteItem (id : option Z) : State -> State :=
  setPendingItemsWith
    (List.filter (fun i => negb (bool_decide (item_id i = id)))).

(** [handleAddressSelected] (lines 1028-1042). *)
Definition handleAddressSelected (addressType_ : jsstring)
    (selectedAddress : JsVal) : State -> State :=
  wsSend (out_address_selected addressType_ selectedAddress)
  >>> setMessagesWith
        (List.map
           (fun msg =>
              if bool_decide (type msg = address_selection_card)
                 && bool_decide (addressType msg = Some addressType_)
              then markConfirmed msg else msg)).

(** [handleAddressConfirmed] (lines 1045-1064). *)
Definition handleAddressConfirmed (addressType_ : jsstring)
    (confirmed_ : bool) : State -> State :=
  setIsLoading true
  >>> wsSend (out_address_confirmed addressType_ confirmed_)
  >>> if confirmed_
      then setMessagesWith
             (List.map
                (fun msg =>
                   if bool_decide (type msg = address_confirm_card)
                      && bool_decide (addressType msg = Some addressType_)
                   then markConfirmed msg else msg))
      else skip.

(** [handleSubmitContact] (lines 1301-1313). *)
Definition handleSubmitContact : State -> State :=
  fun s =>
    if nonEmpty (contactPhone s) || nonEmpty (contactEmail s)
    then (wsSend (out_submit_quote (contactPhone s) (contactEmail s))
          >>> setContactPhone []
          >>> setContactEmail []) s
    else notify (notice_warning (js "请输入手机号或邮箱")) s.

(* ================================================================== *)
(** ** What the rendered cards offer (lines 735-910) *)
(* ================================================================== *)

(** [msg.addressType || 'from'] *)
Definition cardRole (msg : Msg) : jsstring :=
  strOr (addressType msg) (js "from").

(** [fieldsStatus[`${addressType}_address`] || {}] *)
Definition addressField (s : State) (msg : Msg) : JsVal :=
  jsOr (field (fieldsStatus s) (cardRole msg ++ js "_address")) (JObj []).

(** [isConfirmed] of an embedded confirmation card (line 742). *)
Definition isConfirmed (s : State) (msg : Msg) : bool :=
  confirmed msg
  || isStr (js "baseline") (prop (js "status") (addressField s msg))
     && negb (truthy (prop (js "needs_confirmation") (addressField s msg))).

(** [isSelected] of an embedded selection card (line 826). *)
Definition isSelected (s : State) (msg : Msg) : bool :=
  confirmed msg
  || isStr (js "verified")
           (prop (js "verification_status") (addressField s msg)).

(** [data.candidates || []] with [data = msg.data || {}] (lines 818-820). *)
Definition cardCandidates (msg : Msg) : list JsVal :=
  default [] (from_option candidates None (data msg)).

(** A click on candidate [idx] of the selection card at position [index]
    of the message list (line 868); the list is shown only while the card
    is not selected. *)
Definition clickCandidate (index idx : nat) : State -> State :=
  fun s =>
    match messages s !! index with
    | Some msg =>
      if bool_decide (type msg = address_selection_card)
         && negb (isSelected s msg)
      then
        match cardCandidates msg !! idx with
        | Some addr => handleAddressSelected (cardRole msg) addr s
        | None => s
        end
      else s
    | None => s
    end.

(** A click on one of the two buttons of the confirmation card at
    position [index] (lines 798 and 804). *)
Definition clickConfirm (index : nat) (answer : bool) : State -> State :=
  fun s =>
    match messages s !! index with
    | Some msg =>
      if bool_decide (type msg = address_confirm_card)
         && negb (isConfirmed s msg)
      then handleAddressConfirmed (cardRole msg) answer s
      else s
    | None => s
    end.

(* ================================================================== *)
(** ** Timers and the socket's life cycle *)
(* ================================================================== *)

(** [connect] (lines 138-168): a new socket is stored in [wsRef.current]. *)
Definition connect : State -> State := set_wsRef true.

(** What runs when an armed callback fires. *)
Definition runTask (t : Task) : State -> State :=
  match t with
  | typeNextChar => typeNextCharBody
  | waitForTyping => waitForTypingBody
  | stepInterval step card =>
    let step := step + 1 in
    setAddressVerifyStep step
    >>> if step >=? 4
        then arm (addCardTimeout card)        (* clearInterval, setTimeout *)
        else arm (stepInterval step card)     (* the interval goes on *)
  | addCardTimeout card =>
    setMessagesWith (fun prev => prev ++ [card])
    >>> setIsVerifyingAddress false
    >>> setPendingAddressData None
  | reconnect => connect
  end.

(** The [i]-th armed callback fires: it leaves the list and runs.  Which
    one fires next is left open, so every pacing of the timers is covered. *)
Definition fire (i : nat) : State -> State :=
  fun s =>
    match timers s !! i with
    | Some t => (set_timers (delete i (timers s)) >>> runTask t) s
    | None => s
    end.

(* ================================================================== *)
(** ** The component as a transition system *)
(* ================================================================== *)

Inductive Event : Type :=
| ev_mount                                   (* the effect of lines 137-172 *)
| ev_open                                    (* ws.onopen *)
| ev_close                                   (* ws.onclose *)
| ev_server (data : ServerMsg)               (* ws.onmessage *)
| ev_timer (i : nat)
| ev_input (v : jsstring)                    (* the text box *)
| ev_send                                    (* sendMessage(inputValue) *)
| ev_say (text : option jsstring)            (* sendMessage(..) of a button *)
| ev_quickOption (opt : jsstring)
| ev_confirmSelected
| ev_reset                                   (* the reset button *)
| ev_uploadImage
| ev_confirmPrivacy
| ev_cancelPrivacy
| ev_fileSelected (file : option File)
| ev_uploadSettled (r : UploadOutcome)
| ev_confirmItems
| ev_deleteItem (id : option Z)
| ev_clickCandidate (index idx : nat)
| ev_clickConfirm (index : nat) (answer : bool)
| ev_contactPhone (v : jsstring)
| ev_contactEmail (v : jsstring)
| ev_submitContact
| ev_itemListModal (open : bool).

(** The value of [isVerifyingAddress] that the installed
    [handleServerMessage] sees: the one of the first render. *)
Definition isVerifyingAddress_installed : bool :=
  isVerifyingAddress (initialState None).

Definition step (e : Event) : State -> State :=
  match e with
  | ev_mount => connect
  | ev_open => setIsConnected true
  | ev_close => setIsConnected false >>> arm reconnect
  | ev_server data => handleServerMessage isVerifyingAddress_installed data
  | ev_timer i => fire i
  | ev_input v => setInputValue v
  | ev_send => fun s => sendMessage (Some (inputValue s)) s
  | ev_say text => sendMessage text
  | ev_quickOption opt => handleQuickOption opt
  | ev_confirmSelected => confirmSelectedOptions
  | ev_reset => resetSession
  | ev_uploadImage => handleUploadImage
  | ev_confirmPrivacy => confirmPrivacyAndUpload
  | ev_cancelPrivacy => setShowPrivacyModal false
  | ev_fileSelected file => handleFileSelected file
  | ev_uploadSettled r => uploadSettled r
  | ev_confirmItems => confirmItems
  | ev_deleteItem id => deleteItem id
  | ev_clickCandidate index idx => clickCandidate index idx
  | ev_clickConfirm index answer => clickConfirm index answer
  | ev_contactPhone v => setContactPhone v
  | ev_contactEmail v => setContactEmail v
  | ev_submitContact => handleSubmitContact
  | ev_itemListModal open => setShowItemListModal open
  end.

(** The events of a list, oldest first. *)
Definition run (es : list Event) (s : State) : State :=
  fold_left (fun s e => step e s) es s.

(* ================================================================== *)
(** ** What the panels display *)
(* ================================================================== *)

(** [Math.round((completion.completion_rate || 0) * 100)] (line 1853),
    in exact arithmetic: it is the code's value for the rates whose
    product by 100 a double holds exactly, such as 0, 1/2 and 1. *)
Definition displayedPercent (s : State) : Z :=
  Qfloor (default 0 (completion_rate (completion s)) * 100 + (1 # 2))%Q.

(** The rows of the checklist (lines 1549-1717). *)
Inductive ChecklistKey : Type :=
| people_count
| from_address
| from_building_type
| from_room_type
| to_address
| move_date
| items_key
| from_floor_elevator
| to_floor_elevator
| packing_service
| special_notes.

Definition allFields : list ChecklistKey :=
  [people_count; from_address; from_building_type; from_room_type;
   to_address; move_date; items_key; from_floor_elevator;
   to_floor_elevator; packing_service; special_notes].

Definition not_collected : JsVal := JStr (js "not_collected").
Definition baseline : JsVal := JStr (js "baseline").

(** The [getStatus] of each row. *)
Definition getStatus (s : State) (k : ChecklistKey) : JsVal :=
  let fs := fieldsStatus s in
  let statusOf key := jsOr (prop (js "status") (field fs key)) not_collected in
  match k with
  | people_count => jsOr (field fs (js "people_count_status")) not_collected
  | from_address => statusOf (js "from_address")
  | from_building_type =>
    if truthy (prop (js "building_type") (field fs (js "from_address")))
    then baseline else not_collected
  | from_room_type =>
    if truthy (prop (js "room_type") (field fs (js "from_address")))
    then baseline else not_collected
  | to_address => statusOf (js "to_address")
  | move_date => statusOf (js "move_date")
  | items_key =>
    let items := field fs (js "items") in
    if negb (truthy items) then not_collected
    else if isStr (js "baseline") (prop (js "status") items)
            || isStr (js "ideal") (prop (js "status") items)
    then baseline
    else if isStr (js "in_progress") (prop (js "status") items)
    then JStr (js "in_progress")
    else if isStr (js "asked") (prop (js "status") items)
    then JStr (js "asked")
    else if lengthPositive (prop (js "list") items)
    then JStr (js "in_progress")
    else not_collected
  | from_floor_elevator => statusOf (js "from_floor_elevator")
  | to_floor_elevator => statusOf (js "to_floor_elevator")
  | packing_service =>
    jsOr (field fs (js "packing_service_status"))
         (if truthy (field fs (js "packing_service"))
          then baseline else not_collected)
  | special_notes =>
    if truthy (field fs (js "special_notes_done")) then baseline
    else if lengthPositive (field fs (js "special_notes"))
    then JStr (js "in_progress")
    else if isStr (js "asked") (field fs (js "special_notes_status"))
    then JStr (js "asked")
    else jsOr (field fs (js "special_notes_status")) not_collected
  end.

(** [msg] is an address card of the role [role_] ([undefined] is the
    role of a card whose payload names none). *)
Definition isCardFor (role_ : option jsstring) (msg : Msg) : bool :=
  isAddressCard msg && bool_decide (addressType msg = role_).

(** The address cards of one role among the messages, and those of them
    that are not marked confirmed. *)
Definition cardsOf (role_ : option jsstring) (l : list Msg) : list Msg :=
  List.filter (isCardFor role_) l.

Definition unconfirmedCardsOf (role_ : option jsstring) (l : list Msg)
  : list Msg :=
  List.filter (fun m => negb (confirmed m)) (cardsOf role_ l).

(* ================================================================== *)
(** ** The address sub-flow of the session *)
(* ================================================================== *)

Module Subflow.


(** Modelled from the spec: the two typed errors of the sub-flow in the
    error taxonomy of section 7. *)
Inductive error : Type :=
| UnresolvedAddress
| SubflowBusy.



End Subflow.

(* ================================================================== *)
(** ** Vocabulary of the statements *)
(* ================================================================== *)

(** A string made of white space only (the empty string included). *)
Definition whitespaceOnly (c : jsstring) : bool := forallb isWhiteSpace c.

(** The entry of the spec's example. *)
Definition sofa (count : Z) : Item :=
  mkItem None (js "Sofa") None (js "furniture") (Some count) None None.

(** The session that holds one confirmed sofa and a recognition result
    of two more, reached through the server's events. *)
Definition sofaSession : State :=
  run [ev_mount; ev_open;
       ev_server (ITEMS_CONFIRMED (Some [sofa 1]));
       ev_server (ITEMS_RECOGNIZED (Some [sofa 2]))]
      (initialState None).

(** Three pending items, numbered by the upload that recognised them. *)
Definition threePending : State :=
  run [ev_mount; ev_open;
       ev_server (ITEMS_CONFIRMED (Some [sofa 1]));
       ev_fileSelected (Some (mkFile (js "image/png") 204800));
       ev_uploadSettled
         (upload_ok true None (JStr (js "img-1"))
            [mkRawItem (js "bed") None (js "furniture") (Some 1) None None;
             mkRawItem (js "desk") None (js "furniture") None None None;
             mkRawItem (js "box") None (js "boxes") (Some 12) None None])]
      (initialState None).

(** The [metadata] event that carries nothing but quick options. *)
Definition optionsOnly (o : list jsstring) : MetadataMsg :=
  mkMetadata None None (Some o) None None.

(** The [metadata] event that carries nothing but a phase. *)
Definition phaseOnly (p : Z) : MetadataMsg :=
  mkMetadata (Some p) None None None None.

(** The phase an event brings from the server, if any (lines 182 and 219). *)
Definition carriedPhase (e : Event) : option Z :=
  match e with
  | ev_server (SESSION _ current_phase) => current_phase
  | ev_server (METADATA md) => md_current_phase md
  | _ => None
  end.

Definition isSessionReset (e : Event) : bool :=
  match e with
  | ev_server (SESSION_RESET _ _) => true
  | _ => false
  end.

(** The phases brought by the events of [es] never go down, starting from
    phase [p]. *)
Fixpoint phasesAscend (p : Z) (es : list Event) : Prop :=
  match es with
  | [] => True
  | e :: t =>
    match carriedPhase e with
    | Some q => p <= q /\ phasesAscend q t
    | None => phasesAscend p t
    end
  end.

(** A session half way: phase 2, the head count confirmed, half of the
    required fields collected. *)
Definition halfWay : MetadataMsg :=
  mkMetadata (Some 2)
    (Some (<[js "people_count_status" := JStr (js "baseline")]>
             (<[js "people_count" := JNum 2]> ∅)))
    (Some [js "单身"; js "家庭"])
    None
    (Some (mkCompletion (Some (1 # 2)%Q) false)).

Definition halfWaySession : State :=
  run [ev_mount; ev_open;
       ev_server (METADATA halfWay);
       ev_server (ITEMS_CONFIRMED (Some [sofa 1]));
       ev_server (ITEMS_RECOGNIZED (Some [sofa 2]))]
      (initialState None).

(** Three candidates of a resolver, and the session that shows them in a
    selection card for the address to move from. *)
Definition candidate (formatted : string) : JsVal :=
  JObj [(js "formatted_address", JStr (js formatted))].

Definition threeCandidates : list JsVal :=
  [candidate "1-1 Shibuya"; candidate "1-1 Shibuya-honcho";
   candidate "1-1 Shibuya, Yamato"].

Definition selectionEmission : MetadataMsg :=
  mkMetadata None None None
    (Some (mkUi (js "address_selection")
             (Some (mkUiData (Some (js "from")) (Some threeCandidates)
                             (Some (js "Shibuya 1-1")) JUndef))))
    None.

(** The user has typed the address, the server has answered with the three
    candidates, and the animation has run to its end: the card is shown. *)
Definition selectingSession : State :=
  run [ev_mount; ev_open;
       ev_say (Some (js "Shibuya 1-1"));
       ev_server (METADATA selectionEmission);
       ev_timer 0; ev_timer 0; ev_timer 0; ev_timer 0; ev_timer 0]
      (initialState None).





(** A [metadata] event that asks to confirm an address of the role. *)
Definition confirmEmission (ty : string) (formatted : string) : MetadataMsg :=
  mkMetadata None None None
    (Some (mkUi (js "address_confirm")
             (Some (mkUiData (Some (js ty)) None None
                             (candidate formatted)))))
    None.

(** The session that has received one such event for the address to move
    from; the animation of its card is running. *)
Definition verifyingSession : State :=
  step (ev_server (METADATA (confirmEmission "from" "1-1 Shibuya")))
       (step ev_open (step ev_mount (initialState None))).

(** A reset while the card of the first event is still being animated,
    then a second event for the same role and every callback. *)
Definition resetDuringAnimation : list Event :=
  [ev_mount; ev_open;
   ev_server (METADATA (confirmEmission "from" "1-1 Shibuya"));
   ev_timer 0;
   ev_server (SESSION_RESET (js "t2") None);
   ev_server (METADATA (confirmEmission "from" "2-2 Ginza"))]
  ++ repeat (ev_timer 0) 12.


(** *** An assistant turn *)

(** The bubble that shows the text typed so far: none before the first
    character (lines 116-122). *)
Definition bubble (typed : jsstring) (streaming_ : bool) : list Msg :=
  match typed with
  | [] => []
  | _ => [textMsg (js "assistant") (Some typed) streaming_]
  end.

(** No message is being streamed at the end of the list. *)
Definition lastSettled (l : list Msg) : Prop :=
  forall init z, splitLast l = Some (init, z) -> streaming z = false.

(** The state in which a turn starts: nothing queued, nothing being
    typed, no callback armed, no message still streaming. *)
Definition settled (s : State) : Prop :=
  textQueueRef s = []
  /\ isTypingRef s = false
  /\ timers s = []
  /\ lastSettled (messages s).

(** The events of one assistant turn, seen from the client: [text_delta]
    events and callbacks firing in any order, then one [text_done],
    then callbacks only.  [turnOf es received done] reads such a sequence
    and gives the text received and whether [text_done] has come; it
    gives nothing for a sequence that is not of this shape. *)
Fixpoint turnOf (es : list Event) (received : jsstring) (done : bool)
  : option (jsstring * bool) :=
  match es with
  | [] => Some (received, done)
  | ev_server (TEXT_DELTA c) :: t =>
    if done then None else turnOf t (received ++ c) false
  | ev_server TEXT_DONE :: t =>
    if done then None else turnOf t received true
  | ev_timer _ :: t => turnOf t received done
  | _ => None
  end.

(** Where a turn stands. *)
Inductive TurnPhase : Type :=
| receiving      (* text_done has not come *)
| draining       (* text_done has come, waitForTyping is armed *)
| completed.     (* waitForTyping has cleared the streaming flag *)

#[global] Instance TurnPhase_eq_dec : EqDecision TurnPhase.
Proof. solve_decision. Defined.

Definition typingTimers (typing : bool) : list Task :=
  if typing then [typeNextChar] else [].

Definition turnTimers (ph : TurnPhase) (typing : bool) (ts : list Task)
  : Prop :=
  match ph with
  | receiving => ts = typingTimers typing
  | draining =>
    ts = typingTimers typing ++ [waitForTyping]
    \/ ts = waitForTyping :: typingTimers typing
  | completed => ts = [] /\ typing = false
  end.

(** The invariant of a turn that started with the messages [m0] and has
    received the text [received]. *)
Definition TurnInv (m0 : list Msg) (received : jsstring) (ph : TurnPhase)
    (s : State) : Prop :=
  exists typed,
    received = typed ++ textQueueRef s
    /\ messages s = m0 ++ bubble typed (negb (bool_decide (ph = completed)))
    /\ turnTimers ph (isTypingRef s) (timers s)
    /\ (isTypingRef s = false -> textQueueRef s = [])
    /\ (ph = completed -> isLoading s = false).

(** A reply interrupted by the user: "Hello" arrives, two characters are
    typed, the user sends "hi", the rest is typed, [text_done] arrives and
    every callback runs. *)
Definition interruptedTurn : list Event :=
  [ev_mount; ev_open;
   ev_server (TEXT_DELTA (js "Hello"));
   ev_timer 0;
   ev_say (Some (js "hi"));
   ev_timer 0; ev_timer 0;
   ev_server TEXT_DONE;
   ev_timer 0; ev_timer 0; ev_timer 0; ev_timer 0; ev_timer 0].

(** The same reply, left alone. *)
Definition quietTurn : list Event :=
  [ev_server (TEXT_DELTA (js "Hel"));
   ev_timer 0;
   ev_server (TEXT_DELTA (js "lo"));
   ev_timer 0; ev_timer 0;
   ev_server TEXT_DONE;
   ev_timer 1; ev_timer 0; ev_timer 0; ev_timer 0; ev_timer 0].

(** Whether [text_done] has come, by the phase. *)
Definition doneOf (ph : TurnPhase) : bool :=
  negb (bool_decide (ph = receiving)).

(** How far the typing is from its end when the callbacks fire in the
    order they were armed: two per queued character (one to type it, one
    for [waitForTyping] to look again), and what the callback at the
    head still has to do. *)
Definition drainMeasure (s : State) : nat :=
  2 * length (textQueueRef s)
  + (if isTypingRef s
     then match timers s with
          | waitForTyping :: _ => 3
          | _ => 2
          end
     else 0).

(* ================================================================== *)
(** ** Vocabulary of the further statements *)
(* ================================================================== *)

(** [addItemKeywords.some(kw => content.includes(kw))] (line 371). *)
Definition isAddItemRequest (content : jsstring) : bool :=
  existsb (fun kw => includes content kw) addItemKeywords.

(** Whether [sendMessage] gets past its guard of line 367. *)
Definition passesGuard (s : State) (content : jsstring) : bool :=
  negb (whitespaceOnly content) && wsRef s && isConnected s.

(** The selection holds multi-select options only, each at most once. *)
Definition selectionSound (s : State) : Prop :=
  NoDup (selectedOptions s)
  /\ forall o, In o (selectedOptions s) -> In o multiSelectOptions.

(** Queued characters always have a typing callback armed for them. *)
Definition queueServed (s : State) : Prop :=
  (textQueueRef s <> [] -> isTypingRef s = true)
  /\ (isTypingRef s = true -> In typeNextChar (timers s)).

(** Reads back a string written by [quoteJSONString], after its opening
    quote: the text up to the closing quote, and what follows it. *)
Definition unhex (d : N) : N := (if d <? 58 then d - 48 else d - 87)%N.

Fixpoint readQuoted (l : list N) : option (jsstring * list N) :=
  match l with
  | [] => None
  | c :: t =>
    if (c =? 34)%N then Some ([], t)
    else if (c =? 92)%N then
      match t with
      | e :: t1 =>
        if (e =? 117)%N then
          match t1 with
          | _ :: _ :: h1 :: h2 :: t2 =>
            match readQuoted t2 with
            | Some (s, r) => Some ((unhex h1 * 16 + unhex h2)%N :: s, r)
            | None => None
            end
          | _ => None
          end
        else
          match readQuoted t1 with
          | Some (s, r) =>
            Some ((if (e =? 98) then 8
                   else if (e =? 102) then 12
                   else if (e =? 110) then 10
                   else if (e =? 114) then 13
                   else if (e =? 116) then 9
                   else e)%N :: s, r)
          | None => None
          end
      | [] => None
      end
    else
      match readQuoted t with
      | Some (s, r) => Some (c :: s, r)
      | None => None
      end
  end.

(** The elements of an array between its brackets, as [JSON.stringify]
    writes them. *)
Definition stringifyElements (l : list jsstring) : jsstring :=
  join (js ",") (List.map quoteJSONString l).

(** A handler that leaves one cell of the state as it is. *)
Definition keeps {A : Type} (cell : State -> A) (h : State -> State) : Prop :=
  forall s, cell (h s) = cell s.

(** The events with which the user, or a settling upload, drives the
    component; the others come from the socket, the timers and the
    mounting of the component. *)
Definition isUserEvent (e : Event) : bool :=
  match e with
  | ev_mount | ev_open | ev_close | ev_server _ | ev_timer _ => false
  | _ => true
  end.

(** A connected session in phase 4 (items). *)
Definition itemsPhaseSession : State :=
  run [ev_mount; ev_open; ev_server (METADATA (phaseOnly 4))]
      (initialState None).

(** A frame of type [message] whose text is not blank; the other frames
    carry no text. *)
Definition frameNotBlank (f : WsOut) : bool :=
  match f with
  | out_message c => negb (whitespaceOnly c)
  | _ => true
  end.

(** The token an event brings from the server, if any (lines 180 and
    305). *)
Definition carriedToken (e : Event) : option jsstring :=
  match e with
  | ev_server (SESSION t _) | ev_server (SESSION_RESET t _) => Some t
  | _ => None
  end.

(** The last token brought by the events of [es], [tok] when none is. *)
Definition lastToken (tok : option jsstring) (es : list Event)
  : option jsstring :=
  fold_left (fun t e => match carriedToken e with
                        | Some x => Some x
                        | None => t
                        end) es tok.

(** The ways an upload ends without a recognition result. *)
Definition uploadFailed (r : UploadOutcome) : bool :=
  match r with
  | upload_ok true _ _ _ => false
  | _ => true
  end.

(** The characters of the multi-select options and of the separator
    that joins them (lines 413 and 427). *)
Definition selectionAlphabet : list N :=
  concat multiSelectOptions ++ js "、".

(** The three options that end the multi-selection (line 410). *)
Definition noMoreOptions : list jsstring :=
  [js "没有了"; js "没有其他行李"; js "没有其他行李了"].

(** The role named by an address emission: [uiData.address_type]
    (line 234). *)
Definition emittedRole (ui : UiComponent) : option jsstring :=
  from_option address_type None (ui_data ui).

(** [isAlreadyConfirmed] of lines 237-238, for the event [md] and the
    role [ty]. *)
Definition emissionConfirmed (md : MetadataMsg) (ty : option jsstring)
  : bool :=
  let addrField :=
    jsOr (match md_fields_status md with
          | Some fs => field fs (propKey ty ++ js "_address")
          | None => JUndef
          end) (JObj []) in
  isStr (js "baseline") (prop (js "status") addrField)
  && negb (truthy (prop (js "needs_confirmation") addrField)).

(** [uiType === 'address_confirm' || uiType === 'address_selection']
    (line 233). *)
Definition isAddressUi (ui : UiComponent) : bool :=
  bool_decide (ui_type ui = js "address_confirm")
  || bool_decide (ui_type ui = js "address_selection").

(** The session in which the confirmation card of the address to move
    from has been shown. *)
Definition confirmingSession : State :=
  run (repeat (ev_timer 0) 5) verifyingSession.

(* ================================================================== *)
(** ** [parseMessageContent] (lines 568-649) *)
(* ================================================================== *)

(** The elements it builds for an assistant bubble, each with its React
    key: the index of the line at which it is pushed, or [None] for the
    keys [list-end] and [card-end] of the elements pushed after the
    loop.  A list holds its items with their keys [item-i]. *)
Inductive Element : Type :=
| el_list (key : option nat) (lis : list (nat * jsstring))
| el_card (key : option nat) (title text : jsstring)
| el_text (key : nat) (line : jsstring)
| el_break (key : nat).

(** [content.split('\n')] *)
Fixpoint splitLines (s : jsstring) : list jsstring :=
  match s with
  | [] => [[]]
  | c :: t =>
    if (c =? 10)%N then [] :: splitLines t
    else match splitLines t with
         | l :: ls => (c :: l) :: ls
         | [] => [[c]]
         end
  end.

(** The text before the first "】", and what follows it. *)
Fixpoint untilClose (s : jsstring) : option (jsstring * jsstring) :=
  match s with
  | [] => None
  | c :: t =>
    if (c =? 12305)%N then Some ([], t)
    else match untilClose t with
         | Some (a, b) => Some (c :: a, b)
         | None => None
         end
  end.

(** [line.match(/^【([^】]+)】/)]: the title, and the line without the
    match. *)
Definition cardHead (line : jsstring) : option (jsstring * jsstring) :=
  match line with
  | c :: t =>
    if (c =? 12304)%N then
      match untilClose t with
      | Some (c' :: title, rest) => Some (c' :: title, rest)
      | _ => None
      end
    else None
  | [] => None
  end.

(** [line.match(/^[•\-\*]/)] *)
Definition bulletStart (line : jsstring) : bool :=
  match line with
  | c :: _ => ((c =? 8226) || (c =? 45) || (c =? 42))%N
  | [] => false
  end.

(** [line.replace(/^[•\-\*]\s*/, '')] on a line that starts with a
    bullet. *)
Definition stripBullet (line : jsstring) : jsstring :=
  match line with
  | _ :: t => trimStart t
  | [] => []
  end.

(** The variables of the loop. *)
Record ParseState : Type := mkParse {
  elements : list Element;
  currentList : list (nat * jsstring);
  inCard : bool;
  cardTitle : jsstring;
  cardContent : list jsstring
}.

(** Lines 585-588, 623-626 and 636-638. *)
Definition flushList (key : option nat) (st : ParseState) : ParseState :=
  match currentList st with
  | [] => st
  | _ =>
    mkParse (elements st ++ [el_list key (currentList st)]) []
            (inCard st) (cardTitle st) (cardContent st)
  end.

(** The body of [lines.forEach((line, i) => ...)]. *)
Definition parseLine (i : nat) (line : jsstring) (st : ParseState)
  : ParseState :=
  match cardHead line with
  | Some (title, rest) =>
    let st := flushList (Some i) st in
    let rest := trim rest in
    mkParse (elements st) (currentList st) true title
            (if nonEmpty rest then cardContent st ++ [rest]
             else cardContent st)
  | None =>
    if inCard st && nonEmpty (trim line) && negb (bulletStart line)
    then
      mkParse (elements st) (currentList st) (inCard st)
              (cardTitle st) (cardContent st ++ [line])
    else
      let st :=
        if inCard st && (negb (nonEmpty (trim line)) || bulletStart line)
        then
          mkParse (elements st
                   ++ [el_card (Some i) (cardTitle st)
                         (join [10%N] (cardContent st))])
                  (currentList st) false [] []
        else st in
      if bulletStart line
      then
        mkParse (elements st)
                (currentList st ++ [(i, stripBullet line)])
                (inCard st) (cardTitle st) (cardContent st)
      else
        let st := flushList (Some i) st in
        if nonEmpty (trim line)
        then
          mkParse (elements st ++ [el_text i line]) (currentList st)
                  (inCard st) (cardTitle st) (cardContent st)
        else if bool_decide (elements st <> [])
        then
          mkParse (elements st ++ [el_break i]) (currentList st)
                  (inCard st) (cardTitle st) (cardContent st)
        else st
  end.

Fixpoint parseLines (i : nat) (lines : list jsstring) (st : ParseState)
  : ParseState :=
  match lines with
  | [] => st
  | line :: t => parseLines (S i) t (parseLine i line st)
  end.

(** Lines 635-648. *)
Definition parseEnd (st : ParseState) : list Element :=
  let st := flushList None st in
  if inCard st && bool_decide (cardContent st <> [])
  then elements st
       ++ [el_card None (cardTitle st) (join [10%N] (cardContent st))]
  else elements st.

(** [parseMessageContent(content)]; [None] is [null]. *)
Definition parseMessageContent (content : option jsstring)
  : option (list Element) :=
  match content with
  | None | Some [] => None
  | Some c =>
    Some (parseEnd (parseLines 0 (splitLines c) (mkParse [] [] false [] [])))
  end.

(** The kind of an element and its key. *)
Inductive ElementKind : Type := k_list | k_card | k_text | k_break.

Definition keyOf (e : Element) : ElementKind * option nat :=
  match e with
  | el_list key _ => (k_list, key)
  | el_card key _ _ => (k_card, key)
  | el_text key _ => (k_text, Some key)
  | el_break key => (k_break, Some key)
  end.

(** The lines an element shows as paragraphs or as list items. *)
Definition plainLinesOf (e : Element) : list jsstring :=
  match e with
  | el_list _ lis => List.map snd lis
  | el_text _ line => [line]
  | _ => []
  end.

(** The lines that are shown when no card is involved, as they are
    shown: the bullets without their mark, the others as they are, the
    blank ones not at all. *)
Definition shownLines (lines : list jsstring) : list jsstring :=
  List.map (fun l => if bulletStart l then stripBullet l else l)
    (List.filter (fun l => bulletStart l || nonEmpty (trim l)) lines).

(** What the elements never are: a break at the head, an empty list. *)
Definition tidy (els : list Element) : bool :=
  match els with
  | el_break _ :: _ => false
  | _ => true
  end
  && forallb (fun e => match e with
                       | el_list _ [] => false
                       | _ => true
                       end) els.

(** A reply with a greeting, a list and a closing line. *)
Definition listReply : jsstring :=
  js "您好"
  ++ [10; 10; 8226; 32]%N ++ js "搬出地址"
  ++ [10; 45; 32]%N ++ js "搬入地址"
  ++ [10]%N ++ js "请告诉我".

(** *** The invariant of the loop of [parseMessageContent] *)

(** Where an element stands in the order of the pushes: the line, and
    within a line the card that ends, the list that ends, the paragraph
    or the break. *)
Definition kindOrder (k : ElementKind) : nat :=
  match k with
  | k_card => 0%nat
  | k_list => 1%nat
  | k_text => 2%nat
  | k_break => 3%nat
  end.

Definition pushedBefore (b : nat) (e : Element) : Prop :=
  exists j, snd (keyOf e) = Some j
            /\ (4 * j + kindOrder (fst (keyOf e)) < b)%nat.

Definition listSound (e : Element) : Prop :=
  match e with
  | el_list _ lis => lis <> [] /\ NoDup (List.map fst lis)
  | _ => True
  end.

Definition headSound (els : list Element) : Prop :=
  match els with
  | el_break _ :: _ => False
  | _ => True
  end.

Definition elementsSound (b : nat) (els : list Element) : Prop :=
  NoDup (List.map keyOf els)
  /\ Forall (pushedBefore b) els
  /\ Forall listSound els
  /\ headSound els.

Definition listPending (i : nat) (cur : list (nat * jsstring)) : Prop :=
  Forall (fun p => (fst p < i)%nat) cur /\ NoDup (List.map fst cur).

(** The invariant of the loop, before the line [i]. *)
Definition parseSound (i : nat) (st : ParseState) : Prop :=
  elementsSound (4 * i)%nat (elements st)
  /\ listPending i (currentList st).


(** The lines shown by the elements, and those shown or waiting in the
    list being built at some point of the loop. *)
Definition plainLines (els : list Element) : list jsstring :=
  concat (List.map plainLinesOf els).

Definition shownSoFar (st : ParseState) : list jsstring :=
  plainLines (elements st) ++ List.map snd (currentList st).

Definition notCard (e : Element) : Prop := fst (keyOf e) <> k_card.

(* ================================================================== *)
(** ** The rows of the checklist, by phase (lines 1549-1754) *)
(* ================================================================== *)

(** The [phase] of each row. *)
Definition phaseOf (k : ChecklistKey) : Z :=
  match k with
  | people_count => 1
  | from_address | from_building_type | from_room_type | to_address => 2
  | move_date => 3
  | items_key => 4
  | from_floor_elevator | to_floor_elevator | packing_service
  | special_notes => 5
  end.

Definition apartmentTypes : list jsstring :=
  [js "マンション"; js "アパート"; js "タワーマンション"; js "団地"; js "ビル"].

(** The [isVisible] of the rows [from_room_type] and
    [from_floor_elevator] (lines 1593-1596 and 1669-1672). *)
Definition isApartment (s : State) : bool :=
  match prop (js "building_type") (field (fieldsStatus s) (js "from_address"))
  with
  | JStr bt => nonEmpty bt && arrayIncludes apartmentTypes bt
  | _ => false
  end.

(** [!(field.isVisible && !field.isVisible())] *)
Definition isVisible (s : State) (k : ChecklistKey) : bool :=
  match k with
  | from_room_type | from_floor_elevator => isApartment s
  | _ => true
  end.

(** [phaseGroups[field.phase].fields.push(field)] *)
Fixpoint pushField (k : ChecklistKey) (groups : list (Z * list ChecklistKey))
  : list (Z * list ChecklistKey) :=
  match groups with
  | [] => []
  | (p, fields) :: t =>
    if p =? phaseOf k then (p, fields ++ [k]) :: t
    else (p, fields) :: pushField k t
  end.

(** [phaseGroups] once [allFields.forEach] has run (lines 1737-1749);
    [Object.entries] lists its keys 1 to 5 in this order. *)
Definition phaseGroups (s : State) : list (Z * list ChecklistKey) :=
  fold_left (fun groups k => if isVisible s k then pushField k groups
                             else groups)
            allFields
            [(1, []); (2, []); (3, []); (4, []); (5, [])].

(** The groups that are rendered: [group.fields.length > 0] (line 1754). *)
Definition shownGroups (s : State) : list (Z * list ChecklistKey) :=
  List.filter (fun g => match snd g with [] => false | _ => true end)
              (phaseGroups s).

(* ================================================================== *)
(** ** What the chat area shows below the messages (lines 1426-1488) *)
(* ================================================================== *)

Inductive Panel : Type :=
| panel_item_eval              (* renderItemEvalCard *)
| panel_address_verify         (* renderAddressVerifyCard *)
| panel_confirm_card           (* renderConfirmCard *)
| panel_login_card             (* renderLoginCard *)
| panel_recognition_progress   (* renderRecognitionProgress *)
| panel_address_progress       (* renderAddressVerifyProgress *)
| panel_recognition_result     (* renderRecognitionResult *)
| panel_spinner                (* <Spin /> *)
| panel_quick_options.         (* renderQuickOptions *)

(** [messages[messages.length - 1]?.streaming] *)
Definition lastStreaming (l : list Msg) : bool :=
  match splitLast l with
  | Some (_, last) => streaming last
  | None => false
  end.

(** The condition under which each panel is rendered. *)
Definition shows (s : State) (p : Panel) : bool :=
  let uiIs t := bool_decide (ui_type (uiComponent s) = t) in
  let noPending := bool_decide (pendingItems s = []) in
  match p with
  | panel_item_eval =>
    uiIs (js "item_evaluation") && negb (isRecognizing s) && noPending
  | panel_address_verify => uiIs (js "address_verify")
  | panel_confirm_card => uiIs (js "confirm_card")
  | panel_login_card => uiIs (js "login_card")
  | panel_recognition_progress => isRecognizing s
  | panel_address_progress => isVerifyingAddress s
  | panel_recognition_result => negb noPending && negb (isRecognizing s)
  | panel_spinner => isLoading s && negb (lastStreaming (messages s))
  | panel_quick_options =>
    noPending && negb (isRecognizing s) && negb (isVerifyingAddress s)
    && negb (bool_decide (quickOptions s = []))
  end.

(** The [disabled] of the send button (line 1506). *)
Definition sendDisabled (s : State) : bool :=
  negb (isConnected s) || negb (nonEmpty (trim (inputValue s))).

(* ================================================================== *)
(** ** Further sessions *)
(* ================================================================== *)

(** Two items pushed by an [items_recognized] event: they are stored as
    sent (line 312), here without an [id]. *)
Definition chair (count : Z) : Item :=
  mkItem None (js "Chair") None (js "furniture") (Some count) None None.

Definition unnumberedPending : State :=
  run [ev_mount; ev_open;
       ev_server (ITEMS_RECOGNIZED (Some [sofa 2; chair 4]))]
      (initialState None).




(** Two quick options. *)
Definition twoOptions : list jsstring := [js "单身"; js "家庭"].

(* ================================================================== *)
(** * Properties *)
(* ================================================================== *)

(** Unfolds the combinators of a handler body. *)
Ltac handler_unfold :=
  unfold andThen, skip, setMessagesWith, setPendingItemsWith,
    setConfirmedItemsWith, setSelectedOptionsWith, wsSend, wsSendChecked,
    notify, arm in *.

(* ------------------------------------------------------------------ *)
(** ** Strings *)
(* ------------------------------------------------------------------ *)

Lemma trimStart_whitespaceOnly (c : jsstring) :
  whitespaceOnly c = true -> trimStart c = [].
Proof.
  induction c as [|ch c IH]; simpl; [reflexivity|].
  intros H. apply andb_true_iff in H as [Hch Hc].
  rewrite Hch. auto.
Qed.

Lemma trim_whitespaceOnly (c : jsstring) :
  whitespaceOnly c = true -> trim c = [].
Proof.
  intros H. unfold trim. rewrite (trimStart_whitespaceOnly c H).
  reflexivity.
Qed.

(* ------------------------------------------------------------------ *)
(** ** [sendMessage] *)
(* ------------------------------------------------------------------ *)

(** C9.  A call of [sendMessage] whose argument is [null]/[undefined],
    empty or made of white space only, or which is made while
    [wsRef.current] holds no socket or while the connection is not open,
    returns at line 367: the state it leaves is the state it found, so no
    frame is handed to the socket and the message list, the input value,
    the quick options and the loading flag are what they were. *)
Theorem sendMessage_guard_noop (s : State) (content : option jsstring) :
  (content = None
   \/ (exists c, content = Some c /\ whitespaceOnly c = true)
   \/ wsRef s = false
   \/ isConnected s = false) ->
  sendMessage content s = s
  /\ sent (sendMessage content s) = sent s
  /\ messages (sendMessage content s) = messages s
  /\ inputValue (sendMessage content s) = inputValue s
  /\ quickOptions (sendMessage content s) = quickOptions s
  /\ isLoading (sendMessage content s) = isLoading s.
Proof.
  intros H.
  assert (E : sendMessage content s = s).
  { unfold sendMessage. destruct content as [c|]; [|reflexivity].
    destruct H as [H|[(c' & Hc & Hws)|[H|H]]].
    - discriminate.
    - injection Hc as <-. rewrite (trim_whitespaceOnly c Hws). reflexivity.
    - rewrite H. destruct (nonEmpty (trim c)); reflexivity.
    - rewrite H. destruct (nonEmpty (trim c)), (wsRef s); reflexivity. }
  rewrite E. repeat split; reflexivity.
Qed.

(** A connected session and a message of two blanks. *)
Lemma sendMessage_guard_noop_witness :
  let s := setIsConnected true (connect (initialState None)) in
  sendMessage (Some (js "  ")) s = s.
Proof.
  intros s.
  apply (sendMessage_guard_noop s (Some (js "  "))).
  right; left. exists (js "  "). split; [reflexivity | vm_compute; reflexivity].
Defined.

(* ------------------------------------------------------------------ *)
(** ** [handleFileSelected] *)
(* ------------------------------------------------------------------ *)

(** C10.  A file whose MIME type is not one of the four image types, or
    whose size exceeds 10 * 1024 * 1024 bytes, stops [handleFileSelected]
    at its validation: the handler empties the file input, shows one error
    notice and returns.  No upload is issued (and none is awaited, so the
    rest of the handler never runs for this file), no frame is handed to
    the socket, and the pending items are what they were. *)
Theorem handleFileSelected_rejects (s : State) (file : File) :
  (arrayIncludes allowedTypes (file_type file) = false
   \/ file_size file > 10 * 1024 * 1024) ->
  let s' := handleFileSelected (Some file) s in
  fetched s' = fetched s
  /\ awaited s' = awaited s
  /\ sent s' = sent s
  /\ pendingItems s' = pendingItems s
  /\ exists text,
       s' = notify (notice_error text) (set_fileInputValue [] s).
Proof.
  intros H s'. subst s'. unfold handleFileSelected. handler_unfold.
  destruct (arrayIncludes allowedTypes (file_type file)) eqn:Ety; simpl.
  - destruct H as [H|H]; [discriminate|].
    assert (Esz : (file_size file >? maxFileSize) = true).
    { unfold maxFileSize. apply Z.gtb_lt. lia. }
    rewrite Esz. simpl. repeat split; eauto.
  - repeat split; eauto.
Qed.

(** A PDF of one kilobyte, picked at the first render. *)
Lemma handleFileSelected_rejects_witness :
  let s := initialState None in
  let s' := handleFileSelected (Some (mkFile (js "application/pdf") 1024)) s in
  fetched s' = fetched s
  /\ awaited s' = awaited s
  /\ sent s' = sent s
  /\ pendingItems s' = pendingItems s
  /\ exists text,
       s' = notify (notice_error text) (set_fileInputValue [] s).
Proof.
  intros s.
  apply (handleFileSelected_rejects s (mkFile (js "application/pdf") 1024)).
  left. vm_compute. reflexivity.
Defined.

(* ------------------------------------------------------------------ *)
(** ** [deleteItem] *)
(* ------------------------------------------------------------------ *)

Lemma filter_unique_id (id : option Z) (l1 l2 : list Item) (it : Item) :
  item_id it = id ->
  (forall j, In j (l1 ++ l2) -> item_id j <> id) ->
  List.filter (fun i => negb (bool_decide (item_id i = id)))
              (l1 ++ it :: l2) = l1 ++ l2.
Proof.
  intros Hit Hothers.
  rewrite List.filter_app. simpl.
  rewrite (bool_decide_eq_true_2 _ Hit). simpl.
  rewrite <- List.filter_app.
  apply forallb_filter_id. apply forallb_forall.
  intros j Hj. apply negb_true_iff, bool_decide_eq_false_2. auto.
Qed.

Lemma filter_split_length {A : Type} (f : A -> bool) (l : list A) :
  (length (List.filter (fun x => negb (f x)) l)
   + length (List.filter f l) = length l)%nat.
Proof.
  induction l as [|x l IH]; simpl; [reflexivity|].
  destruct (f x); simpl; lia.
Qed.

(** C8, as stated, fails on the code: [deleteItem] removes every pending
    item that carries the id, not one entry.  The two items of an
    [items_recognized] event that gives them no id are both removed by
    the delete button of either. *)
Lemma deleteItem_removes_all_with_the_id :
  pendingItems unnumberedPending = [sofa 2; chair 4]
  /\ item_id (sofa 2) = None
  /\ pendingItems (deleteItem (item_id (sofa 2)) unnumberedPending) = []
  /\ length (pendingItems unnumberedPending) = 2%nat.
Proof. repeat split. Qed.

(** C8, amended.  [deleteItem id] rewrites the pending list only: the
    confirmed list, and every other part of the state, is untouched.
    What is left of the pending list is the list of the items whose id
    differs from [id], in their order and as often as they occurred;
    what is removed is every item that carries [id], however many there
    are.  When the id designates one entry of the list (no other pending
    item carries it), exactly that entry is removed. *)
Theorem deleteItem_frame (s : State) (id : option Z) :
  let s' := deleteItem id s in
  confirmedItems s' = confirmedItems s
  /\ s' = setPendingItems (pendingItems s') s
  /\ pendingItems s'
     = List.filter (fun i => negb (bool_decide (item_id i = id)))
                   (pendingItems s)
  /\ (forall i, In i (pendingItems s')
                <-> In i (pendingItems s) /\ item_id i <> id)
  /\ (length (pendingItems s')
      + length (List.filter (fun i => bool_decide (item_id i = id))
                            (pendingItems s))
      = length (pendingItems s))%nat
  /\ (forall l1 it l2,
         pendingItems s = l1 ++ it :: l2 ->
         item_id it = id ->
         (forall j, In j (l1 ++ l2) -> item_id j <> id) ->
         pendingItems s' = l1 ++ l2).
Proof.
  intros s'. subst s'. unfold deleteItem. handler_unfold. simpl.
  split; [reflexivity|]. split; [reflexivity|]. split; [reflexivity|].
  split; [|split].
  - intros i. rewrite List.filter_In, negb_true_iff, bool_decide_eq_false.
    reflexivity.
  - apply (filter_split_length (fun i => bool_decide (item_id i = id))).
  - intros l1 it l2 -> Hit Hothers. apply filter_unique_id; assumption.
Qed.

(** The second of three uploaded items is deleted. *)
Lemma deleteItem_frame_witness :
  pendingItems (deleteItem (Some 2) threePending)
  = numberItems 0
      [mkRawItem (js "bed") None (js "furniture") (Some 1) None None]
    ++ numberItems 2
      [mkRawItem (js "box") None (js "boxes") (Some 12) None None].
Proof.
  apply (proj2 (proj2 (proj2 (proj2 (proj2
           (deleteItem_frame threePending (Some 2))))))
           (numberItems 0
              [mkRawItem (js "bed") None (js "furniture") (Some 1) None None])
           (mkItem (Some 2) (js "desk") None (js "furniture") (Some 1) None
                   (Some []))
           (numberItems 2
              [mkRawItem (js "box") None (js "boxes") (Some 12) None None])).
  - reflexivity.
  - reflexivity.
  - intros j [<-|[<-|[]]]; discriminate.
Defined.

(* ------------------------------------------------------------------ *)
(** ** [confirmItems] *)
(* ------------------------------------------------------------------ *)

(** C2, as stated, fails on the code: confirming [("Sofa","furniture",2)]
    on top of [("Sofa","furniture",1)] leaves two entries, with counts 1
    and 2; the list is not the single entry of count 3. *)
Lemma confirmItems_sofa_not_merged :
  confirmedItems (confirmItems sofaSession) = [sofa 1; sofa 2]
  /\ length (confirmedItems (confirmItems sofaSession)) = 2%nat
  /\ confirmedItems (confirmItems sofaSession) <> [sofa 3].
Proof.
  split; [reflexivity|]. split; [reflexivity|]. discriminate.
Qed.

(** C2, amended.  On an open connection [confirmItems] appends the
    pending items to the confirmed list, in order and entry by entry:
    nothing is keyed on (name, category), and no count, note or localized
    name is combined, so the confirmed list grows by as many entries as
    were pending.  The pending list is emptied, and confirming once more
    with nothing pending leaves the confirmed list as it is, i.e.
    merge(merge(A,B), []) = merge(A,B). *)
Theorem confirmItems_appends (s : State) :
  isConnected s = true ->
  let s1 := confirmItems s in
  let s2 := confirmItems s1 in
  confirmedItems s1 = confirmedItems s ++ pendingItems s
  /\ pendingItems s1 = []
  /\ length (confirmedItems s1)
     = (length (confirmedItems s) + length (pendingItems s))%nat
  /\ isConnected s1 = true
  /\ confirmedItems s2 = confirmedItems s1.
Proof.
  intros Hco s1 s2.
  assert (E1 : confirmedItems s1 = confirmedItems s ++ pendingItems s).
  { subst s1. unfold confirmItems. handler_unfold.
    destruct (wsRef s); reflexivity. }
  assert (P1 : pendingItems s1 = []).
  { subst s1. unfold confirmItems. handler_unfold.
    destruct (wsRef s); reflexivity. }
  assert (C1 : isConnected s1 = true).
  { subst s1. unfold confirmItems. handler_unfold.
    destruct (wsRef s); exact Hco. }
  assert (E2 : confirmedItems s2 = confirmedItems s1 ++ pendingItems s1).
  { subst s2. unfold confirmItems. handler_unfold.
    destruct (wsRef s1); reflexivity. }
  split; [exact E1|]. split; [exact P1|].
  split; [rewrite E1; apply length_app|].
  split; [exact C1|].
  rewrite E2, P1. apply app_nil_r.
Qed.

(** The session of the spec's example: one sofa confirmed, two more
    pending, on an open connection. *)
Lemma confirmItems_appends_witness :
  let s1 := confirmItems sofaSession in
  confirmedItems s1 = confirmedItems sofaSession ++ pendingItems sofaSession
  /\ pendingItems s1 = []
  /\ length (confirmedItems s1) = 2%nat
  /\ isConnected s1 = true
  /\ confirmedItems (confirmItems s1) = confirmedItems s1.
Proof.
  intros s1.
  apply (confirmItems_appends sofaSession). reflexivity.
Defined.



(* ------------------------------------------------------------------ *)
(** ** Quick options *)
(* ------------------------------------------------------------------ *)

(** The card handling of a [metadata] event leaves the quick options and
    the record of the last ones alone. *)
Lemma handleUiComponent_options (seen : bool) (md : MetadataMsg) (s : State) :
  quickOptions (handleUiComponent seen md s) = quickOptions s
  /\ lastOptionsRef (handleUiComponent seen md s) = lastOptionsRef s.
Proof.
  unfold handleUiComponent. handler_unfold.
  repeat case_match; simpl; split; reflexivity.
Qed.

(** What a [metadata] event does to the two cells: lines 221-229. *)
Lemma metadata_options (seen : bool) (md : MetadataMsg) (s : State) :
  let s' := handleServerMessage seen (METADATA md) s in
  quickOptions s' = quickOptions (handleQuickOptions (md_quick_options md) s)
  /\ lastOptionsRef s'
     = lastOptionsRef (handleQuickOptions (md_quick_options md) s).
Proof.
  intros s'. subst s'. unfold handleServerMessage, andThen.
  assert (Hc : forall t,
             quickOptions (match md_completion md with
                           | Some c => setCompletion c
                           | None => skip
                           end t) = quickOptions t
             /\ lastOptionsRef (match md_completion md with
                                | Some c => setCompletion c
                                | None => skip
                                end t) = lastOptionsRef t).
  { intros t. destruct (md_completion md); split; reflexivity. }
  match goal with
  | |- context [handleUiComponent seen md ?t] =>
    destruct (Hc (handleUiComponent seen md t)) as [-> ->];
    destruct (handleUiComponent_options seen md t) as [-> ->]
  end.
  unfold handleQuickOptions, skip.
  destruct (md_current_phase md), (md_fields_status md),
    (md_quick_options md); simpl; repeat case_match; split; reflexivity.
Qed.

Lemma JSON_stringify_nil (o : list jsstring) :
  JSON_stringify o = JSON_stringify [] -> o = [].
Proof.
  destruct o as [|x o]; [reflexivity|].
  unfold JSON_stringify, quoteJSONString.
  destruct o as [|y o]; cbn; intros H; discriminate H.
Qed.

(** C3, as stated, fails on the code: the set the client compares with
    is not the set emitted last.  The options "单身", "家庭" are emitted,
    the user sends a message, and the same set is emitted again: both
    the displayed options and the record change a second time, from
    empty to the set. *)
Lemma same_options_taken_after_message :
  let s1 := run [ev_mount; ev_open;
                 ev_server (METADATA (optionsOnly twoOptions))]
                (initialState None) in
  let s2 := step (ev_say (Some (js "单身"))) s1 in
  let s3 := step (ev_server (METADATA (optionsOnly twoOptions))) s2 in
  quickOptions s1 = twoOptions /\ lastOptionsRef s1 = twoOptions
  /\ quickOptions s2 = [] /\ lastOptionsRef s2 = []
  /\ quickOptions s3 = twoOptions /\ lastOptionsRef s3 = twoOptions.
Proof. repeat split. Qed.

(** C3, amended.  The set the client compares with is the record
    [lastOptionsRef.current], not the set emitted last.  A [metadata]
    event whose [quick_options] equal the record changes neither the
    displayed options nor the record (first part); a change of either
    cell means the new set differs from the record (second part); and
    whatever the first event did, a second event carrying the same
    options right after it changes nothing more (third part).  The
    record starts afresh with each message that [sendMessage] hands to
    the socket: both cells are emptied then (fourth part), so that the
    same set, when it is not empty, is taken and displayed again by the
    next event that carries it (fifth part). *)
Theorem quick_options_dedup (seen : bool) (s : State) (md md' : MetadataMsg)
    (o : list jsstring) :
  let s1 := handleServerMessage seen (METADATA md) s in
  let s2 := handleServerMessage seen (METADATA md') s1 in
  (md_quick_options md = Some o /\ o = lastOptionsRef s ->
     quickOptions s1 = quickOptions s
     /\ lastOptionsRef s1 = lastOptionsRef s)
  /\ (md_quick_options md = Some o ->
      quickOptions s1 <> quickOptions s
      \/ lastOptionsRef s1 <> lastOptionsRef s ->
      o <> lastOptionsRef s)
  /\ (md_quick_options md = Some o /\ md_quick_options md' = Some o ->
      quickOptions s2 = quickOptions s1
      /\ lastOptionsRef s2 = lastOptionsRef s1)
  /\ (forall c,
         sent (sendMessage c s) <> sent s ->
         quickOptions (sendMessage c s) = []
         /\ lastOptionsRef (sendMessage c s) = [])
  /\ (forall c,
         md_quick_options md = Some o -> o <> [] ->
         sent (sendMessage c s) <> sent s ->
         let s3 := handleServerMessage seen (METADATA md) (sendMessage c s) in
         quickOptions s3 = o /\ lastOptionsRef s3 = o).
Proof.
  intros s1 s2.
  destruct (metadata_options seen md s) as [Q1 L1].
  destruct (metadata_options seen md' s1) as [Q2 L2].
  fold s1 in Q1, L1. fold s2 in Q2, L2.
  assert (Same : forall t, o = lastOptionsRef t ->
            handleQuickOptions (Some o) t = t).
  { intros t ->. unfold handleQuickOptions.
    rewrite bool_decide_eq_true_2; reflexivity. }
  assert (Sent : forall c,
            sent (sendMessage c s) <> sent s ->
            quickOptions (sendMessage c s) = []
            /\ lastOptionsRef (sendMessage c s) = []).
  { intros c. unfold sendMessage. handler_unfold.
    repeat case_match; simpl; intros Hsent;
      try (exfalso; apply Hsent; reflexivity);
      split; reflexivity. }
  split; [|split; [|split; [|split]]].
  - intros [Hmd Ho]. rewrite Q1, L1, Hmd, (Same s Ho). split; reflexivity.
  - intros Hmd Hch Ho. rewrite Q1, L1, Hmd, (Same s Ho) in Hch.
    destruct Hch as [Hch|Hch]; apply Hch; reflexivity.
  - intros [Hmd Hmd'].
    assert (Hrec : JSON_stringify o = JSON_stringify (lastOptionsRef s1)).
    { rewrite L1, Hmd. unfold handleQuickOptions.
      destruct (bool_decide (JSON_stringify o
                             = JSON_stringify (lastOptionsRef s))) eqn:E.
      - apply bool_decide_eq_true in E. exact E.
      - reflexivity. }
    rewrite Q2, L2, Hmd'. unfold handleQuickOptions.
    rewrite (bool_decide_eq_true_2 _ Hrec). split; reflexivity.
  - exact Sent.
  - intros c Hmd Hne Hsent s3.
    destruct (Sent c Hsent) as [_ Hl].
    destruct (metadata_options seen md (sendMessage c s)) as [Q3 L3].
    fold s3 in Q3, L3. rewrite Q3, L3, Hmd. unfold handleQuickOptions.
    rewrite Hl, bool_decide_eq_false_2; [split; reflexivity|].
    intros H. apply Hne, JSON_stringify_nil, H.
Qed.

(** The same two options sent twice to a fresh session. *)
Lemma quick_options_dedup_witness :
  let o := [js "单身"; js "家庭"] in
  let s1 := handleServerMessage false (METADATA (optionsOnly o))
              (initialState None) in
  let s2 := handleServerMessage false (METADATA (optionsOnly o)) s1 in
  quickOptions s2 = quickOptions s1 /\ lastOptionsRef s2 = lastOptionsRef s1.
Proof.
  intros o s1 s2.
  apply (proj1 (proj2 (proj2 (quick_options_dedup false (initialState None)
                                (optionsOnly o) (optionsOnly o) o)))).
  split; reflexivity.
Defined.


(* ------------------------------------------------------------------ *)
(** ** The phase *)
(* ------------------------------------------------------------------ *)

Lemma run_snoc (es : list Event) (e : Event) (s : State) :
  run (es ++ [e]) s = step e (run es s).
Proof. unfold run. rewrite fold_left_app. reflexivity. Qed.

Lemma run_app (es1 es2 : list Event) (s : State) :
  run (es1 ++ es2) s = run es2 (run es1 s).
Proof. unfold run. apply fold_left_app. Qed.

Lemma run_cons (e : Event) (es : list Event) (s : State) :
  run (e :: es) s = run es (step e s).
Proof. reflexivity. Qed.

Lemma handleUiComponent_phase (seen : bool) (md : MetadataMsg) (s : State) :
  currentPhase (handleUiComponent seen md s) = currentPhase s.
Proof.
  unfold handleUiComponent. handler_unfold.
  repeat case_match; reflexivity.
Qed.

Lemma sendMessage_phase (c : option jsstring) (s : State) :
  currentPhase (sendMessage c s) = currentPhase s.
Proof.
  unfold sendMessage. handler_unfold. repeat case_match; reflexivity.
Qed.

Lemma handleServerMessage_phase (seen : bool) (data : ServerMsg) (s : State) :
  currentPhase (handleServerMessage seen data s)
  = match data with
    | SESSION _ (Some p) => p
    | METADATA md => default (currentPhase s) (md_current_phase md)
    | SESSION_RESET _ _ => 0
    | _ => currentPhase s
    end.
Proof.
  destruct data; unfold handleServerMessage;
    try (handler_unfold; unfold processTextQueue, typeNextCharBody,
           waitForTypingBody; handler_unfold;
         repeat case_match; reflexivity).
  unfold andThen.
  destruct (md_completion md); [unfold setCompletion; cbn [currentPhase]|unfold skip];
    rewrite handleUiComponent_phase;
    unfold handleQuickOptions, skip;
    destruct (md_current_phase md), (md_fields_status md),
      (md_quick_options md); simpl; repeat case_match; reflexivity.
Qed.

(** The phase after any event of the component: the value brought by a
    [session] or [metadata] event, 0 after a [session_reset], and the
    phase held before in every other case. *)
Lemma step_phase (e : Event) (s : State) :
  currentPhase (step e s)
  = if isSessionReset e then 0
    else default (currentPhase s) (carriedPhase e).
Proof.
  destruct e; unfold step;
    try (rewrite handleServerMessage_phase;
         match goal with
         | |- context [isSessionReset (ev_server ?d)] =>
           destruct d as [ ? [?|] | | | | | | | | | | | |]
         end; reflexivity);
    try rewrite sendMessage_phase;
    try reflexivity;
    try (unfold fire, runTask, handleQuickOption, confirmSelectedOptions,
           resetSession, handleFileSelected, uploadSettled, confirmItems,
           clickCandidate, clickConfirm, handleAddressSelected,
           handleAddressConfirmed, handleSubmitContact, typeNextCharBody,
           waitForTypingBody, connect;
         handler_unfold; simpl;
         repeat case_match; simpl;
         rewrite ?sendMessage_phase; simpl; rewrite ?sendMessage_phase;
         reflexivity).
Qed.

Lemma noReset_phase (e : Event) (s : State) :
  isSessionReset e = false ->
  currentPhase (step e s) = default (currentPhase s) (carriedPhase e).
Proof. intros H. rewrite step_phase, H. reflexivity. Qed.

Lemma phasesAscend_le (es : list Event) (s : State) :
  forallb (fun e => negb (isSessionReset e)) es = true ->
  phasesAscend (currentPhase s) es ->
  currentPhase s <= currentPhase (run es s).
Proof.
  revert s. induction es as [|e es IH]; intros s Hnr Hasc.
  - simpl. lia.
  - simpl in Hnr. apply andb_true_iff in Hnr as [He Hnr].
    apply negb_true_iff in He.
    rewrite run_cons. simpl in Hasc.
    specialize (IH (step e s) Hnr).
    rewrite (noReset_phase e s He) in IH.
    destruct (carriedPhase e) as [q|]; simpl in IH.
    + destruct Hasc as [Hpq Hasc]. specialize (IH Hasc). lia.
    + exact (IH Hasc).
Qed.

Lemma phasesAscend_app (es1 es2 : list Event) (s : State) :
  forallb (fun e => negb (isSessionReset e)) es1 = true ->
  phasesAscend (currentPhase s) (es1 ++ es2) ->
  phasesAscend (currentPhase (run es1 s)) es2.
Proof.
  revert s. induction es1 as [|e es1 IH]; intros s Hnr Hasc.
  - exact Hasc.
  - simpl in Hnr. apply andb_true_iff in Hnr as [He Hnr].
    apply negb_true_iff in He.
    rewrite run_cons. apply (IH (step e s) Hnr).
    rewrite (noReset_phase e s He). simpl in Hasc.
    destruct (carriedPhase e) as [q|]; simpl; tauto.
Qed.

(** C4, as stated, fails on the code: a session in phase 3 receives a
    [metadata] event for phase 1, which is no reset, and is in phase 1
    afterwards. *)
Lemma phase_goes_down_on_metadata :
  let s3 := step (ev_server (METADATA (phaseOnly 3))) (initialState None) in
  let s1 := step (ev_server (METADATA (phaseOnly 1))) s3 in
  currentPhase s3 = 3
  /\ currentPhase s1 = 1
  /\ (currentPhase s1 <? currentPhase s3) = true
  /\ isSessionReset (ev_server (METADATA (phaseOnly 1))) = false.
Proof.
  split; [reflexivity|]. split; [reflexivity|]. split; reflexivity.
Qed.

(** C4, amended.  The client holds no rule on the phase: after every
    event its phase is the value a [session] or [metadata] event brought,
    0 after a [session_reset], and otherwise the phase it held (first
    part).  Hence, along any sequence of events without a reset in which
    the phases brought by the server never go down, the phase of the
    client never goes down either: the phase after a prefix is at most
    the phase after the whole sequence (second part). *)
Theorem phase_follows_server :
  (forall e s,
      currentPhase (step e s)
      = if isSessionReset e then 0
        else default (currentPhase s) (carriedPhase e))
  /\ (forall es s,
         forallb (fun e => negb (isSessionReset e)) es = true ->
         phasesAscend (currentPhase s) es ->
         forall es1 es2,
           es = es1 ++ es2 ->
           currentPhase (run es1 s) <= currentPhase (run es s)).
Proof.
  split; [exact step_phase|].
  intros es s Hnr Hasc es1 es2 ->.
  rewrite forallb_app in Hnr. apply andb_true_iff in Hnr as [Hnr1 Hnr2].
  rewrite run_app.
  apply phasesAscend_le; [exact Hnr2|].
  apply phasesAscend_app; assumption.
Qed.

(** Phases 1 then 3 from the server, a message of the user in between. *)
Lemma phase_follows_server_witness :
  let es1 := [ev_server (METADATA (phaseOnly 1)); ev_say (Some (js "2人"))] in
  let es2 := [ev_server (METADATA (phaseOnly 3))] in
  currentPhase (run es1 (initialState None))
  <= currentPhase (run (es1 ++ es2) (initialState None)).
Proof.
  intros es1 es2.
  refine (proj2 phase_follows_server (es1 ++ es2) (initialState None)
            eq_refl _ es1 es2 eq_refl).
  simpl. lia.
Defined.

(* ------------------------------------------------------------------ *)
(** ** Reset *)
(* ------------------------------------------------------------------ *)

Lemma getStatus_empty (s : State) (k : ChecklistKey) :
  fieldsStatus s = ∅ -> getStatus s k = not_collected.
Proof.
  intros H. unfold getStatus, field. rewrite H.
  rewrite !lookup_empty. destruct k; reflexivity.
Qed.

(** What [session_reset] clears and what it leaves: the message list, the
    phase, the field status and the two item lists are cleared; the
    completion is the one held before. *)
Lemma session_reset_state (seen : bool) (tok : jsstring)
    (fs : option FieldsStatus) (s : State) :
  let s' := handleServerMessage seen (SESSION_RESET tok fs) s in
  messages s' = []
  /\ currentPhase s' = 0
  /\ fieldsStatus s' = ∅
  /\ (forall k, getStatus s' k = not_collected)
  /\ pendingItems s' = []
  /\ confirmedItems s' = []
  /\ completion s' = completion s.
Proof.
  intros s'.
  split; [reflexivity|]. split; [reflexivity|]. split; [reflexivity|].
  split; [intros k; apply getStatus_empty; reflexivity|].
  split; [reflexivity|]. split; reflexivity.
Qed.

(** C1, on the code.  [resetState] clears every cell fed by the server
    but [completion]: [setCompletion] is missing from it.  When the
    half-way session (completion rate 1/2) is reset, every row of the
    checklist is back to [not_collected], the phase is 0 and both item
    lists are empty, but the completion rate is still 1/2 and the progress
    bar still shows 50. *)
Theorem reset_keeps_completion_rate :
  let s' := step (ev_server (SESSION_RESET (js "t2") (Some ∅)))
                 halfWaySession in
  fieldsStatus s' = ∅
  /\ (forall k, getStatus s' k = not_collected)
  /\ pendingItems s' = []
  /\ confirmedItems s' = []
  /\ currentPhase s' = 0
  /\ completion_rate (completion halfWaySession) = Some (1 # 2)%Q
  /\ completion_rate (completion s') = Some (1 # 2)%Q
  /\ displayedPercent s' = 50.
Proof.
  intros s'.
  destruct (session_reset_state isVerifyingAddress_installed (js "t2")
              (Some ∅) halfWaySession) as (_ & Hp & Hf & Hg & Hpi & Hci & Hc).
  fold (step (ev_server (SESSION_RESET (js "t2") (Some ∅))) halfWaySession)
    in Hp, Hf, Hg, Hpi, Hci, Hc.
  fold s' in Hp, Hf, Hg, Hpi, Hci, Hc.
  split; [exact Hf|]. split; [exact Hg|]. split; [exact Hpi|].
  split; [exact Hci|]. split; [exact Hp|].
  assert (Hhalf : completion_rate (completion halfWaySession)
                  = Some (1 # 2)%Q) by (vm_compute; reflexivity).
  split; [exact Hhalf|].
  split; [rewrite Hc; exact Hhalf|].
  unfold displayedPercent. rewrite Hc, Hhalf. reflexivity.
Qed.

(* ------------------------------------------------------------------ *)
(** ** Address cards: selection *)
(* ------------------------------------------------------------------ *)

Lemma lookup_map {A B : Type} (f : A -> B) (l : list A) (i : nat) :
  List.map f l !! i = option_map f (l !! i).
Proof.
  revert i. induction l as [|x l IH]; intros [|i]; simpl; auto.
Qed.





(* ------------------------------------------------------------------ *)
(** ** Address cards: one per role *)
(* ------------------------------------------------------------------ *)


Lemma splitLast_snoc {A : Type} (l : list A) (z : A) :
  splitLast (l ++ [z]) = Some (l, z).
Proof.
  induction l as [|x l IH]; simpl; [reflexivity|]. rewrite IH. reflexivity.
Qed.

Lemma isCardFor_plain (role_ : option jsstring) (m : Msg) :
  type m = plain -> isCardFor role_ m = false.
Proof.
  intros H. unfold isCardFor, isAddressCard. rewrite H. reflexivity.
Qed.



Lemma cardsOf_map (role_ : option jsstring) (f : Msg -> Msg) (l : list Msg) :
  (forall m, isCardFor role_ (f m) = isCardFor role_ m) ->
  length (cardsOf role_ (List.map f l)) = length (cardsOf role_ l).
Proof.
  intros Hf. unfold cardsOf. induction l as [|m l IH]; simpl; [reflexivity|].
  rewrite Hf. destruct (isCardFor role_ m); simpl; rewrite IH; reflexivity.
Qed.

Lemma cardsOf_plain_map {A : Type} (role_ : option jsstring)
    (f : A -> Msg) (l : list A) :
  (forall a, type (f a) = plain) ->
  cardsOf role_ (List.map f l) = [].
Proof.
  intros Hf. unfold cardsOf. induction l as [|a l IH]; simpl; [reflexivity|].
  rewrite (isCardFor_plain role_ (f a) (Hf a)). exact IH.
Qed.



Lemma cardsOf_confirmAddressCards (role_ ty : option jsstring)
    (l : list Msg) :
  length (cardsOf role_ (confirmAddressCards ty l))
  = length (cardsOf role_ l).
Proof.
  apply cardsOf_map. intros m.
  destruct (isAddressCard m && bool_decide (addressType m = ty));
    reflexivity.
Qed.































(** The part of a [metadata] event handled before the cards (lines
    219-229) touches neither the messages nor what the cards rest on. *)
Lemma metadata_prefix_frame (md : MetadataMsg) (s : State) :
  let t := (match md_current_phase md with
            | Some p => setCurrentPhase p
            | None => skip
            end
            >>> match md_fields_status md with
                | Some fs => setFieldsStatus fs
                | None => skip
                end
            >>> handleQuickOptions (md_quick_options md)) s in
  messages t = messages s /\ timers t = timers s /\ notices t = notices s
  /\ sent t = sent s /\ addedAddressCardsRef t = addedAddressCardsRef s
  /\ pendingAddressData t = pendingAddressData s.
Proof.
  unfold handleQuickOptions. handler_unfold.
  destruct (md_current_phase md), (md_fields_status md),
    (md_quick_options md); simpl; repeat case_match; simpl; tauto.
Qed.

(** The card handling, at an event for a role whose mark is set. *)
Lemma handleUiComponent_duplicate (seen : bool) (md : MetadataMsg)
    (ui : UiComponent) (s : State) :
  md_ui_component md = Some ui ->
  alreadyAddedFor s (from_option address_type None (ui_data ui)) = true ->
  let s' := handleUiComponent seen md s in
  timers s' = timers s /\ notices s' = notices s /\ sent s' = sent s
  /\ addedAddressCardsRef s' = addedAddressCardsRef s
  /\ pendingAddressData s' = pendingAddressData s
  /\ length (messages s') = length (messages s)
  /\ (forall role_, length (cardsOf role_ (messages s'))
                    = length (cardsOf role_ (messages s)))
  /\ uiComponent s' = ui.
Proof.
  intros Hui Hadded s'. subst s'. unfold handleUiComponent, andThen.
  rewrite Hui. cbv beta zeta. rewrite Hadded.
  handler_unfold. simpl.
  repeat case_match; simpl;
    repeat (split; [reflexivity|]);
    try (split; [unfold confirmAddressCards; apply length_map|]);
    try (split; [intros role_; apply cardsOf_confirmAddressCards|]);
    try (split; [reflexivity|]);
    try (split; [intros role_; reflexivity|]);
    reflexivity.
Qed.




(** Why the statement starts from a reset that finds no card on its way:
    [resetState] clears the marks but cancels no callback.  A reset in
    the middle of an animation, followed by a new event for the same role,
    ends with two unconfirmed cards of that role. *)
Remark reset_during_animation_two_cards :
  let s := run resetDuringAnimation (initialState None) in
  timers s = []
  /\ length (unconfirmedCardsOf (Some (js "from")) (messages s)) = 2%nat.
Proof.
  vm_compute. split; reflexivity.
Qed.


(* ------------------------------------------------------------------ *)
(** ** The typing of a turn *)
(* ------------------------------------------------------------------ *)

(** C7, on the code.  [typeNextChar] appends to whatever message is the
    last one, if it is a streaming assistant message, and opens a new
    bubble otherwise; nothing keeps other handlers from pushing a message
    while a reply is being typed.  When the user sends "hi" after the
    first two characters of "Hello", the turn ends, every callback having
    run, with three messages: the bubble cut at "He", marked as streaming
    for ever; the user's message; a second bubble with "llo".  No message
    holds "Hello". *)
Theorem interrupted_turn_splits_reply :
  let s := run interruptedTurn (initialState None) in
  timers s = []
  /\ textQueueRef s = []
  /\ List.map (fun m => (role m, content m, streaming m)) (messages s)
     = [(js "assistant", Some (js "He"), true);
        (js "user", Some (js "hi"), false);
        (js "assistant", Some (js "llo"), false)].
Proof.
  vm_compute. repeat split; reflexivity.
Qed.

Lemma splitLast_app_bubble (m0 : list Msg) (typed : jsstring) (c : N)
    (st : bool) :
  splitLast (m0 ++ bubble (c :: typed) st)
  = Some (m0, textMsg (js "assistant") (Some (c :: typed)) st).
Proof. apply splitLast_snoc. Qed.

Lemma bubble_snoc (typed : jsstring) (c : N) (st : bool) :
  bubble (typed ++ [c]) st
  = [textMsg (js "assistant") (Some (typed ++ [c])) st].
Proof. destruct typed; reflexivity. Qed.

(** Typing a character while the bubble of the turn is the last message. *)
Lemma typeChar_bubble (m0 : list Msg) (typed : jsstring) (c : N) :
  lastSettled m0 ->
  typeChar c (m0 ++ bubble typed true) = m0 ++ bubble (typed ++ [c]) true.
Proof.
  intros Hm0. destruct typed as [|t typed].
  - simpl. rewrite app_nil_r. unfold typeChar.
    destruct (splitLast m0) as [[init z]|] eqn:E; [|reflexivity].
    rewrite (Hm0 init z E), andb_false_r. reflexivity.
  - unfold typeChar. rewrite splitLast_app_bubble. reflexivity.
Qed.

(** Clearing the flag while the bubble of the turn is the last message. *)
Lemma finishLast_bubble (m0 : list Msg) (typed : jsstring) :
  lastSettled m0 ->
  finishLast (m0 ++ bubble typed true) = m0 ++ bubble typed false.
Proof.
  intros Hm0. destruct typed as [|t typed].
  - simpl. rewrite app_nil_r. unfold finishLast.
    destruct (splitLast m0) as [[init z]|] eqn:E; [|reflexivity].
    rewrite (Hm0 init z E). reflexivity.
  - unfold finishLast. rewrite splitLast_app_bubble. reflexivity.
Qed.

Section Turn.

Variable m0 : list Msg.
Hypothesis m0_settled : lastSettled m0.

(** A [text_delta] during the reception. *)
Lemma turn_delta (received c : jsstring) (s : State) :
  TurnInv m0 received receiving s ->
  TurnInv m0 (received ++ c) receiving (step (ev_server (TEXT_DELTA c)) s).
Proof.
  intros (typed & Hr & Hm & Ht & Hq & _). simpl in Hm, Ht.
  unfold step, handleServerMessage, processTextQueue. handler_unfold. simpl.
  destruct (isTypingRef s) eqn:Ety; simpl.
  - exists typed. simpl. rewrite Ety.
    split; [rewrite Hr, <- app_assoc; reflexivity|].
    split; [exact Hm|]. split; [exact Ht|]. split; [discriminate|discriminate].
  - rewrite (Hq eq_refl) in *. rewrite app_nil_r in Hr. subst typed. simpl.
    destruct c as [|ch rest]; simpl.
    + exists received. simpl. rewrite Ety, !app_nil_r.
      split; [reflexivity|]. split; [exact Hm|]. split; [exact Ht|].
      split; [reflexivity|discriminate].
    + unfold typeNextCharBody. handler_unfold. simpl.
      exists (received ++ [ch]). simpl.
      split; [rewrite <- app_assoc; reflexivity|].
      split; [rewrite Hm; apply typeChar_bubble; exact m0_settled|].
      split; [rewrite Ht; reflexivity|].
      split; [discriminate|discriminate].
Qed.

(** [text_done]. *)
Lemma turn_done (received : jsstring) (s : State) :
  TurnInv m0 received receiving s ->
  exists ph, ph <> receiving
             /\ TurnInv m0 received ph (step (ev_server TEXT_DONE) s).
Proof.
  intros (typed & Hr & Hm & Ht & Hq & _). simpl in Hm, Ht.
  unfold step, handleServerMessage, waitForTypingBody. handler_unfold.
  destruct (isTypingRef s) eqn:Ety.
  - rewrite orb_true_r. exists draining. split; [discriminate|].
    exists typed. simpl. rewrite Ety.
    split; [exact Hr|]. split; [exact Hm|].
    split; [left; rewrite Ht; reflexivity|].
    split; [discriminate|discriminate].
  - pose proof (Hq eq_refl) as Eq0. rewrite Eq0. simpl.
    exists completed. split; [discriminate|].
    exists typed. simpl. rewrite Ety.
    split; [exact Hr|].
    split; [rewrite Hm; apply finishLast_bubble; exact m0_settled|].
    split; [split; [exact Ht|reflexivity]|].
    split; [intros _; exact Eq0|reflexivity].
Qed.

(** A callback fires during the reception. *)
Lemma turn_timer_receiving (received : jsstring) (i : nat) (s : State) :
  TurnInv m0 received receiving s ->
  TurnInv m0 received receiving (step (ev_timer i) s).
Proof.
  intros Inv. pose proof Inv as (typed & Hr & Hm & Ht & Hq & Hl).
  simpl in Hm, Ht. unfold step, fire.
  destruct (isTypingRef s) eqn:Ety; simpl in Ht; rewrite Ht;
    [|rewrite lookup_nil; exact Inv].
  destruct i as [|i]; [|exact Inv]. simpl.
  unfold andThen, typeNextCharBody. simpl.
  destruct (textQueueRef s) as [|ch rest] eqn:Eq.
  - exists typed. simpl. rewrite Eq.
    split; [exact Hr|]. split; [exact Hm|]. split; [reflexivity|].
    split; [reflexivity|discriminate].
  - handler_unfold. simpl. exists (typed ++ [ch]). simpl. rewrite Ety.
    split; [rewrite Hr, <- app_assoc; reflexivity|].
    split; [rewrite Hm; apply typeChar_bubble; exact m0_settled|].
    split; [reflexivity|]. split; [discriminate|discriminate].
Qed.

(** A callback fires after [text_done]. *)
Lemma turn_timer_draining (received : jsstring) (i : nat) (s : State) :
  TurnInv m0 received draining s ->
  exists ph, ph <> receiving
             /\ TurnInv m0 received ph (step (ev_timer i) s).
Proof.
  intros Inv. pose proof Inv as (typed & Hr & Hm & Ht & Hq & Hl).
  simpl in Hm, Ht. unfold step, fire.
  destruct (isTypingRef s) eqn:Ety; simpl in Ht.
  - (* a character is due *)
    destruct Ht as [Ht|Ht]; rewrite Ht;
      (destruct i as [|[|i]];
       [ | | exists draining; split; [discriminate|exact Inv] ]);
      simpl; unfold andThen, typeNextCharBody, waitForTypingBody; simpl;
      rewrite ?Ety, ?orb_true_r;
      try (exists draining; split; [discriminate|];
           exists typed; handler_unfold; simpl; rewrite Ety;
           split; [exact Hr|]; split; [exact Hm|];
           split; [left; reflexivity|];
           split; [discriminate|discriminate]).
    + destruct (textQueueRef s) as [|ch rest] eqn:Eq.
      * exists draining. split; [discriminate|].
        exists typed. simpl. rewrite Eq.
        split; [exact Hr|]. split; [exact Hm|].
        split; [left; reflexivity|]. split; [reflexivity|discriminate].
      * exists draining. split; [discriminate|].
        handler_unfold. simpl. exists (typed ++ [ch]). simpl. rewrite Ety.
        split; [rewrite Hr, <- app_assoc; reflexivity|].
        split; [rewrite Hm; apply typeChar_bubble; exact m0_settled|].
        split; [right; reflexivity|]. split; [discriminate|discriminate].
    + destruct (textQueueRef s) as [|ch rest] eqn:Eq.
      * exists draining. split; [discriminate|].
        exists typed. simpl. rewrite Eq.
        split; [exact Hr|]. split; [exact Hm|].
        split; [left; reflexivity|]. split; [reflexivity|discriminate].
      * exists draining. split; [discriminate|].
        handler_unfold. simpl. exists (typed ++ [ch]). simpl. rewrite Ety.
        split; [rewrite Hr, <- app_assoc; reflexivity|].
        split; [rewrite Hm; apply typeChar_bubble; exact m0_settled|].
        split; [right; reflexivity|]. split; [discriminate|discriminate].
  - (* the queue is flushed: waitForTyping is the only callback *)
    pose proof (Hq eq_refl) as Eq0.
    assert (Ht' : timers s = [waitForTyping]) by (destruct Ht; assumption).
    rewrite Ht'. destruct i as [|i];
      [|exists draining; split; [discriminate|exact Inv]].
    simpl. unfold andThen, waitForTypingBody. simpl. rewrite Ety, Eq0. simpl.
    exists completed. split; [discriminate|].
    handler_unfold. simpl. exists typed. simpl. rewrite Ety, Eq0.
    split; [rewrite Hr, Eq0; reflexivity|].
    split; [rewrite Hm; apply finishLast_bubble; exact m0_settled|].
    split; [split; reflexivity|]. split; [reflexivity|reflexivity].
Qed.

(** Once the turn is completed no callback is left. *)
Lemma turn_timer_completed (received : jsstring) (i : nat) (s : State) :
  TurnInv m0 received completed s -> step (ev_timer i) s = s.
Proof.
  intros (typed & _ & _ & [Ht _] & _). unfold step, fire.
  rewrite Ht, lookup_nil. reflexivity.
Qed.

(** The invariant along a whole turn. *)
Lemma turn_run (es : list Event) (s : State) (r r' : jsstring)
    (ph : TurnPhase) (d' : bool) :
  TurnInv m0 r ph s ->
  turnOf es r (doneOf ph) = Some (r', d') ->
  exists ph', d' = doneOf ph' /\ TurnInv m0 r' ph' (run es s).
Proof.
  revert s r ph. induction es as [|e es IH]; intros s r ph Inv Hturn.
  - simpl in Hturn. injection Hturn as <- <-. exists ph. split; [reflexivity|].
    exact Inv.
  - rewrite run_cons.
    destruct e as [| | |d|i| | | | | | | | | | | | | | | | | | |];
      try discriminate Hturn.
    + destruct d as [| |c| | | | | | | | | |]; try discriminate Hturn;
        simpl in Hturn.
      * destruct ph; try discriminate Hturn.
        apply (IH _ (r ++ c) receiving); [|exact Hturn].
        apply turn_delta. exact Inv.
      * destruct ph; try discriminate Hturn.
        destruct (turn_done r s Inv) as (ph1 & Hne & Inv1).
        apply (IH _ r ph1 Inv1).
        destruct ph1; [contradiction|exact Hturn|exact Hturn].
    + simpl in Hturn. destruct ph.
      * apply (IH _ r receiving); [|exact Hturn].
        apply turn_timer_receiving. exact Inv.
      * destruct (turn_timer_draining r i s Inv) as (ph1 & Hne & Inv1).
        apply (IH _ r ph1 Inv1).
        destruct ph1; [contradiction|exact Hturn|exact Hturn].
      * rewrite (turn_timer_completed r i s Inv).
        apply (IH _ r completed Inv). exact Hturn.
Qed.

(** The oldest callback fires after [text_done]: the turn completes, or
    it stays in its draining phase and gets closer to its end. *)
Lemma turn_fifo_step (received : jsstring) (s : State) :
  TurnInv m0 received draining s ->
  TurnInv m0 received completed (step (ev_timer 0) s)
  \/ (TurnInv m0 received draining (step (ev_timer 0) s)
      /\ (drainMeasure (step (ev_timer 0) s) < drainMeasure s)%nat).
Proof.
  intros Inv. pose proof Inv as (typed & Hr & Hm & Ht & Hq & Hl).
  simpl in Hm, Ht. unfold step, fire, drainMeasure.
  destruct (isTypingRef s) eqn:Ety; simpl in Ht.
  - right. destruct Ht as [Ht|Ht]; rewrite Ht; simpl;
      unfold andThen, typeNextCharBody, waitForTypingBody; simpl;
      rewrite ?Ety, ?orb_true_r.
    + destruct (textQueueRef s) as [|ch rest] eqn:Eq.
      * split; [|simpl; rewrite Eq; simpl; lia].
        exists typed. simpl. rewrite Eq.
        split; [exact Hr|]. split; [exact Hm|].
        split; [left; reflexivity|]. split; [reflexivity|discriminate].
      * handler_unfold. simpl. rewrite Ety. split; [|simpl; lia].
        exists (typed ++ [ch]). simpl. rewrite Ety.
        split; [rewrite Hr, <- app_assoc; reflexivity|].
        split; [rewrite Hm; apply typeChar_bubble; exact m0_settled|].
        split; [right; reflexivity|]. split; [discriminate|discriminate].
    + handler_unfold. simpl. rewrite Ety. split; [|simpl; lia].
      exists typed. simpl. rewrite Ety.
      split; [exact Hr|]. split; [exact Hm|].
      split; [left; reflexivity|]. split; [discriminate|discriminate].
  - left. pose proof (Hq eq_refl) as Eq0.
    assert (Ht' : timers s = [waitForTyping]) by (destruct Ht; assumption).
    rewrite Ht'. simpl. unfold andThen, waitForTypingBody. simpl.
    rewrite Ety, Eq0. simpl.
    handler_unfold. simpl. exists typed. simpl. rewrite Ety, Eq0.
    split; [rewrite Hr, Eq0; reflexivity|].
    split; [rewrite Hm; apply finishLast_bubble; exact m0_settled|].
    split; [split; reflexivity|]. split; [reflexivity|reflexivity].
Qed.

(** After [text_done] the callbacks, fired in the order they were armed,
    flush the queue and complete the turn. *)
Lemma turn_drains (received : jsstring) (s : State) :
  TurnInv m0 received draining s ->
  exists n, TurnInv m0 received completed (run (repeat (ev_timer 0) n) s).
Proof.
  remember (drainMeasure s) as k eqn:Hk.
  revert s Hk. induction k as [k IH] using lt_wf_ind. intros s Hk Inv.
  destruct (turn_fifo_step received s Inv) as [Hc|[Hd Hlt]].
  - exists 1%nat. exact Hc.
  - destruct (IH (drainMeasure (step (ev_timer 0) s))
                ltac:(subst k; exact Hlt) _ eq_refl Hd) as [n Hn].
    exists (S n). exact Hn.
Qed.

End Turn.

Lemma settled_TurnInv (s0 : State) :
  settled s0 -> TurnInv (messages s0) [] receiving s0.
Proof.
  intros (Hq & Hty & Ht & _). exists []. simpl.
  rewrite Hq, Hty, Ht, app_nil_r. repeat split. discriminate.
Qed.

Lemma turnOf_extends (es : list Event) (r r' : jsstring) (d d' : bool) :
  turnOf es r d = Some (r', d') -> exists x, r' = r ++ x.
Proof.
  revert r d. induction es as [|e es IH]; intros r d H; simpl in H.
  - injection H as <- <-. exists []. rewrite app_nil_r. reflexivity.
  - destruct e as [| | |dt|i| | | | | | | | | | | | | | | | | | |];
      try discriminate H.
    + destruct dt as [| |c| | | | | | | | | |]; try discriminate H;
        destruct d; try discriminate H.
      * destruct (IH _ _ H) as [x ->]. exists (c ++ x).
        rewrite <- app_assoc. reflexivity.
      * exact (IH _ _ H).
    + exact (IH _ _ H).
Qed.

Lemma turnOf_app (es1 es2 : list Event) (r r' : jsstring) (d d' : bool) :
  turnOf (es1 ++ es2) r d = Some (r', d') ->
  exists r1 d1, turnOf es1 r d = Some (r1, d1)
                /\ turnOf es2 r1 d1 = Some (r', d').
Proof.
  revert r d. induction es1 as [|e es1 IH]; intros r d H.
  - exists r, d. split; [reflexivity|exact H].
  - simpl in H |- *.
    destruct e as [| | |dt|i| | | | | | | | | | | | | | | | | | |];
      try discriminate H.
    + destruct dt as [| |c| | | | | | | | | |]; try discriminate H;
        destruct d; try discriminate H; exact (IH _ _ H).
    + exact (IH _ _ H).
Qed.

(** What the invariant says in the words of the statement below. *)
Lemma TurnInv_view (m0 : list Msg) (received : jsstring) (ph : TurnPhase)
    (s : State) :
  TurnInv m0 received ph s ->
  let completedNow := doneOf ph && bool_decide (timers s = []) in
  (exists typed,
      typed ++ textQueueRef s = received
      /\ messages s = m0 ++ bubble typed (negb completedNow))
  /\ (completedNow = true -> ph = completed).
Proof.
  intros (typed & Hr & Hm & Ht & Hq & Hl) completedNow.
  assert (E : completedNow = bool_decide (ph = completed)).
  { subst completedNow. destruct ph; simpl in Ht |- *.
    - reflexivity.
    - apply bool_decide_eq_false_2.
      destruct Ht as [-> | ->]; [destruct (isTypingRef s)|]; discriminate.
    - destruct Ht as [-> _]. reflexivity. }
  split.
  - exists typed. split; [symmetry; exact Hr|]. rewrite E. exact Hm.
  - rewrite E. intros H. apply bool_decide_eq_true in H. exact H.
Qed.

(** X24.  A turn that is left alone.  Take a turn that starts in a settled
    state and whose events are [text_delta]s and callbacks in any order,
    then one [text_done], then callbacks only; no other handler pushes a
    message meanwhile.  At every point of such a turn:
    - the messages are those of the start followed by one bubble; its
      text, followed by the characters still queued, is the concatenation
      of the chunks received so far, in the order of their arrival;
      the text shown at an earlier point is a prefix of the whole text;
    - the bubble is marked as streaming until [text_done] has come and
      every callback has run; when the mark is cleared the queue is empty,
      the typing has stopped, the bubble holds the whole text, and no
      callback is left to clear anything a second time;
    - once [text_done] has come, the callbacks, fired in the order they
      were armed, do flush the queue and clear the mark. *)
Theorem streaming_turn (s0 : State) (es : list Event) (received : jsstring)
    (done : bool) :
  settled s0 ->
  turnOf es [] false = Some (received, done) ->
  let s := run es s0 in
  let completedNow := done && bool_decide (timers s = []) in
  (exists typed,
      typed ++ textQueueRef s = received
      /\ messages s = messages s0 ++ bubble typed (negb completedNow))
  /\ (forall es1 es2,
         es = es1 ++ es2 ->
         exists typed1 st rest,
           messages (run es1 s0) = messages s0 ++ bubble typed1 st
           /\ received = typed1 ++ rest)
  /\ (completedNow = true ->
      textQueueRef s = [] /\ isTypingRef s = false /\ isLoading s = false
      /\ messages s = messages s0 ++ bubble received false
      /\ forall i, step (ev_timer i) s = s)
  /\ (done = true ->
      exists n,
        timers (run (repeat (ev_timer 0) n) s) = []
        /\ messages (run (repeat (ev_timer 0) n) s)
           = messages s0 ++ bubble received false).
Proof.
  intros Hs0 Hturn s completedNow.
  pose proof Hs0 as (_ & _ & _ & Hm0).
  pose proof (settled_TurnInv s0 Hs0) as Inv0.
  destruct (turn_run (messages s0) Hm0 es s0 [] received receiving done
              Inv0 Hturn) as (ph & Hd & Inv).
  fold s in Inv.
  destruct (TurnInv_view _ _ _ _ Inv) as [Hview Hcompl].
  rewrite <- Hd in Hview, Hcompl. fold completedNow in Hview, Hcompl.
  split; [exact Hview|]. split; [|split].
  - intros es1 es2 ->.
    destruct (turnOf_app es1 es2 [] received false done Hturn)
      as (r1 & d1 & H1 & H2).
    destruct (turn_run (messages s0) Hm0 es1 s0 [] r1 receiving d1
                Inv0 H1) as (ph1 & _ & Inv1).
    destruct (TurnInv_view _ _ _ _ Inv1) as [(typed1 & Hr1 & Hmsg1) _].
    destruct (turnOf_extends es2 r1 received d1 done H2) as [x ->].
    eexists typed1, _, (textQueueRef (run es1 s0) ++ x).
    split; [exact Hmsg1|]. rewrite app_assoc, Hr1. reflexivity.
  - intros Hc. specialize (Hcompl Hc). subst ph.
    pose proof Inv as (typed & Hr & Hm & [Ht Hty] & Hq & Hl).
    specialize (Hq Hty). rewrite Hq, app_nil_r in Hr. subst typed.
    split; [exact Hq|]. split; [exact Hty|]. split; [exact (Hl eq_refl)|].
    split; [exact Hm|].
    intros i. exact (turn_timer_completed (messages s0) received i s Inv).
  - intros ->. destruct ph; [discriminate Hd| |].
    + destruct (turn_drains (messages s0) Hm0 received s Inv) as [n Hn].
      exists n. destruct Hn as (typed & Hr & Hm & [Ht Hty] & Hq & _).
      rewrite (Hq Hty), app_nil_r in Hr. subst typed.
      split; [exact Ht|exact Hm].
    + exists 0%nat. destruct Inv as (typed & Hr & Hm & [Ht Hty] & Hq & _).
      rewrite (Hq Hty), app_nil_r in Hr. subst typed.
      split; [exact Ht|exact Hm].
Qed.

(** "Hel" then "lo", typed and completed: one bubble holding "Hello". *)
Lemma streaming_turn_witness :
  let s := run quietTurn (initialState None) in
  textQueueRef s = [] /\ isTypingRef s = false /\ isLoading s = false
  /\ messages s = [textMsg (js "assistant") (Some (js "Hello")) false]
  /\ forall i, step (ev_timer i) s = s.
Proof.
  intros s.
  assert (Hs0 : settled (initialState None)).
  { repeat split. intros init z H. discriminate H. }
  exact (proj1 (proj2 (proj2 (streaming_turn (initialState None) quietTurn
                                (js "Hello") true Hs0 eq_refl)))
           eq_refl).
Defined.

(* ================================================================== *)
(** * Further properties of the component *)
(* ================================================================== *)

(* ------------------------------------------------------------------ *)
(** ** [trim] and [includes] *)
(* ------------------------------------------------------------------ *)

Lemma trimStart_nil_whitespaceOnly (c : jsstring) :
  trimStart c = [] -> whitespaceOnly c = true.
Proof.
  induction c as [|ch c IH]; simpl; [reflexivity|].
  destruct (isWhiteSpace ch); [exact IH|discriminate].
Qed.

Lemma trimStart_head (c : jsstring) (ch : N) (t : jsstring) :
  trimStart c = ch :: t -> isWhiteSpace ch = false.
Proof.
  induction c as [|x c IH]; simpl; [discriminate|].
  destruct (isWhiteSpace x) eqn:E; [exact IH|].
  intros H. injection H as <- <-. exact E.
Qed.

Lemma whitespaceOnly_rev (c : jsstring) :
  whitespaceOnly (rev c) = whitespaceOnly c.
Proof.
  unfold whitespaceOnly. induction c as [|x c IH]; simpl; [reflexivity|].
  rewrite forallb_app, IH. simpl. rewrite andb_true_r. apply andb_comm.
Qed.

(** [s.trim()] is empty exactly for the strings made of white space. *)
Lemma trim_nil_iff (c : jsstring) :
  trim c = [] <-> whitespaceOnly c = true.
Proof.
  split; [|apply trim_whitespaceOnly].
  unfold trim, trimEnd. intros H.
  assert (H1 : trimStart (rev (trimStart c)) = []).
  { destruct (trimStart (rev (trimStart c))) as [|x l]; [reflexivity|].
    simpl in H. destruct (rev l); discriminate H. }
  apply trimStart_nil_whitespaceOnly in H1.
  rewrite whitespaceOnly_rev in H1.
  destruct (trimStart c) as [|x l] eqn:E.
  - apply trimStart_nil_whitespaceOnly. exact E.
  - apply trimStart_head in E. simpl in H1. rewrite E in H1. discriminate.
Qed.

Lemma nonEmpty_trim (c : jsstring) :
  nonEmpty (trim c) = negb (whitespaceOnly c).
Proof.
  destruct (whitespaceOnly c) eqn:E.
  - rewrite (trim_whitespaceOnly c E). reflexivity.
  - destruct (trim c) eqn:T; [|reflexivity].
    apply trim_nil_iff in T. congruence.
Qed.

Lemma startsWith_iff (s kw : jsstring) :
  startsWith s kw = true <-> exists post, s = kw ++ post.
Proof.
  revert s. induction kw as [|k kw IH]; intros s; simpl.
  - split; [intros _; exists s; reflexivity|intros _; destruct s; reflexivity].
  - destruct s as [|c s].
    + simpl. split; [discriminate|intros [post H]; discriminate H].
    + simpl. rewrite andb_true_iff, N.eqb_eq, IH. split.
      * intros [-> [post ->]]. exists post. reflexivity.
      * intros [post H]. injection H as -> ->. split; [reflexivity|].
        exists post. reflexivity.
Qed.

(** [s.includes(kw)] holds exactly when [kw] occurs in [s]. *)
Lemma includes_iff (s kw : jsstring) :
  includes s kw = true <-> exists pre post, s = pre ++ kw ++ post.
Proof.
  induction s as [|c s IH].
  - destruct kw as [|k kw]; simpl.
    + split; [intros _; exists [], []; reflexivity|reflexivity].
    + split; [discriminate|].
      intros (pre & post & H). destruct pre; discriminate H.
  - cbn [includes]. rewrite orb_true_iff, startsWith_iff, IH. split.
    + intros [[post H]|(pre & post & ->)].
      * exists [], post. exact H.
      * exists (c :: pre), post. reflexivity.
    + intros (pre & post & H). destruct pre as [|x pre].
      * left. exists post. exact H.
      * right. injection H as -> ->. exists pre, post. reflexivity.
Qed.

(** A keyword with a character that the text lacks does not occur in it. *)
Lemma includes_missing_char (s kw : jsstring) (ch : N) :
  In ch kw -> ~ In ch s -> includes s kw = false.
Proof.
  intros Hkw Hs. destruct (includes s kw) eqn:E; [|reflexivity].
  apply includes_iff in E as (pre & post & ->). exfalso. apply Hs.
  apply in_or_app. right. apply in_or_app. left. exact Hkw.
Qed.

(* ------------------------------------------------------------------ *)
(** ** Which handlers touch which cells *)
(* ------------------------------------------------------------------ *)

Lemma keeps_andThen {A : Type} (cell : State -> A) (f g : State -> State) :
  keeps cell f -> keeps cell g -> keeps cell (f >>> g).
Proof. intros Hf Hg s. unfold andThen. rewrite Hg. apply Hf. Qed.

(** Unfolds a handler to the records it builds and compares one cell. *)
Ltac cell_leaf :=
  unfold runTask;
  unfold clickCandidate, clickConfirm, handleQuickOption,
    confirmSelectedOptions;
  unfold handleUiComponent, handleQuickOptions, processTextQueue,
    typeNextCharBody, waitForTypingBody, resetState, sendMessage,
    resetSession, handleUploadImage, confirmPrivacyAndUpload,
    handleFileSelected, uploadSettled, confirmItems, deleteItem,
    handleAddressSelected, handleAddressConfirmed, handleSubmitContact,
    connect;
  handler_unfold;
  repeat case_match; simpl; try reflexivity.

Ltac keeps_leaf := let s := fresh "s" in intros s; cell_leaf.

Ltac keeps_split :=
  repeat match goal with
         | |- keeps _ (_ >>> _) => apply keeps_andThen
         end.

Ltac keeps_tac := keeps_split; keeps_leaf.

(** What comes from the server never makes the client transmit or
    upload. *)
Lemma handleServerMessage_silent (seen : bool) (d : ServerMsg) :
  keeps sent (handleServerMessage seen d)
  /\ keeps fetched (handleServerMessage seen d)
  /\ keeps awaited (handleServerMessage seen d).
Proof.
  destruct d as [tok p| |c| |md|h|tok fs|its|its| |ty|m|];
    unfold handleServerMessage;
    (split; [|split]); keeps_tac.
Qed.

Lemma fire_silent (i : nat) :
  keeps sent (fire i) /\ keeps fetched (fire i) /\ keeps awaited (fire i).
Proof.
  unfold fire. (split; [|split]); intros s;
    (destruct (timers s !! i) as [t|]; [|reflexivity]);
    destruct t; unfold andThen; cell_leaf.
Qed.

(* ------------------------------------------------------------------ *)
(** ** Properties of every run *)
(* ------------------------------------------------------------------ *)

Lemma run_invariant (P : State -> Prop) :
  (forall e s, P s -> P (step e s)) ->
  forall es s, P s -> P (run es s).
Proof.
  intros Hstep es. induction es as [|e es IH]; intros s Hs; [exact Hs|].
  rewrite run_cons. apply IH, Hstep, Hs.
Qed.

Lemma step_silent (e : Event) (s : State) :
  isUserEvent e = false ->
  sent (step e s) = sent s /\ fetched (step e s) = fetched s
  /\ awaited (step e s) = awaited s.
Proof.
  destruct e as [| | |d|i| | | | | | | | | | | | | | | | | | |];
    try discriminate; intros _; unfold step.
  - repeat split.
  - repeat split.
  - repeat split.
  - destruct (handleServerMessage_silent isVerifyingAddress_installed d)
      as (H1 & H2 & H3). auto.
  - destruct (fire_silent i) as (H1 & H2 & H3). auto.
Qed.

(** X1.  The client transmits and uploads on the user's actions only.
    Whatever the socket delivers ([session], [text_delta], [metadata],
    [message_history], [session_reset], [error], ...), whatever callback
    fires (the typing effect, the address animation, the reconnection)
    and whenever the socket opens or closes, no frame is handed to
    [ws.send], no upload is issued and none is settled. *)
Theorem server_and_timers_never_transmit (es : list Event) (s : State) :
  forallb (fun e => negb (isUserEvent e)) es = true ->
  sent (run es s) = sent s
  /\ fetched (run es s) = fetched s
  /\ awaited (run es s) = awaited s.
Proof.
  revert s. induction es as [|e es IH]; intros s H; [repeat split|].
  simpl in H. apply andb_true_iff in H as [He Hes].
  apply negb_true_iff in He. rewrite run_cons.
  destruct (IH (step e s) Hes) as (-> & -> & ->).
  exact (step_silent e s He).
Qed.

(** A session in which the user has said "hi", then a reply that is
    typed, an address emission, a reset and a loss of the connection. *)
Lemma server_and_timers_never_transmit_witness :
  let s := run [ev_mount; ev_open; ev_say (Some (js "hi"))]
               (initialState None) in
  let es := [ev_server (TEXT_DELTA (js "Hello")); ev_timer 0;
             ev_server TEXT_DONE;
             ev_server (METADATA (confirmEmission "from" "1-1 Shibuya"));
             ev_timer 1; ev_server (SESSION_RESET (js "t2") None);
             ev_close; ev_timer 0] in
  sent (run es s) = [out_message (js "hi")]
  /\ fetched (run es s) = fetched s
  /\ awaited (run es s) = awaited s.
Proof.
  intros s es.
  apply (server_and_timers_never_transmit es s). reflexivity.
Defined.

(* ------------------------------------------------------------------ *)
(** ** The frames of type [message] *)
(* ------------------------------------------------------------------ *)

Lemma sendMessage_frames (c : option jsstring) (s : State) :
  forallb frameNotBlank (sent s) = true ->
  forallb frameNotBlank (sent (sendMessage c s)) = true.
Proof.
  intros H. unfold sendMessage. handler_unfold.
  destruct c as [c|]; [|exact H].
  rewrite nonEmpty_trim, negb_involutive.
  destruct (whitespaceOnly c) eqn:Ews; [exact H|].
  repeat case_match; simpl; try exact H.
  rewrite forallb_app, H. simpl. rewrite Ews. reflexivity.
Qed.

Lemma step_frames (e : Event) (s : State) :
  forallb frameNotBlank (sent s) = true ->
  forallb frameNotBlank (sent (step e s)) = true.
Proof.
  intros H. destruct (isUserEvent e) eqn:Eu.
  - destruct e; try discriminate Eu; unfold step;
      try (apply sendMessage_frames; exact H);
      try (cell_leaf; rewrite ?forallb_app, ?H; reflexivity).
    + unfold handleQuickOption, andThen, skip, setSelectedOptionsWith.
      repeat case_match;
        repeat first
          [ exact H
          | apply sendMessage_frames
          | progress cbn [sent setUiComponent setSelectedOptions
                          setQuickOptions setPendingItems
                          setItemsJustConfirmed] ].
    + unfold confirmSelectedOptions, andThen.
      case_match; [|exact H].
      cbn [sent setSelectedOptions]. apply sendMessage_frames, H.
  - destruct (step_silent e s Eu) as [-> _]. exact H.
Qed.

(** X2.  No blank message leaves the client.  Whatever the events of a
    session, in whatever order, every frame of type [message] handed to
    the socket carries a text with at least one character that is not
    white space: the guard of [sendMessage] also covers the texts sent on
    behalf of the quick options and of the multi-selection. *)
Theorem message_frames_never_blank (tok : option jsstring)
    (es : list Event) :
  forallb frameNotBlank (sent (run es (initialState tok))) = true.
Proof.
  apply (run_invariant (fun s => forallb frameNotBlank (sent s) = true)).
  - exact step_frames.
  - reflexivity.
Qed.

(* ------------------------------------------------------------------ *)
(** ** The session token *)
(* ------------------------------------------------------------------ *)

Lemma step_token (e : Event) (s : State) :
  sessionTokenRef (step e s)
  = match carriedToken e with
    | Some x => Some x
    | None => sessionTokenRef s
    end
  /\ localStorageToken (step e s)
     = match carriedToken e with
       | Some x => Some x
       | None => localStorageToken s
       end.
Proof.
  destruct e as [| | |d|i| | | | | | | | | | | | | | | | | | |];
    unfold step, carriedToken;
    try (split; cell_leaf; fail).
  - destruct d as [tok p| |c| |md|h|tok fs|its|its| |ty|m|];
      unfold handleServerMessage; split; cell_leaf.
  - unfold fire. split; (destruct (timers s !! i) as [t|]; [|reflexivity]);
      destruct t; unfold andThen; cell_leaf.
Qed.

(** X3.  The session token is the server's.  At any point of a session
    the token kept in [sessionTokenRef] is the one of the last [session]
    or [session_reset] event received, and the one found in local storage
    at the first render when there was none; the copy in local storage is
    the same.  No action of the user and no callback changes either. *)
Theorem session_token_follows_server (tok : option jsstring)
    (es : list Event) :
  sessionTokenRef (run es (initialState tok)) = lastToken tok es
  /\ localStorageToken (run es (initialState tok)) = lastToken tok es.
Proof.
  assert (G : forall es s t,
             sessionTokenRef s = t -> localStorageToken s = t ->
             sessionTokenRef (run es s) = lastToken t es
             /\ localStorageToken (run es s) = lastToken t es).
  { clear. intros es. induction es as [|e es IH]; intros s t H1 H2.
    - split; assumption.
    - rewrite run_cons. unfold lastToken. simpl.
      destruct (step_token e s) as [E1 E2].
      apply IH; [rewrite E1|rewrite E2];
        destruct (carriedToken e); congruence. }
  apply G; reflexivity.
Qed.

(* ------------------------------------------------------------------ *)
(** ** The typing queue *)
(* ------------------------------------------------------------------ *)

Lemma In_delete_other {A : Type} (l : list A) (i : nat) (t x : A) :
  l !! i = Some t -> x <> t -> In x l -> In x (delete i l).
Proof.
  revert i. induction l as [|a l IH]; intros i Hi Hx Hin; [destruct Hin|].
  destruct i as [|i]; simpl in Hi |- *.
  - injection Hi as ->. destruct Hin as [<-|Hin]; [congruence|exact Hin].
  - destruct Hin as [<-|Hin]; [left; reflexivity|right; eauto].
Qed.

Ltac queue_solve :=
  unfold queueServed in *; simpl in *;
  repeat match goal with
         | H : _ /\ _ |- _ => destruct H
         | H : bool_decide _ = true |- _ => apply bool_decide_eq_true in H
         | H : bool_decide _ = false |- _ => apply bool_decide_eq_false in H
         | H : _ || _ = false |- _ => apply orb_false_iff in H
         end;
  split; intros;
  rewrite ?in_app_iff; simpl;
  try congruence; auto; try (exfalso; auto; fail).

Lemma step_queueServed (e : Event) (s : State) :
  queueServed s -> queueServed (step e s).
Proof.
  intros H.
  destruct e as [| | |d|i| | | | | | | | | | | | | | | | | | |];
    unfold step.
  5: { unfold fire. destruct (timers s !! i) as [t|] eqn:Et; [|exact H].
       destruct t; unfold andThen; cell_leaf; queue_solve.
       all: try (apply In_delete_other with (t := _) (1 := Et);
                 [discriminate|auto]; fail).
       all: try (left; apply In_delete_other with (t := _) (1 := Et);
                 [discriminate|auto]; fail).
       apply H. congruence. }
  4: { destruct d as [tok p| |c| |md|h|tok fs|its|its| |ty|m|];
         unfold handleServerMessage; cell_leaf; queue_solve.
       apply orb_true_iff in H0 as [H0|H0]; [exact H0|].
       apply bool_decide_eq_true in H0. contradiction. }
  all: cell_leaf; queue_solve.
Qed.

(** X4.  Queued text is never left without a typist.  At any point of a
    session (through replies that overlap, resets that empty the queue
    while a callback is still armed, and lost connections) characters
    waiting in [textQueueRef] imply that [isTypingRef] is set, and
    [isTypingRef] being set implies that a [typeNextChar] callback is
    armed: the queue cannot be stranded by the guard of
    [processTextQueue]. *)
Theorem queue_always_served (tok : option jsstring) (es : list Event) :
  queueServed (run es (initialState tok)).
Proof.
  apply (run_invariant queueServed).
  - exact step_queueServed.
  - split; [intros H; exfalso; apply H; reflexivity | discriminate].
Qed.

(* ------------------------------------------------------------------ *)
(** ** The multi-selection *)
(* ------------------------------------------------------------------ *)

Lemma arrayIncludes_In (l : list jsstring) (x : jsstring) :
  arrayIncludes l x = true <-> In x l.
Proof.
  unfold arrayIncludes. rewrite bool_decide_eq_true.
  apply list_elem_of_In.
Qed.

Lemma arrayIncludes_not_In (l : list jsstring) (x : jsstring) :
  arrayIncludes l x = false <-> ~ In x l.
Proof.
  unfold arrayIncludes. rewrite bool_decide_eq_false.
  rewrite list_elem_of_In. reflexivity.
Qed.

Lemma NoDup_List_filter {A : Type} (f : A -> bool) (l : list A) :
  NoDup l -> NoDup (List.filter f l).
Proof.
  induction 1 as [|x l Hx Hl IH]; simpl; [constructor|].
  destruct (f x); [|exact IH].
  constructor; [|exact IH].
  rewrite list_elem_of_In, List.filter_In, <- list_elem_of_In. tauto.
Qed.

(** The updater of [setSelectedOptions] at lines 404-409. *)
Lemma toggle_sound (prev : list jsstring) (opt : jsstring) :
  In opt multiSelectOptions ->
  NoDup prev ->
  (forall o, In o prev -> In o multiSelectOptions) ->
  let next :=
    if arrayIncludes prev opt
    then List.filter (fun o => negb (bool_decide (o = opt))) prev
    else prev ++ [opt] in
  NoDup next /\ forall o, In o next -> In o multiSelectOptions.
Proof.
  intros Hopt Hnd Hsub next. subst next.
  destruct (arrayIncludes prev opt) eqn:E.
  - split; [apply NoDup_List_filter, Hnd|].
    intros o Ho. apply List.filter_In in Ho as [Ho _]. auto.
  - apply arrayIncludes_not_In in E. split.
    + apply NoDup_app. split; [exact Hnd|]. split; [|apply NoDup_singleton].
      intros x Hx Hx'. apply list_elem_of_singleton in Hx'. subst x.
      apply E, list_elem_of_In, Hx.
    + intros o Ho. apply in_app_iff in Ho as [Ho|[<-|[]]]; auto.
Qed.

Lemma sendMessage_keeps_selected (c : option jsstring) :
  keeps selectedOptions (sendMessage c).
Proof. keeps_leaf. Qed.

Lemma selectionSound_nil (s : State) :
  selectedOptions s = [] -> selectionSound s.
Proof.
  intros E. unfold selectionSound. rewrite E.
  split; [constructor|intros o []].
Qed.

Lemma handleQuickOption_selectionSound (opt : jsstring) (s : State) :
  selectionSound s -> selectionSound (handleQuickOption opt s).
Proof.
  intros [Hnd Hsub]. unfold handleQuickOption, andThen, skip.
  destruct (bool_decide (opt = js "继续添加")
            || bool_decide (opt = js "上传照片"));
    [exact (conj Hnd Hsub)|].
  destruct (arrayIncludes multiSelectOptions opt) eqn:Em.
  - apply arrayIncludes_In in Em.
    exact (toggle_sound (selectedOptions s) opt Em Hnd Hsub).
  - destruct (bool_decide (opt = js "没有了")
              || bool_decide (opt = js "没有其他行李")
              || bool_decide (opt = js "没有其他行李了")).
    + apply selectionSound_nil. rewrite sendMessage_keeps_selected.
      cbn [selectedOptions setUiComponent].
      destruct (bool_decide (selectedOptions s ≠ [])) eqn:En;
        [reflexivity|].
      apply bool_decide_eq_false in En.
      destruct (selectedOptions s); [reflexivity|].
      exfalso. apply En. discriminate.
    + unfold selectionSound.
      rewrite (sendMessage_keeps_selected (Some opt) s).
      exact (conj Hnd Hsub).
Qed.

Lemma step_selectionSound (e : Event) (s : State) :
  selectionSound s -> selectionSound (step e s).
Proof.
  intros H.
  destruct e as [| | |d|i|v| |text|o| | | | | |f|r| |id|index idx
                |index answer|v|v| |op];
    unfold step.
  9: exact (handleQuickOption_selectionSound o s H).
  9: { unfold confirmSelectedOptions, andThen.
       destruct (bool_decide (selectedOptions s ≠ [])); [|exact H].
       apply selectionSound_nil. reflexivity. }
  5: { unfold fire. destruct (timers s !! i) as [t|]; [|exact H].
       destruct t; unfold andThen, selectionSound; cell_leaf; exact H. }
  4: { destruct d as [tok p| |c| |md|h|tok fs|its|its| |ty|m|];
         unfold handleServerMessage, selectionSound; cell_leaf;
         try exact H.
       split; [constructor|intros o' []]. }
  all: unfold selectionSound; cell_leaf; exact H.
Qed.

(** X5.  The multi-selection is sound.  At any point of a session the
    selected options are options of the multi-select list
    ([multiSelectOptions], line 392) and none is selected twice, so the
    number shown on the confirm button (line 1380) counts distinct
    options. *)
Theorem selection_always_sound (tok : option jsstring) (es : list Event) :
  selectionSound (run es (initialState tok)).
Proof.
  apply (run_invariant selectionSound).
  - exact step_selectionSound.
  - apply selectionSound_nil. reflexivity.
Qed.

(** X6.  A click on a multi-select option ticks it or unticks it and
    does nothing else: the option is selected afterwards exactly when it
    was not before, the other options keep their state, and nothing is
    sent or shown in the conversation. *)
Theorem multi_select_toggles (s : State) (opt : jsstring) :
  In opt multiSelectOptions ->
  let s' := handleQuickOption opt s in
  (In opt (selectedOptions s') <-> ~ In opt (selectedOptions s))
  /\ (forall o, o <> opt ->
                In o (selectedOptions s') <-> In o (selectedOptions s))
  /\ s' = setSelectedOptions (selectedOptions s') s.
Proof.
  intros Hopt s'. subst s'. unfold handleQuickOption.
  assert (E1 : bool_decide (opt = js "继续添加")
               || bool_decide (opt = js "上传照片") = false).
  { destruct Hopt as [<-|[<-|[<-|[<-|[<-|[]]]]]]; reflexivity. }
  rewrite E1, (proj2 (arrayIncludes_In _ _) Hopt).
  unfold setSelectedOptionsWith. cbn [selectedOptions setSelectedOptions].
  split; [|split; [|reflexivity]].
  - destruct (arrayIncludes (selectedOptions s) opt) eqn:E.
    + apply arrayIncludes_In in E.
      rewrite List.filter_In, bool_decide_eq_true_2 by reflexivity.
      simpl. split; [intros [_ H]; discriminate|intros H; contradiction].
    + apply arrayIncludes_not_In in E. rewrite in_app_iff. simpl.
      tauto.
  - intros o Ho.
    destruct (arrayIncludes (selectedOptions s) opt).
    + rewrite List.filter_In, bool_decide_eq_false_2 by exact Ho.
      simpl. tauto.
    + rewrite in_app_iff. simpl. split; [|tauto].
      intros [H|[H|[]]]; [exact H|congruence].
Qed.

(** Two options are ticked, then the first is clicked again. *)
Lemma multi_select_toggles_witness :
  let s := run [ev_mount; ev_open;
                ev_quickOption (js "空调安装");
                ev_quickOption (js "不用品回收")] (initialState None) in
  let s' := handleQuickOption (js "空调安装") s in
  selectedOptions s = [js "空调安装"; js "不用品回收"]
  /\ selectedOptions s' = [js "不用品回收"]
  /\ s' = setSelectedOptions (selectedOptions s') s.
Proof.
  intros s s'.
  split; [reflexivity|]. split; [reflexivity|].
  apply (multi_select_toggles s (js "空调安装")).
  right; right; left. reflexivity.
Defined.

(* ------------------------------------------------------------------ *)
(** ** What [sendMessage] transmits *)
(* ------------------------------------------------------------------ *)

(** The two ways [sendMessage] gets past its guard. *)
Lemma sendMessage_transmits (c : jsstring) (s : State) :
  passesGuard s c = true ->
  isAddItemRequest c && (currentPhase s =? 4) = false ->
  sendMessage (Some c) s
  = (setMessagesWith
       (fun prev => prev ++ [textMsg (js "user") (Some c) false])
     >>> wsSendChecked (out_message c)
     >>> setInputValue []
     >>> setQuickOptions []
     >>> set_lastOptionsRef []
     >>> setIsLoading true) s.
Proof.
  unfold passesGuard, isAddItemRequest, sendMessage. intros Hg Hk.
  apply andb_true_iff in Hg as [Hg Hc]. apply andb_true_iff in Hg as [Hw Hs].
  rewrite nonEmpty_trim, Hw, Hs, Hc, Hk. reflexivity.
Qed.

Lemma sendMessage_intercepts (c : jsstring) (s : State) :
  passesGuard s c = true ->
  isAddItemRequest c && (currentPhase s =? 4) = true ->
  sendMessage (Some c) s
  = (setUiComponent (mkUi (js "item_evaluation") None)
     >>> setQuickOptions []
     >>> setInputValue []) s.
Proof.
  unfold passesGuard, isAddItemRequest, sendMessage. intros Hg Hk.
  apply andb_true_iff in Hg as [Hg Hc]. apply andb_true_iff in Hg as [Hw Hs].
  rewrite nonEmpty_trim, Hw, Hs, Hc, Hk. reflexivity.
Qed.

Lemma isAddItemRequest_iff (c : jsstring) :
  isAddItemRequest c = true
  <-> exists kw pre post, In kw addItemKeywords /\ c = pre ++ kw ++ post.
Proof.
  unfold isAddItemRequest. rewrite existsb_exists. split.
  - intros (kw & Hkw & Hin). apply includes_iff in Hin as (pre & post & E).
    exists kw, pre, post. split; assumption.
  - intros (kw & pre & post & Hkw & E). exists kw. split; [exact Hkw|].
    apply includes_iff. exists pre, post. exact E.
Qed.

(** X7.  In phase 4 a text that contains one of the six add-item
    keywords anywhere ("继续添加", "添加物品", "再添加", "上传图片",
    "还有物品", "还要添加") is not a message: on an open connection
    [sendMessage] hands nothing to the socket and shows no bubble for
    it; it opens the item panel ([ui_component] of type
    [item_evaluation]) and empties the quick options and the input.  In
    any other phase the same text is sent as it is. *)
Theorem add_item_request_intercepted (s : State) (kw pre post : jsstring) :
  In kw addItemKeywords ->
  wsRef s = true -> isConnected s = true ->
  let c := pre ++ kw ++ post in
  let s' := sendMessage (Some c) s in
  (currentPhase s = 4 ->
     sent s' = sent s /\ messages s' = messages s
     /\ uiComponent s' = mkUi (js "item_evaluation") None
     /\ quickOptions s' = [] /\ inputValue s' = []
     /\ isLoading s' = isLoading s)
  /\ (currentPhase s <> 4 ->
      sent s' = sent s ++ [out_message c]
      /\ messages s' = messages s ++ [textMsg (js "user") (Some c) false]
      /\ uiComponent s' = uiComponent s).
Proof.
  intros Hkw Hws Hco c s'.
  assert (Hreq : isAddItemRequest c = true).
  { apply isAddItemRequest_iff. exists kw, pre, post. split; auto. }
  assert (Hnb : whitespaceOnly c = false).
  { destruct (whitespaceOnly c) eqn:E; [|reflexivity].
    assert (Hk : whitespaceOnly kw = true).
    { unfold whitespaceOnly, c in *.
      rewrite !forallb_app in E.
      apply andb_true_iff in E as [_ E]. apply andb_true_iff in E as [E _].
      exact E. }
    destruct Hkw as [<-|[<-|[<-|[<-|[<-|[<-|[]]]]]]]; discriminate Hk. }
  assert (Hg : passesGuard s c = true).
  { unfold passesGuard. rewrite Hnb, Hws, Hco. reflexivity. }
  split.
  - intros Hp. subst s'. rewrite sendMessage_intercepts; [|exact Hg|].
    + repeat split.
    + rewrite Hreq, Hp. reflexivity.
  - intros Hp. subst s'. rewrite sendMessage_transmits; [|exact Hg|].
    + repeat split.
    + rewrite Hreq. simpl. apply Z.eqb_neq. exact Hp.
Qed.

(** "我想再添加一个箱子" typed in phase 4. *)
Lemma add_item_request_intercepted_witness :
  let s := itemsPhaseSession in
  let s' := sendMessage (Some (js "我想再添加一个箱子")) s in
  sent s' = sent s /\ messages s' = messages s
  /\ uiComponent s' = mkUi (js "item_evaluation") None
  /\ quickOptions s' = [] /\ inputValue s' = []
  /\ isLoading s' = isLoading s.
Proof.
  intros s.
  apply (proj1 (add_item_request_intercepted s (js "再添加") (js "我想")
                  (js "一个箱子")
                  (or_intror (or_intror (or_introl eq_refl)))
                  eq_refl eq_refl)).
  reflexivity.
Defined.

(* ------------------------------------------------------------------ *)
(** ** Sending the multi-selection *)
(* ------------------------------------------------------------------ *)

Lemma join_chars (sep : jsstring) (l : list jsstring) (ch : N) :
  In ch (join sep l) ->
  In ch sep \/ exists x, In x l /\ In ch x.
Proof.
  induction l as [|x l IH]; [intros []|].
  destruct l as [|y l].
  - simpl. intros H. right. exists x. split; [left; reflexivity|exact H].
  - change (join sep (x :: y :: l)) with (x ++ sep ++ join sep (y :: l)).
    rewrite !in_app_iff. intros [H|[H|H]].
    + right. exists x. split; [left; reflexivity|exact H].
    + left. exact H.
    + destruct (IH H) as [H'|(z & Hz & Hch)]; [left; exact H'|].
      right. exists z. split; [right; exact Hz|exact Hch].
Qed.

Lemma join_not_blank (sep x : jsstring) (l : list jsstring) :
  whitespaceOnly x = false -> whitespaceOnly (join sep (x :: l)) = false.
Proof.
  intros H. destruct l as [|y l]; [exact H|].
  change (join sep (x :: y :: l)) with (x ++ sep ++ join sep (y :: l)).
  unfold whitespaceOnly in *. rewrite forallb_app, H. reflexivity.
Qed.

Lemma selection_in_alphabet (sel : list jsstring) (ch : N) :
  (forall o, In o sel -> In o multiSelectOptions) ->
  In ch (join (js "、") sel) -> In ch selectionAlphabet.
Proof.
  intros Hsub Hch. unfold selectionAlphabet. apply in_app_iff.
  destruct (join_chars _ _ _ Hch) as [H|(x & Hx & Hc)]; [right; exact H|].
  left. apply in_concat. exists x. split; [apply Hsub, Hx|exact Hc].
Qed.

Lemma no_keyword_in_alphabet (c : jsstring) :
  (forall ch, In ch c -> In ch selectionAlphabet) ->
  isAddItemRequest c = false.
Proof.
  intros Hc. destruct (isAddItemRequest c) eqn:E; [|reflexivity].
  exfalso. unfold isAddItemRequest in E.
  apply existsb_exists in E as (kw & Hkw & Hin).
  assert (Hhead : exists ch, In ch kw /\ ~ In ch selectionAlphabet).
  { destruct Hkw as [<-|[<-|[<-|[<-|[<-|[<-|[]]]]]]];
      (eexists; split; [left; reflexivity|]);
      vm_compute; intros H;
      repeat (destruct H as [H|H]; [discriminate H|]); exact H. }
  destruct Hhead as (ch & Hch & Hout).
  rewrite (includes_missing_char c kw ch Hch) in Hin; [discriminate|].
  intros H. apply Hout, Hc, H.
Qed.

Lemma selection_passes (s : State) :
  selectionSound s -> selectedOptions s <> [] ->
  wsRef s = true -> isConnected s = true ->
  passesGuard s (join (js "、") (selectedOptions s)) = true
  /\ isAddItemRequest (join (js "、") (selectedOptions s)) = false.
Proof.
  intros [_ Hsub] Hne Hws Hco. split.
  - unfold passesGuard. rewrite Hws, Hco.
    destruct (selectedOptions s) as [|x l]; [contradiction|].
    rewrite join_not_blank; [reflexivity|].
    destruct (Hsub x (or_introl eq_refl)) as [<-|[<-|[<-|[<-|[<-|[]]]]]];
      reflexivity.
  - apply no_keyword_in_alphabet. intros ch.
    apply selection_in_alphabet, Hsub.
Qed.

(** X8.  The confirm button of the multi-selection sends the ticked
    options as one message, joined by "、" in the order they were ticked,
    and empties the selection.  On an open connection the message is
    always transmitted, in phase 4 as well: no combination of the
    options contains an add-item keyword, and none is blank. *)
Theorem confirmSelectedOptions_sends_joined (s : State) :
  selectionSound s -> selectedOptions s <> [] ->
  wsRef s = true -> isConnected s = true ->
  let text := join (js "、") (selectedOptions s) in
  let s' := confirmSelectedOptions s in
  sent s' = sent s ++ [out_message text]
  /\ messages s' = messages s ++ [textMsg (js "user") (Some text) false]
  /\ selectedOptions s' = []
  /\ isLoading s' = true.
Proof.
  intros Hsel Hne Hws Hco text s'.
  destruct (selection_passes s Hsel Hne Hws Hco) as [Hg Hk].
  subst s'. unfold confirmSelectedOptions, andThen.
  rewrite (bool_decide_eq_true_2 _ Hne).
  fold text in Hg, Hk |- *.
  rewrite sendMessage_transmits; [|exact Hg|rewrite Hk; reflexivity].
  repeat split.
Qed.

(** Two options ticked in phase 4, then confirmed. *)
Lemma confirmSelectedOptions_sends_joined_witness :
  let s := run [ev_quickOption (js "空调安装");
                ev_quickOption (js "不用品回收")] itemsPhaseSession in
  let s' := confirmSelectedOptions s in
  sent s' = [out_message (js "空调安装、不用品回收")]
  /\ messages s'
     = [textMsg (js "user") (Some (js "空调安装、不用品回收")) false]
  /\ selectedOptions s' = []
  /\ isLoading s' = true.
Proof.
  intros s.
  apply (confirmSelectedOptions_sends_joined s).
  - exact (step_selectionSound _ _
             (step_selectionSound _ _
                (selectionSound_nil itemsPhaseSession eq_refl))).
  - discriminate.
  - reflexivity.
  - reflexivity.
Defined.

(** X9.  The options that end the multi-selection ("没有了",
    "没有其他行李", "没有其他行李了") first flush what is ticked: on an
    open connection the ticked options leave as one message, then the
    option itself as a second one, in this order; the selection is
    emptied and the UI component is set back to [none].  With nothing
    ticked the option alone is sent. *)
Theorem no_more_option_flushes (s : State) (opt : jsstring) :
  In opt noMoreOptions ->
  selectionSound s -> wsRef s = true -> isConnected s = true ->
  let flushed :=
    match selectedOptions s with
    | [] => []
    | _ => [join (js "、") (selectedOptions s)]
    end in
  let s' := handleQuickOption opt s in
  sent s' = sent s ++ List.map out_message (flushed ++ [opt])
  /\ messages s'
     = messages s
       ++ List.map (fun c => textMsg (js "user") (Some c) false)
            (flushed ++ [opt])
  /\ selectedOptions s' = []
  /\ uiComponent s' = mkUi (js "none") None.
Proof.
  intros Hopt Hsel Hws Hco flushed s'. subst s'.
  assert (Hbr : bool_decide (opt = js "继续添加")
                || bool_decide (opt = js "上传照片") = false
                /\ arrayIncludes multiSelectOptions opt = false
                /\ bool_decide (opt = js "没有了")
                   || bool_decide (opt = js "没有其他行李")
                   || bool_decide (opt = js "没有其他行李了") = true
                /\ whitespaceOnly opt = false
                /\ isAddItemRequest opt = false).
  { destruct Hopt as [<-|[<-|[<-|[]]]]; vm_compute; auto. }
  destruct Hbr as (E1 & E2 & E3 & Hnb & Hk).
  unfold handleQuickOption. rewrite E1, E2, E3. unfold andThen, skip.
  assert (Hlast : forall t,
             wsRef t = true -> isConnected t = true ->
             sendMessage (Some opt) t
             = (setMessagesWith
                  (fun prev => prev ++ [textMsg (js "user") (Some opt) false])
                >>> wsSendChecked (out_message opt)
                >>> setInputValue []
                >>> setQuickOptions []
                >>> set_lastOptionsRef []
                >>> setIsLoading true) t).
  { intros t Ht1 Ht2. apply sendMessage_transmits.
    - unfold passesGuard. rewrite Hnb, Ht1, Ht2. reflexivity.
    - rewrite Hk. reflexivity. }
  destruct (selectedOptions s) as [|x l] eqn:Es.
  - rewrite bool_decide_eq_false_2 by (intros H; apply H; reflexivity).
    rewrite Hlast by assumption. subst flushed.
    repeat split. exact Es.
  - rewrite bool_decide_eq_true_2 by discriminate.
    assert (Hne : selectedOptions s <> []) by (rewrite Es; discriminate).
    destruct (selection_passes s Hsel Hne Hws Hco) as [Hg Hj].
    rewrite Es in Hg, Hj.
    rewrite (sendMessage_transmits _ s Hg) by (rewrite Hj; reflexivity).
    rewrite Hlast by assumption. subst flushed.
    unfold andThen, setMessagesWith, wsSendChecked. simpl.
    rewrite <- !app_assoc. repeat split.
Qed.

(** One option ticked, then "没有了". *)
Lemma no_more_option_flushes_witness :
  let s := run [ev_quickOption (js "有钢琴需要搬运")] itemsPhaseSession in
  let s' := handleQuickOption (js "没有了") s in
  sent s' = [out_message (js "有钢琴需要搬运"); out_message (js "没有了")]
  /\ messages s'
     = [textMsg (js "user") (Some (js "有钢琴需要搬运")) false;
        textMsg (js "user") (Some (js "没有了")) false]
  /\ selectedOptions s' = []
  /\ uiComponent s' = mkUi (js "none") None.
Proof.
  intros s.
  apply (no_more_option_flushes s (js "没有了")).
  - left. reflexivity.
  - exact (step_selectionSound _ _
             (selectionSound_nil itemsPhaseSession eq_refl)).
  - reflexivity.
  - reflexivity.
Defined.

(* ------------------------------------------------------------------ *)
(** ** Uploads *)
(* ------------------------------------------------------------------ *)

Lemma numberItems_length (index : Z) (l : list RawItem) :
  length (numberItems index l) = length l.
Proof.
  revert index. induction l as [|r l IH]; intros index; simpl;
    [reflexivity|]. rewrite IH. reflexivity.
Qed.

Lemma numberItems_lookup (index : Z) (l : list RawItem) (k : nat)
    (it : Item) :
  numberItems index l !! k = Some it ->
  item_id it = Some (index + 1 + Z.of_nat k).
Proof.
  revert index k. induction l as [|r l IH]; intros index k H;
    [destruct k; discriminate H|].
  destruct k as [|k]; simpl in H.
  - injection H as <-. simpl. f_equal. lia.
  - rewrite (IH _ _ H). f_equal. lia.
Qed.



Lemma filter_numbered (index : Z) (l : list RawItem) (k : nat) :
  (k < length l)%nat ->
  List.filter
    (fun i => negb (bool_decide (item_id i = Some (index + 1 + Z.of_nat k))))
    (numberItems index l)
  = delete k (numberItems index l).
Proof.
  revert index k. induction l as [|r l IH]; intros index k Hk;
    [simpl in Hk; lia|].
  destruct k as [|k].
  - cbn [numberItems List.filter item_id].
    rewrite bool_decide_eq_true_2 by (f_equal; lia).
    simpl. apply forallb_filter_id, forallb_forall.
    intros j Hj. apply negb_true_iff, bool_decide_eq_false_2.
    apply list_elem_of_In, list_elem_of_lookup in Hj as [n Hn].
    rewrite (numberItems_lookup _ _ _ _ Hn). intros H. injection H. lia.
  - cbn [numberItems List.filter item_id].
    rewrite bool_decide_eq_false_2 by (intros H; injection H; lia).
    cbn [negb delete list_delete]. f_equal.
    etransitivity; [|apply (IH (index + 1) k); simpl in Hk; lia].
    apply List.filter_ext. intros a.
    replace (index + 1 + Z.of_nat (S k))
      with (index + 1 + 1 + Z.of_nat k) by lia.
    reflexivity.
Qed.

(** X11.  Deleting after an upload.  Once an upload has succeeded on an
    open connection, the numbered items of the answer are reported to
    the server in an [image_uploaded] frame and become the pending
    items; deleting the id k + 1 then removes exactly the k-th of them
    (from 0): the others stay, in their order, and the list is one
    shorter. *)
Theorem upload_then_delete (s : State) (error : option jsstring)
    (image_id : JsVal) (its : list RawItem) (k : nat) :
  (0 < awaited s)%nat -> wsRef s = true -> isConnected s = true ->
  (k < length its)%nat ->
  let s1 := uploadSettled (upload_ok true error image_id its) s in
  let s2 := deleteItem (Some (Z.of_nat k + 1)) s1 in
  sent s1 = sent s ++ [out_image_uploaded image_id (numberItems 0 its)]
  /\ pendingItems s1 = numberItems 0 its
  /\ pendingItems s2 = delete k (numberItems 0 its)
  /\ length (pendingItems s2) = (length its - 1)%nat
  /\ confirmedItems s2 = confirmedItems s.
Proof.
  intros Ha Hws Hco Hk s1 s2.
  assert (E1 : sent s1
               = sent s ++ [out_image_uploaded image_id (numberItems 0 its)]
               /\ pendingItems s1 = numberItems 0 its
               /\ confirmedItems s1 = confirmedItems s).
  { subst s1. unfold uploadSettled. handler_unfold.
    destruct (awaited s) as [|n]; [lia|]. simpl.
    rewrite Hws. repeat split. }
  destruct E1 as (E0 & E1 & E1'). split; [exact E0|].
  assert (E2 : pendingItems s2 = delete k (numberItems 0 its)).
  { subst s2. unfold deleteItem, setPendingItemsWith.
    cbn [pendingItems setPendingItems]. rewrite E1.
    replace (Z.of_nat k + 1) with (0 + 1 + Z.of_nat k) by lia.
    apply filter_numbered, Hk. }
  split; [exact E1|]. split; [exact E2|]. split; [|exact E1'].
  rewrite E2, length_delete.
  - rewrite numberItems_length. reflexivity.
  - apply lookup_lt_is_Some. rewrite numberItems_length. exact Hk.
Qed.

(** Three items recognised, the second deleted. *)
Lemma upload_then_delete_witness :
  let s := run [ev_mount; ev_open;
                ev_fileSelected (Some (mkFile (js "image/png") 204800))]
               (initialState None) in
  let its := [mkRawItem (js "bed") None (js "furniture") (Some 1) None None;
              mkRawItem (js "desk") None (js "furniture") None None None;
              mkRawItem (js "box") None (js "boxes") (Some 12) None None] in
  let s1 := uploadSettled (upload_ok true None (JStr (js "img-1")) its) s in
  let s2 := deleteItem (Some 2) s1 in
  sent s1 = [out_image_uploaded (JStr (js "img-1")) (numberItems 0 its)]
  /\ pendingItems s1 = numberItems 0 its
  /\ pendingItems s2 = delete 1%nat (numberItems 0 its)
  /\ length (pendingItems s2) = 2%nat
  /\ confirmedItems s2 = confirmedItems s.
Proof.
  intros s its.
  apply (upload_then_delete s None (JStr (js "img-1")) its 1).
  - vm_compute. lia.
  - reflexivity.
  - reflexivity.
  - vm_compute. lia.
Defined.

(** X12.  An upload that fails, in whichever way ([fetch] rejected, the
    answer not readable, an HTTP error, or an answer whose [success] is
    false), leaves the pending and the confirmed items, the conversation
    and the frames sent as they were; it shows exactly one error notice,
    whose text is never empty, and the recognition indicator is switched
    off.  The indicator is switched off after a success as well. *)
Theorem uploadSettled_failure (s : State) (r : UploadOutcome) :
  (0 < awaited s)%nat ->
  let s' := uploadSettled r s in
  isRecognizing s' = false
  /\ awaited s' = pred (awaited s)
  /\ (uploadFailed r = true ->
      pendingItems s' = pendingItems s
      /\ confirmedItems s' = confirmedItems s
      /\ messages s' = messages s
      /\ sent s' = sent s
      /\ exists text,
           text <> [] /\ notices s' = notices s ++ [notice_error text]).
Proof.
  intros Ha s'. subst s'. unfold uploadSettled. handler_unfold.
  destruct (awaited s) as [|n]; [lia|].
  assert (Hstr : forall o d, d <> [] -> strOr o d <> []).
  { intros [[|c t]|] d Hd; simpl; auto; discriminate. }
  destruct r as [m|m|d|[|] e img its]; simpl;
    try (destruct (wsRef s); simpl);
    (split; [reflexivity|]); (split; [reflexivity|]);
    intros Hf; try discriminate Hf;
    do 4 (split; [reflexivity|]);
    (eexists; split; [|reflexivity]);
    first [ apply Hstr; discriminate
          | repeat case_match; first [discriminate | apply (Hstr None)];
            discriminate ].
Qed.

(** An HTTP error without a detail, after one item was confirmed. *)
Lemma uploadSettled_failure_witness :
  let s := run [ev_mount; ev_open;
                ev_server (ITEMS_CONFIRMED (Some [sofa 1]));
                ev_fileSelected (Some (mkFile (js "image/png") 204800))]
               (initialState None) in
  let s' := uploadSettled (upload_not_ok None) s in
  isRecognizing s = true /\ isRecognizing s' = false
  /\ awaited s' = 0%nat
  /\ confirmedItems s' = [sofa 1]
  /\ sent s' = sent s
  /\ exists text,
       text <> [] /\ notices s' = notices s ++ [notice_error text].
Proof.
  intros s s'.
  destruct (uploadSettled_failure s (upload_not_ok None)) as (H1 & H2 & H3).
  - vm_compute. lia.
  - destruct (H3 eq_refl) as (_ & H4 & _ & H5 & H6).
    split; [reflexivity|]. split; [exact H1|]. split; [exact H2|].
    split; [exact H4|]. split; [exact H5|exact H6].
Defined.

(** X13.  A file of one of the four image types whose size is at most
    10 * 1024 * 1024 bytes (the bound included) is uploaded: exactly one
    [fetch] is issued, with the file and with the session token when the
    reference holds a non-empty one; the recognition indicator is
    switched on, the file input is emptied, no notice is shown and
    nothing goes through the socket. *)
Theorem handleFileSelected_accepts (s : State) (file : File) :
  In (file_type file) allowedTypes ->
  file_size file <= 10 * 1024 * 1024 ->
  let s' := handleFileSelected (Some file) s in
  fetched s'
  = fetched s
    ++ [mkUpload file (match sessionTokenRef s with
                       | Some [] | None => None
                       | Some tok => Some tok
                       end)]
  /\ awaited s' = S (awaited s)
  /\ isRecognizing s' = true
  /\ fileInputValue s' = []
  /\ notices s' = notices s
  /\ sent s' = sent s
  /\ pendingItems s' = pendingItems s.
Proof.
  intros Hty Hsz s'. subst s'. unfold handleFileSelected. handler_unfold.
  rewrite (proj2 (arrayIncludes_In _ _) Hty). simpl.
  assert (E : (file_size file >? maxFileSize) = false).
  { unfold maxFileSize. rewrite Z.gtb_ltb. apply Z.ltb_ge. lia. }
  rewrite E. simpl.
  destruct (sessionTokenRef s) as [[|c t]|]; repeat split.
Qed.

(** A PNG of exactly 10 MB, in a session whose token is "t1". *)
Lemma handleFileSelected_accepts_witness :
  let s := run [ev_mount; ev_open; ev_server (SESSION (js "t1") None)]
               (initialState None) in
  let file := mkFile (js "image/png") 10485760 in
  let s' := handleFileSelected (Some file) s in
  fetched s' = [mkUpload file (Some (js "t1"))]
  /\ awaited s' = 1%nat
  /\ isRecognizing s' = true
  /\ fileInputValue s' = []
  /\ notices s' = notices s
  /\ sent s' = sent s
  /\ pendingItems s' = pendingItems s.
Proof.
  intros s file.
  apply (handleFileSelected_accepts s file).
  - right; left. reflexivity.
  - vm_compute. discriminate.
Defined.

(* ------------------------------------------------------------------ *)
(** ** The comparison of quick options *)
(* ------------------------------------------------------------------ *)

Lemma unhex_hexDigit (n : N) : (n < 16)%N -> unhex (hexDigit n) = n.
Proof.
  intros H. unfold unhex, hexDigit.
  destruct (N.ltb_spec n 10).
  - destruct (N.ltb_spec (48 + n) 58); lia.
  - destruct (N.ltb_spec (87 + n) 58); lia.
Qed.

Lemma readQuoted_quoteChar (c : N) (l : list N) :
  readQuoted (quoteChar c ++ l)
  = match readQuoted l with
    | Some (s, r) => Some (c :: s, r)
    | None => None
    end.
Proof.
  unfold quoteChar.
  destruct (N.eqb_spec c 34) as [->|H34]; [reflexivity|].
  destruct (N.eqb_spec c 92) as [->|H92]; [reflexivity|].
  destruct (N.eqb_spec c 8) as [->|H8]; [reflexivity|].
  destruct (N.eqb_spec c 12) as [->|H12]; [reflexivity|].
  destruct (N.eqb_spec c 10) as [->|H10]; [reflexivity|].
  destruct (N.eqb_spec c 13) as [->|H13]; [reflexivity|].
  destruct (N.eqb_spec c 9) as [->|H9]; [reflexivity|].
  destruct (N.ltb_spec c 32) as [Hlt|Hge].
  - change (js "\u00") with [92; 117; 48; 48]%N.
    cbn [app readQuoted N.eqb Pos.eqb].
    destruct (readQuoted l) as [[s r]|]; [|reflexivity].
    rewrite !unhex_hexDigit.
    + f_equal. f_equal. f_equal.
      pose proof (N.div_mod' c 16). lia.
    + apply N.mod_lt. discriminate.
    + apply N.Div0.div_lt_upper_bound. lia.
  - cbn [app readQuoted].
    rewrite (proj2 (N.eqb_neq c 34) H34), (proj2 (N.eqb_neq c 92) H92).
    reflexivity.
Qed.

Lemma readQuoted_body (s : jsstring) (rest : list N) :
  readQuoted (concat (List.map quoteChar s) ++ [34%N] ++ rest)
  = Some (s, rest).
Proof.
  induction s as [|c s IH]; [reflexivity|].
  cbn [List.map concat]. rewrite <- app_assoc, readQuoted_quoteChar, IH.
  reflexivity.
Qed.

Lemma quoteJSONString_inj (a b : jsstring) (r1 r2 : list N) :
  quoteJSONString a ++ r1 = quoteJSONString b ++ r2 -> a = b /\ r1 = r2.
Proof.
  unfold quoteJSONString. rewrite <- !app_assoc. simpl.
  intros H. injection H as H.
  pose proof (readQuoted_body a r1) as Ha.
  pose proof (readQuoted_body b r2) as Hb.
  simpl in Ha, Hb. rewrite H, Hb in Ha. injection Ha as <- <-.
  split; reflexivity.
Qed.

Lemma quoteJSONString_head (a : jsstring) :
  exists t, quoteJSONString a = 34%N :: t.
Proof. unfold quoteJSONString. simpl. eexists. reflexivity. Qed.

Lemma stringifyElements_cons (x y : jsstring) (l : list jsstring) :
  stringifyElements (x :: y :: l)
  = quoteJSONString x ++ [44%N] ++ stringifyElements (y :: l).
Proof. reflexivity. Qed.

Lemma stringifyElements_inj (a b : list jsstring) :
  a <> [] -> b <> [] ->
  stringifyElements a ++ [93%N] = stringifyElements b ++ [93%N] -> a = b.
Proof.
  revert b. induction a as [|x a IH]; intros b Ha Hb H; [contradiction|].
  destruct b as [|y b]; [contradiction|].
  destruct a as [|x' a], b as [|y' b].
  - change (quoteJSONString x ++ [93%N] = quoteJSONString y ++ [93%N]) in H.
    apply quoteJSONString_inj in H as [-> _]. reflexivity.
  - rewrite stringifyElements_cons in H.
    change (stringifyElements [x]) with (quoteJSONString x) in H.
    rewrite <- !app_assoc in H.
    apply quoteJSONString_inj in H as [_ H]. discriminate H.
  - rewrite stringifyElements_cons in H.
    change (stringifyElements [y]) with (quoteJSONString y) in H.
    rewrite <- !app_assoc in H.
    apply quoteJSONString_inj in H as [_ H]. discriminate H.
  - rewrite !stringifyElements_cons in H. rewrite <- !app_assoc in H.
    apply quoteJSONString_inj in H as [-> H].
    injection H as H. f_equal. apply IH; [discriminate|discriminate|exact H].
Qed.

Lemma JSON_stringify_elements (l : list jsstring) :
  JSON_stringify l = [91%N] ++ stringifyElements l ++ [93%N].
Proof. reflexivity. Qed.

(** X14.  The test of line 224 compares the option lists themselves.
    [JSON.stringify] is one-to-one on arrays of strings (the text can be
    read back, escapes included), so two lists have the same JSON text
    only if they are the same list: [handleQuickOptions] leaves the
    options alone exactly when the new list is the recorded one, and it
    takes and records every list that differs from it, be it by one
    character, by the order or by the length. *)
Theorem quick_options_compared_as_lists (a b : list jsstring) (s : State) :
  (JSON_stringify a = JSON_stringify b <-> a = b)
  /\ handleQuickOptions (Some a) s
     = if bool_decide (a = lastOptionsRef s) then s
       else (setQuickOptions a >>> set_lastOptionsRef a) s.
Proof.
  assert (Inj : forall a b, JSON_stringify a = JSON_stringify b -> a = b).
  { clear. intros a b H. rewrite !JSON_stringify_elements in H.
    injection H as H.
    destruct a as [|x a], b as [|y b].
    - reflexivity.
    - exfalso. destruct b as [|y' b].
      + change (stringifyElements [y]) with (quoteJSONString y) in H.
        destruct (quoteJSONString_head y) as [t Ht]. rewrite Ht in H.
        discriminate H.
      + rewrite stringifyElements_cons in H.
        destruct (quoteJSONString_head y) as [t Ht]. rewrite Ht in H.
        discriminate H.
    - exfalso. destruct a as [|x' a].
      + change (stringifyElements [x]) with (quoteJSONString x) in H.
        destruct (quoteJSONString_head x) as [t Ht]. rewrite Ht in H.
        discriminate H.
      + rewrite stringifyElements_cons in H.
        destruct (quoteJSONString_head x) as [t Ht]. rewrite Ht in H.
        discriminate H.
    - apply stringifyElements_inj; [discriminate|discriminate|exact H]. }
  split.
  - split; [apply Inj|intros ->; reflexivity].
  - unfold handleQuickOptions.
    destruct (bool_decide (a = lastOptionsRef s)) eqn:E.
    + apply bool_decide_eq_true in E. rewrite <- E.
      rewrite bool_decide_eq_true_2 by reflexivity. reflexivity.
    + apply bool_decide_eq_false in E.
      rewrite bool_decide_eq_false_2; [reflexivity|].
      intros H. apply E, Inj, H.
Qed.

(* ------------------------------------------------------------------ *)
(** ** Address cards: the animation, the clicks, the history *)
(* ------------------------------------------------------------------ *)

Lemma lookup_last_app {A : Type} (l : list A) (x : A) :
  (l ++ [x]) !! length l = Some x /\ delete (length l) (l ++ [x]) = l.
Proof.
  induction l as [|a l [IH1 IH2]]; [split; reflexivity|].
  split; [exact IH1|]. simpl. f_equal. exact IH2.
Qed.

(** The callback armed last fires. *)
Lemma fire_last (s : State) (ts : list Task) (t : Task) :
  timers s = ts ++ [t] ->
  fire (length ts) s = runTask t (set_timers ts s).
Proof.
  intros E. unfold fire, andThen.
  destruct (lookup_last_app ts t) as [H1 H2].
  rewrite E, H1, H2. reflexivity.
Qed.

(** The animation of lines 257-277, from its first tick to the card. *)
Lemma animation_runs (s : State) (ts : list Task) (card : Msg) :
  timers s = ts ++ [stepInterval 0 card] ->
  run (repeat (ev_timer (length ts)) 5) s
  = setPendingAddressData None
      (setIsVerifyingAddress false
         (setMessages (messages s ++ [card])
            (set_timers ts (setAddressVerifyStep 4 s)))).
Proof.
  intros E. cbn [repeat].
  rewrite run_cons. cbn [step]. rewrite (fire_last s ts _ E). cbn [runTask].
  change (0 + 1) with 1. change (1 >=? 4) with false. cbv iota.
  rewrite run_cons. cbn [step].
  erewrite (fire_last _ ts) by reflexivity. cbn [runTask].
  change (1 + 1) with 2. change (2 >=? 4) with false. cbv iota.
  rewrite run_cons. cbn [step].
  erewrite (fire_last _ ts) by reflexivity. cbn [runTask].
  change (2 + 1) with 3. change (3 >=? 4) with false. cbv iota.
  rewrite run_cons. cbn [step].
  erewrite (fire_last _ ts) by reflexivity. cbn [runTask].
  change (3 + 1) with 4. change (4 >=? 4) with true. cbv iota.
  rewrite run_cons. cbn [step].
  erewrite (fire_last _ ts) by reflexivity. cbn [runTask].
  reflexivity.
Qed.

(** X15.  An address emission that is taken shows its card.  When a
    [metadata] event asks to confirm or to select an address for a role
    whose mark is held by [addedAddressCardsRef] and is not set (the
    roles "from" and "to", from the first render or a reset on), and the
    event does not report that address as already settled, the client
    sets the mark, starts the verification animation and shows nothing
    yet; once the five ticks of that animation have fired (the callbacks
    armed before are left waiting) the card of the event closes the
    conversation, the animation is over and its callback is gone. *)
Theorem accepted_emission_shows_card (s : State) (md : MetadataMsg)
    (ui : UiComponent) :
  md_ui_component md = Some ui ->
  isAddressUi ui = true ->
  addedAddressCardsRef s !! propKey (emittedRole ui) = Some false ->
  emissionConfirmed md (emittedRole ui) = false ->
  let s1 := step (ev_server (METADATA md)) s in
  let s2 := run (repeat (ev_timer (length (timers s))) 5) s1 in
  messages s1 = messages s
  /\ isVerifyingAddress s1 = true
  /\ alreadyAddedFor s1 (emittedRole ui) = true
  /\ messages s2
     = messages s ++ [addressCard (ui_type ui) (emittedRole ui) (ui_data ui)]
  /\ timers s2 = timers s
  /\ isVerifyingAddress s2 = false
  /\ pendingAddressData s2 = None.
Proof.
  intros Hui Haddr Hown Hconf s1 s2.
  assert (Hadded : alreadyAddedFor s (emittedRole ui) = false)
    by (unfold alreadyAddedFor; rewrite Hown; reflexivity).
  pose proof (metadata_prefix_frame md s) as Hpre. cbv zeta in Hpre.
  destruct Hpre as (Pm & Pt & _ & _ & Pa & _).
  assert (E1 : messages s1 = messages s
               /\ isVerifyingAddress s1 = true
               /\ alreadyAddedFor s1 (emittedRole ui) = true
               /\ timers s1
                  = timers s
                    ++ [stepInterval 0
                          (addressCard (ui_type ui) (emittedRole ui)
                             (ui_data ui))]).
  { subst s1. unfold step, handleServerMessage, andThen.
    unfold andThen in Pm, Pt, Pa.
    match goal with
    | |- context [handleUiComponent _ md ?t] =>
      assert (Ht : alreadyAddedFor t (emittedRole ui) = false)
        by (unfold alreadyAddedFor; rewrite Pa; exact Hadded);
      revert Pm Pt Pa Ht; generalize t
    end.
    intros t Pm Pt Pa Ht.
    unfold handleUiComponent, andThen. rewrite Hui. cbv beta zeta.
    fold (emittedRole ui). unfold isAddressUi in Haddr. rewrite Haddr.
    unfold emissionConfirmed in Hconf. cbv zeta in Hconf.
    rewrite Hconf, Ht. unfold isVerifyingAddress_installed.
    cbn [negb andb isVerifyingAddress initialState].
    unfold arm, alreadyAddedFor, skip.
    destruct (md_completion md);
      cbn [messages timers isVerifyingAddress addedAddressCardsRef
           setCompletion setUiComponent set_timers setPendingAddressData
           setAddressVerifyStep setIsVerifyingAddress
           set_addedAddressCardsRef];
      rewrite lookup_insert_eq, Pm, Pt; repeat split. }
  destruct E1 as (M1 & V1 & A1 & T1).
  split; [exact M1|]. split; [exact V1|]. split; [exact A1|].
  subst s2. rewrite (animation_runs s1 (timers s) _ T1), M1.
  repeat split.
Qed.

(** The first emission of a fresh session, for the address to move from. *)
Lemma accepted_emission_shows_card_witness :
  let s := run [ev_mount; ev_open] (initialState None) in
  let md := confirmEmission "from" "1-1 Shibuya" in
  let s1 := step (ev_server (METADATA md)) s in
  let s2 := run (repeat (ev_timer 0) 5) s1 in
  messages s1 = []
  /\ isVerifyingAddress s1 = true
  /\ alreadyAddedFor s1 (Some (js "from")) = true
  /\ messages s2
     = [addressCard (js "address_confirm") (Some (js "from"))
          (Some (mkUiData (Some (js "from")) None None
                          (candidate "1-1 Shibuya")))]
  /\ timers s2 = []
  /\ isVerifyingAddress s2 = false
  /\ pendingAddressData s2 = None.
Proof.
  intros s md.
  apply (accepted_emission_shows_card s md
           (mkUi (js "address_confirm")
              (Some (mkUiData (Some (js "from")) None None
                              (candidate "1-1 Shibuya"))))).
  - reflexivity.
  - reflexivity.
  - reflexivity.
  - reflexivity.
Defined.

Lemma clickCandidate_closed (s : State) (index : nat) (msg : Msg) :
  messages s !! index = Some msg ->
  isSelected s msg = true ->
  forall idx, clickCandidate index idx s = s.
Proof.
  intros Hm Hsel idx. unfold clickCandidate.
  rewrite Hm, Hsel, andb_false_r. reflexivity.
Qed.

Lemma clickConfirm_closed (s : State) (index : nat) (msg : Msg) :
  messages s !! index = Some msg ->
  isConfirmed s msg = true ->
  forall answer, clickConfirm index answer s = s.
Proof.
  intros Hm Hc answer. unfold clickConfirm.
  rewrite Hm, Hc, andb_false_r. reflexivity.
Qed.

(** X16.  A selection card takes one click.  On an open connection, a
    click on a candidate of an open selection card sends one
    [address_selected] frame and marks the card as resolved; no further
    click on the card, on whichever candidate and however often, changes
    anything or sends anything. *)
Theorem selection_card_clicks_once (s : State) (index idx : nat)
    (msg : Msg) (ty : jsstring) (c : JsVal) (more : list nat) :
  messages s !! index = Some msg ->
  type msg = address_selection_card ->
  addressType msg = Some ty ->
  ty <> [] ->
  cardCandidates msg !! idx = Some c ->
  isSelected s msg = false ->
  wsRef s = true -> isConnected s = true ->
  let s1 := clickCandidate index idx s in
  sent s1 = sent s ++ [out_address_selected ty c]
  /\ messages s1 !! index = Some (markConfirmed msg)
  /\ run (List.map (ev_clickCandidate index) more) s1 = s1.
Proof.
  intros Hm Hty Hat Hne Hc Hsel Hws Hco s1.
  assert (E : s1 = handleAddressSelected ty c s).
  { subst s1. unfold clickCandidate. rewrite Hm, Hty, Hsel, Hc. simpl.
    unfold cardRole. rewrite Hat. destruct ty; [contradiction|reflexivity]. }
  assert (M : messages s1 !! index = Some (markConfirmed msg)).
  { rewrite E. unfold handleAddressSelected. handler_unfold.
    destruct (wsRef s); simpl; rewrite lookup_map, Hm; simpl;
      rewrite Hty, Hat, !bool_decide_eq_true_2 by reflexivity;
      reflexivity. }
  split; [|split; [exact M|]].
  - rewrite E. unfold handleAddressSelected. handler_unfold.
    rewrite Hws. reflexivity.
  - induction more as [|i more IH]; [reflexivity|].
    cbn [List.map]. rewrite run_cons. cbn [step].
    rewrite (clickCandidate_closed s1 index _ M); [exact IH|reflexivity].
Qed.

(** The card of [selectingSession]: the second candidate is clicked, then
    the first and the third. *)
Lemma selection_card_clicks_once_witness :
  let s1 := clickCandidate 1 1 selectingSession in
  sent s1 = [out_message (js "Shibuya 1-1");
             out_address_selected (js "from")
               (candidate "1-1 Shibuya-honcho")]
  /\ run [ev_clickCandidate 1 0; ev_clickCandidate 1 2] s1 = s1.
Proof.
  intros s1.
  destruct (selection_card_clicks_once selectingSession 1 1
              (addressCard (js "address_selection") (Some (js "from"))
                 (Some (mkUiData (Some (js "from")) (Some threeCandidates)
                                 (Some (js "Shibuya 1-1")) JUndef)))
              (js "from") (candidate "1-1 Shibuya-honcho") [0; 2]%nat
              eq_refl eq_refl eq_refl)
    as (H1 & _ & H2);
    [discriminate | reflexivity | vm_compute; reflexivity
    | reflexivity | reflexivity |].
  split; [exact H1|exact H2].
Defined.

(** X17.  The two buttons of a confirmation card.  On an open card
    and an open connection,
    "yes" sends [address_confirmed] with [confirmed: true], marks the
    card and thereby closes it: further clicks on either button do
    nothing.  "No" sends the frame with [confirmed: false] and raises
    the loading flag, but marks nothing: the messages are unchanged, the
    card stays open, and a further click sends a further frame. *)
Theorem confirm_card_answers (s : State) (index : nat) (msg : Msg)
    (ty : jsstring) (more : list bool) (again : bool) :
  messages s !! index = Some msg ->
  type msg = address_confirm_card ->
  addressType msg = Some ty ->
  ty <> [] ->
  isConfirmed s msg = false ->
  wsRef s = true -> isConnected s = true ->
  let yes := clickConfirm index true s in
  let no := clickConfirm index false s in
  sent yes = sent s ++ [out_address_confirmed ty true]
  /\ messages yes !! index = Some (markConfirmed msg)
  /\ run (List.map (ev_clickConfirm index) more) yes = yes
  /\ sent no = sent s ++ [out_address_confirmed ty false]
  /\ messages no = messages s
  /\ isLoading no = true
  /\ sent (clickConfirm index again no)
     = sent no ++ [out_address_confirmed ty again].
Proof.
  intros Hm Hty Hat Hne Hc Hws Hco yes no.
  assert (Hrole : cardRole msg = ty).
  { unfold cardRole. rewrite Hat. destruct ty; [contradiction|reflexivity]. }
  assert (E : forall a, clickConfirm index a s
                        = handleAddressConfirmed ty a s).
  { intros a. unfold clickConfirm. rewrite Hm, Hty, Hc, Hrole.
    reflexivity. }
  assert (M : messages yes !! index = Some (markConfirmed msg)).
  { subst yes. rewrite E. unfold handleAddressConfirmed. handler_unfold.
    simpl. rewrite Hws. simpl. rewrite lookup_map, Hm. simpl.
    rewrite Hty, Hat, !bool_decide_eq_true_2 by reflexivity. reflexivity. }
  assert (N : no = set_sent (sent s ++ [out_address_confirmed ty false])
                     (setIsLoading true s)).
  { subst no. rewrite E. unfold handleAddressConfirmed. handler_unfold.
    simpl. rewrite Hws. reflexivity. }
  split; [|split; [exact M|split; [|split; [|split; [|split]]]]].
  - subst yes. rewrite E. unfold handleAddressConfirmed. handler_unfold.
    simpl. rewrite Hws. reflexivity.
  - induction more as [|a more IH]; [reflexivity|].
    cbn [List.map]. rewrite run_cons. cbn [step].
    rewrite (clickConfirm_closed yes index _ M); [exact IH|reflexivity].
  - rewrite N. reflexivity.
  - rewrite N. reflexivity.
  - rewrite N. reflexivity.
  - assert (Hm' : messages no !! index = Some msg)
      by (rewrite N; exact Hm).
    assert (Hc' : isConfirmed no msg = false) by (rewrite N; exact Hc).
    assert (Hws' : wsRef no = true) by (rewrite N; exact Hws).
    unfold clickConfirm. rewrite Hm', Hty, Hc', Hrole.
    unfold handleAddressConfirmed. handler_unfold. simpl.
    rewrite Hws'. destruct again; reflexivity.
Qed.

(** The card of [confirmingSession]. *)
Lemma confirm_card_answers_witness :
  let yes := clickConfirm 0 true confirmingSession in
  let no := clickConfirm 0 false confirmingSession in
  sent yes = [out_address_confirmed (js "from") true]
  /\ run [ev_clickConfirm 0 false; ev_clickConfirm 0 true] yes = yes
  /\ sent no = [out_address_confirmed (js "from") false]
  /\ messages no = messages confirmingSession
  /\ sent (clickConfirm 0 true no)
     = [out_address_confirmed (js "from") false;
        out_address_confirmed (js "from") true].
Proof.
  intros yes no.
  destruct (confirm_card_answers confirmingSession 0
              (addressCard (js "address_confirm") (Some (js "from"))
                 (Some (mkUiData (Some (js "from")) None None
                                 (candidate "1-1 Shibuya"))))
              (js "from") [false; true] true
              eq_refl eq_refl eq_refl)
    as (H1 & _ & H2 & H3 & H4 & _ & H5);
    [discriminate | reflexivity | reflexivity | reflexivity |].
  split; [exact H1|]. split; [exact H2|]. split; [exact H3|].
  split; [exact H4|]. subst no. rewrite H5, H3. reflexivity.
Defined.

(* ------------------------------------------------------------------ *)
(** ** [message_history] *)
(* ------------------------------------------------------------------ *)

(** X18.  A [message_history] event replaces the conversation by plain
    bubbles, one per entry, none of them streaming; the cards shown
    before are gone.  The marks of [addedAddressCardsRef] are kept, so a
    later emission for a role whose card had been added shows no card
    and starts no animation: the card does not come back. *)
Theorem history_drops_cards (s : State) (history : list HistoryEntry)
    (md : MetadataMsg) (ui : UiComponent) :
  md_ui_component md = Some ui ->
  alreadyAddedFor s (emittedRole ui) = true ->
  let s1 := step (ev_server (MESSAGE_HISTORY (Some history))) s in
  let s2 := step (ev_server (METADATA md)) s1 in
  messages s1
  = List.map (fun h => textMsg (h_role h) (h_content h) false) history
  /\ (forall role_, cardsOf role_ (messages s1) = [])
  /\ addedAddressCardsRef s1 = addedAddressCardsRef s
  /\ (forall role_, cardsOf role_ (messages s2) = [])
  /\ timers s2 = timers s
  /\ isVerifyingAddress s2 = isVerifyingAddress s.
Proof.
  intros Hui Hadded s1 s2.
  assert (C1 : forall role_, cardsOf role_ (messages s1) = []).
  { intros role_. apply cardsOf_plain_map. reflexivity. }
  split; [reflexivity|]. split; [exact C1|]. split; [reflexivity|].
  pose proof (metadata_prefix_frame md s1) as Hpre. cbv zeta in Hpre.
  destruct Hpre as (Pm & Pt & _ & _ & Pa & _).
  subst s2. unfold step, handleServerMessage, andThen.
  unfold andThen in Pm, Pt, Pa.
  match goal with
  | |- context [handleUiComponent _ md ?t] =>
    assert (Ht : alreadyAddedFor t (emittedRole ui) = true)
      by (unfold alreadyAddedFor; rewrite Pa; exact Hadded);
    assert (Hv : isVerifyingAddress t = isVerifyingAddress s)
      by (unfold handleQuickOptions, skip;
          repeat case_match; reflexivity);
    revert Pm Pt Pa Ht Hv; generalize t
  end.
  intros t Pm Pt Pa Ht Hv.
  destruct (handleUiComponent_duplicate isVerifyingAddress_installed
              md ui t Hui Ht) as (Dt & _ & _ & _ & _ & _ & Dc & _).
  assert (Dv : isVerifyingAddress
                 (handleUiComponent isVerifyingAddress_installed md t)
               = isVerifyingAddress t).
  { unfold handleUiComponent, andThen. rewrite Hui. cbv beta zeta.
    fold (emittedRole ui). rewrite Ht. handler_unfold.
    repeat case_match; try reflexivity; simpl in *; discriminate. }
  assert (G : forall u,
             messages (match md_completion md with
                       | Some c => setCompletion c
                       | None => skip
                       end u) = messages u
             /\ timers (match md_completion md with
                        | Some c => setCompletion c
                        | None => skip
                        end u) = timers u
             /\ isVerifyingAddress (match md_completion md with
                                    | Some c => setCompletion c
                                    | None => skip
                                    end u) = isVerifyingAddress u).
  { intros u. destruct (md_completion md); repeat split. }
  match goal with
  | |- context [handleUiComponent _ md t] =>
    destruct (G (handleUiComponent isVerifyingAddress_installed md t))
      as (-> & -> & ->)
  end.
  split; [|split].
  - intros role_. specialize (Dc role_). rewrite Pm, C1 in Dc.
    destruct (cardsOf role_ _); [reflexivity|discriminate Dc].
  - rewrite Dt, Pt. reflexivity.
  - rewrite Dv, Hv. reflexivity.
Qed.

(** The card of [confirmingSession] is replaced by a history of two
    entries; the emission is then repeated. *)
Lemma history_drops_cards_witness :
  let history := [mkHistory (js "assistant") (Some (js "Hello"));
                  mkHistory (js "user") (Some (js "hi"))] in
  let s1 := step (ev_server (MESSAGE_HISTORY (Some history)))
                 confirmingSession in
  let s2 := step (ev_server (METADATA (confirmEmission "from" "1-1 Shibuya")))
                 s1 in
  length (cardsOf (Some (js "from")) (messages confirmingSession)) = 1%nat
  /\ messages s1 = [textMsg (js "assistant") (Some (js "Hello")) false;
                    textMsg (js "user") (Some (js "hi")) false]
  /\ cardsOf (Some (js "from")) (messages s2) = []
  /\ timers s2 = [].
Proof.
  intros history s1 s2.
  destruct (history_drops_cards confirmingSession history
              (confirmEmission "from" "1-1 Shibuya")
              (mkUi (js "address_confirm")
                 (Some (mkUiData (Some (js "from")) None None
                                 (candidate "1-1 Shibuya"))))
              eq_refl eq_refl)
    as (H1 & _ & _ & H2 & H3 & _).
  split; [reflexivity|]. split; [exact H1|].
  split; [exact (H2 (Some (js "from")))|exact H3].
Defined.

(* ------------------------------------------------------------------ *)
(** ** [parseMessageContent] *)
(* ------------------------------------------------------------------ *)

#[local] Open Scope nat_scope.

Lemma headSound_push (els : list Element) (e : Element) :
  headSound els ->
  (els <> [] \/ forall k, e <> el_break k) ->
  headSound (els ++ [e]).
Proof.
  intros H Hor. destruct els as [|x els]; [|exact H].
  destruct Hor as [Hne|Hb]; [contradiction|].
  destruct e; simpl; auto. exact (Hb key eq_refl).
Qed.

Lemma elementsSound_mono (b b' : nat) (els : list Element) :
  b <= b' -> elementsSound b els -> elementsSound b' els.
Proof.
  intros Hb (H1 & H2 & H3 & H4). repeat split; try assumption.
  eapply List.Forall_impl; [|exact H2].
  intros e (j & Hj & Hlt). exists j. split; [exact Hj|lia].
Qed.

Lemma elementsSound_push (b b' : nat) (els : list Element) (e : Element)
    (j : nat) :
  elementsSound b els ->
  snd (keyOf e) = Some j ->
  b <= 4 * j + kindOrder (fst (keyOf e)) ->
  4 * j + kindOrder (fst (keyOf e)) < b' ->
  listSound e ->
  (els <> [] \/ forall k, e <> el_break k) ->
  elementsSound b' (els ++ [e]).
Proof.
  intros (H1 & H2 & H3 & H4) Hj Hb Hb' Hl Hh. repeat split.
  - rewrite List.map_app. apply NoDup_app. split; [exact H1|].
    split; [|apply NoDup_singleton].
    intros k Hk Hk'. apply list_elem_of_singleton in Hk'. subst k.
    apply list_elem_of_In, in_map_iff in Hk as (e' & He' & Hin).
    rewrite Forall_forall in H2.
    destruct (H2 e' (proj2 (list_elem_of_In _ _) Hin)) as (j' & Hj' & Hlt).
    rewrite He', Hj in Hj'. injection Hj' as <-. rewrite He' in Hlt. lia.
  - apply Forall_app. split.
    + eapply List.Forall_impl; [|exact H2].
      intros e' (j' & Hj' & Hlt). exists j'. split; [exact Hj'|lia].
    + constructor; [|constructor]. exists j. split; [exact Hj|lia].
  - apply Forall_app. split; [exact H3|]. constructor; [exact Hl|constructor].
  - apply headSound_push; assumption.
Qed.

Lemma flushList_sound (b i : nat) (st : ParseState) :
  elementsSound b (elements st) ->
  b <= 4 * i + 1 ->
  listPending i (currentList st) ->
  elementsSound (4 * i + 2) (elements (flushList (Some i) st))
  /\ currentList (flushList (Some i) st) = []
  /\ inCard (flushList (Some i) st) = inCard st
  /\ cardTitle (flushList (Some i) st) = cardTitle st
  /\ cardContent (flushList (Some i) st) = cardContent st.
Proof.
  intros He Hb [Hc1 Hc2]. unfold flushList.
  destruct (currentList st) as [|p cur] eqn:Ec.
  - split; [apply (elementsSound_mono b); [lia|exact He]|]. auto.
  - cbn [elements currentList inCard cardTitle cardContent].
    split; [|auto].
    apply (elementsSound_push b _ _ (el_list (Some i) (p :: cur)) i He).
    + reflexivity.
    + simpl. lia.
    + simpl. lia.
    + split; [discriminate|exact Hc2].
    + right. intros k. discriminate.
Qed.

Lemma listPending_push (i : nat) (cur : list (nat * jsstring))
    (text : jsstring) :
  listPending i cur -> listPending (S i) (cur ++ [(i, text)]).
Proof.
  intros [H1 H2]. split.
  - apply Forall_app. split.
    + eapply List.Forall_impl; [|exact H1]. simpl. intros p Hp. lia.
    + constructor; [simpl; lia|constructor].
  - rewrite List.map_app. apply NoDup_app. split; [exact H2|].
    split; [|apply NoDup_singleton].
    intros k Hk Hk'. apply list_elem_of_singleton in Hk'. subst k.
    apply list_elem_of_In, in_map_iff in Hk as (p & Hp & Hin).
    rewrite Forall_forall in H1.
    specialize (H1 p (proj2 (list_elem_of_In _ _) Hin)).
    simpl in Hp. lia.
Qed.

Lemma listPending_mono (i : nat) (cur : list (nat * jsstring)) :
  listPending i cur -> listPending (S i) cur.
Proof.
  intros [H1 H2]. split; [|exact H2].
  eapply List.Forall_impl; [|exact H1]. simpl. intros p Hp. lia.
Qed.

Lemma listPending_nil (i : nat) : listPending i [].
Proof. split; constructor. Qed.

Lemma parseLine_sound (i : nat) (line : jsstring) (st : ParseState) :
  parseSound i st -> parseSound (S i) (parseLine i line st).
Proof.
  intros [He Hc]. unfold parseLine, parseSound.
  destruct (cardHead line) as [[title rest]|].
  { destruct (flushList_sound (4 * i) i st He ltac:(lia) Hc)
      as (Fe & Fc & _).
    cbn [elements currentList]. split.
    - apply (elementsSound_mono (4 * i + 2)); [lia|exact Fe].
    - rewrite Fc. apply listPending_nil. }
  destruct (inCard st && nonEmpty (trim line) && negb (bulletStart line)).
  { cbn [elements currentList]. split.
    - apply (elementsSound_mono (4 * i)); [lia|exact He].
    - apply listPending_mono, Hc. }
  set (st1 := if inCard st
                 && (negb (nonEmpty (trim line)) || bulletStart line)
              then _ else st).
  assert (H1 : elementsSound (4 * i + 1) (elements st1)
               /\ currentList st1 = currentList st).
  { subst st1.
    destruct (inCard st
              && (negb (nonEmpty (trim line)) || bulletStart line)).
    - cbn [elements currentList]. split; [|reflexivity].
      apply (elementsSound_push (4 * i) _ _
               (el_card (Some i) (cardTitle st)
                  (join [10%N] (cardContent st))) i He).
      + reflexivity.
      + simpl. lia.
      + simpl. lia.
      + exact I.
      + right. intros k. discriminate.
    - split; [|reflexivity].
      apply (elementsSound_mono (4 * i)); [lia|exact He]. }
  destruct H1 as [He1 Hc1]. clearbody st1.
  destruct (bulletStart line).
  { cbn [elements currentList]. split.
    - apply (elementsSound_mono (4 * i + 1)); [lia|exact He1].
    - rewrite Hc1. apply listPending_push, Hc. }
  rewrite <- Hc1 in Hc.
  destruct (flushList_sound (4 * i + 1) i st1 He1 ltac:(lia) Hc)
    as (Fe & Fc & _).
  generalize dependent (flushList (Some i) st1). intros st2 Fe Fc.
  destruct (nonEmpty (trim line)).
  { cbn [elements currentList]. split.
    - apply (elementsSound_push (4 * i + 2) _ _ (el_text i line) i Fe).
      + reflexivity.
      + simpl. lia.
      + simpl. lia.
      + exact I.
      + right. intros k. discriminate.
    - rewrite Fc. apply listPending_nil. }
  destruct (bool_decide (elements st2 <> [])) eqn:En.
  { apply bool_decide_eq_true in En.
    cbn [elements currentList]. split.
    - apply (elementsSound_push (4 * i + 2) _ _ (el_break i) i Fe).
      + reflexivity.
      + simpl. lia.
      + simpl. lia.
      + exact I.
      + left. exact En.
    - rewrite Fc. apply listPending_nil. }
  split.
  - apply (elementsSound_mono (4 * i + 2)); [lia|exact Fe].
  - rewrite Fc. apply listPending_nil.
Qed.

Lemma parseLines_sound (lines : list jsstring) (i : nat) (st : ParseState) :
  parseSound i st ->
  exists n, parseSound n (parseLines i lines st).
Proof.
  revert i st. induction lines as [|line lines IH]; intros i st H.
  - exists i. exact H.
  - simpl. apply (IH (S i)), parseLine_sound, H.
Qed.

Lemma parseEnd_sound (n : nat) (st : ParseState) :
  parseSound n st ->
  NoDup (List.map keyOf (parseEnd st))
  /\ Forall listSound (parseEnd st)
  /\ headSound (parseEnd st).
Proof.
  intros [(H1 & H2 & H3 & H4) [_ Hc]].
  assert (Hnew : forall k, k ∉ List.map keyOf (elements st) \/ snd k <> None).
  { intros k. destruct (snd k) eqn:Ek; [right; discriminate|]. left.
    intros Hin. apply list_elem_of_In, in_map_iff in Hin as (e & He & Hin).
    rewrite Forall_forall in H2.
    destruct (H2 e (proj2 (list_elem_of_In _ _) Hin)) as (j & Hj & _).
    rewrite He, Ek in Hj. discriminate. }
  assert (F : NoDup (List.map keyOf (elements (flushList None st)))
              /\ Forall listSound (elements (flushList None st))
              /\ headSound (elements (flushList None st))
              /\ (forall k, k ∈ List.map keyOf
                                  (elements (flushList None st)) ->
                            snd k <> None \/ k = (k_list, None))).
  { unfold flushList. destruct (currentList st) as [|p cur].
    - split; [exact H1|]. split; [exact H3|]. split; [exact H4|].
      intros k Hk. destruct (Hnew k); [contradiction|left; assumption].
    - cbn [elements]. split; [|split; [|split]].
      + rewrite List.map_app. apply NoDup_app. split; [exact H1|].
        split; [|apply NoDup_singleton].
        intros k Hk Hk'. apply list_elem_of_singleton in Hk'. subst k.
        destruct (Hnew (k_list, None)) as [Hn|Hn]; [contradiction|].
        apply Hn. reflexivity.
      + apply Forall_app. split; [exact H3|].
        constructor; [|constructor]. split; [discriminate|exact Hc].
      + apply headSound_push; [exact H4|]. right. intros k. discriminate.
      + intros k Hk. rewrite List.map_app in Hk.
        apply elem_of_app in Hk as [Hk|Hk].
        * destruct (Hnew k); [contradiction|left; assumption].
        * apply list_elem_of_singleton in Hk. right. exact Hk. }
  destruct F as (F1 & F2 & F3 & F4). unfold parseEnd.
  destruct (inCard (flushList None st)
            && bool_decide (cardContent (flushList None st) <> []));
    [|auto].
  split; [|split].
  - rewrite List.map_app. apply NoDup_app. split; [exact F1|].
    split; [|apply NoDup_singleton].
    intros k Hk Hk'. apply list_elem_of_singleton in Hk'. subst k.
    destruct (F4 _ Hk) as [Hn|Hn]; [apply Hn; reflexivity|discriminate].
  - apply Forall_app. split; [exact F2|]. constructor; [exact I|constructor].
  - apply headSound_push; [exact F3|]. right. intros k. discriminate.
Qed.

Lemma parse_sound (c : jsstring) :
  let els := parseEnd (parseLines 0 (splitLines c)
                         (mkParse [] [] false [] [])) in
  NoDup (List.map keyOf els) /\ Forall listSound els /\ headSound els.
Proof.
  intros els.
  destruct (parseLines_sound (splitLines c) 0 (mkParse [] [] false [] []))
    as [n Hn].
  - split; [|apply listPending_nil].
    repeat split; constructor.
  - exact (parseEnd_sound n _ Hn).
Qed.

(** X19.  The elements built for an assistant bubble have distinct React
    keys: no two elements of a bubble share their kind and key
    ([list-i], [card-i], [p-i], [br-i], [list-end], [card-end]), and no
    two items of one list share their key [item-i]. *)
Theorem parse_keys_unique (content : option jsstring) :
  let els := default [] (parseMessageContent content) in
  NoDup (List.map keyOf els)
  /\ Forall (fun e => match e with
                      | el_list _ lis => NoDup (List.map fst lis)
                      | _ => True
                      end) els.
Proof.
  intros els. subst els. unfold parseMessageContent.
  destruct content as [[|ch c]|]; simpl;
    try (split; constructor).
  destruct (parse_sound (ch :: c)) as (H1 & H2 & _).
  split; [exact H1|].
  eapply List.Forall_impl; [|exact H2].
  intros [key lis| | |]; simpl; tauto.
Qed.

(** X20.  A bubble never opens with a blank: the first element built
    for a text is not a break (blank lines at the head of a reply are
    dropped), and no list is empty. *)
Theorem parse_tidy (content : option jsstring) :
  tidy (default [] (parseMessageContent content)) = true.
Proof.
  unfold parseMessageContent.
  destruct content as [[|ch c]|]; try reflexivity. simpl default.
  destruct (parse_sound (ch :: c)) as (_ & H2 & H3).
  unfold tidy. apply andb_true_iff. split.
  - destruct (parseEnd _) as [|[]]; simpl in H3; [reflexivity..|].
    contradiction.
  - apply forallb_forall. intros e He.
    rewrite Forall_forall in H2.
    specialize (H2 e (proj2 (list_elem_of_In _ _) He)).
    destruct e as [key [|p lis]| | |]; try reflexivity.
    destruct H2 as [H2 _]. contradiction.
Qed.

#[local] Close Scope nat_scope.

Lemma plainLines_push (els : list Element) (e : Element) :
  plainLines (els ++ [e]) = plainLines els ++ plainLinesOf e.
Proof.
  unfold plainLines. rewrite List.map_app, concat_app. simpl.
  rewrite app_nil_r. reflexivity.
Qed.

Lemma flushList_plain (key : option nat) (st : ParseState) :
  shownSoFar (flushList key st) = shownSoFar st
  /\ currentList (flushList key st) = []
  /\ inCard (flushList key st) = inCard st
  /\ (Forall notCard (elements st) ->
      Forall notCard (elements (flushList key st))).
Proof.
  unfold flushList, shownSoFar.
  destruct (currentList st) as [|p cur] eqn:E.
  - rewrite E. auto.
  - cbn [elements currentList inCard]. rewrite plainLines_push.
    simpl. rewrite app_nil_r. repeat split.
    intros H. apply Forall_app. split; [exact H|].
    constructor; [discriminate|constructor].
Qed.

Lemma parseLine_plain (i : nat) (line : jsstring) (st : ParseState) :
  cardHead line = None ->
  inCard st = false ->
  Forall notCard (elements st) ->
  inCard (parseLine i line st) = false
  /\ Forall notCard (elements (parseLine i line st))
  /\ shownSoFar (parseLine i line st) = shownSoFar st ++ shownLines [line].
Proof.
  intros Hh Hc Hn. unfold parseLine. rewrite Hh, Hc.
  cbn [andb]. unfold shownLines. cbn [List.filter].
  destruct (bulletStart line) eqn:Eb; cbn [orb List.map]; rewrite ?Eb.
  - unfold shownSoFar. cbn [inCard elements currentList].
    rewrite List.map_app, app_assoc. auto.
  - destruct (flushList_plain (Some i) st) as (F1 & F2 & F3 & F4).
    specialize (F4 Hn). rewrite Hc in F3.
    generalize dependent (flushList (Some i) st). intros st2 F1 F2 F3 F4.
    destruct (nonEmpty (trim line)); cbn [List.map]; rewrite ?Eb.
    + unfold shownSoFar in *.
      cbn [inCard elements currentList].
      rewrite plainLines_push, F2 in *. simpl. rewrite !app_nil_r in *.
      rewrite F1. split; [exact F3|]. split; [|reflexivity].
      apply Forall_app. split; [exact F4|].
      constructor; [discriminate|constructor].
    + rewrite app_nil_r.
      destruct (bool_decide (elements st2 <> [])).
      * unfold shownSoFar in *.
        cbn [inCard elements currentList].
        rewrite plainLines_push. simpl. rewrite app_nil_r.
        split; [exact F3|]. split; [|exact F1].
        apply Forall_app. split; [exact F4|].
        constructor; [discriminate|constructor].
      * auto.
Qed.

Lemma shownLines_cons (line : jsstring) (lines : list jsstring) :
  shownLines (line :: lines) = shownLines [line] ++ shownLines lines.
Proof.
  unfold shownLines. cbn [List.filter].
  destruct (bulletStart line || nonEmpty (trim line)); reflexivity.
Qed.

Lemma parseLines_plain (lines : list jsstring) (i : nat) (st : ParseState) :
  Forall (fun l => cardHead l = None) lines ->
  inCard st = false ->
  Forall notCard (elements st) ->
  inCard (parseLines i lines st) = false
  /\ Forall notCard (elements (parseLines i lines st))
  /\ shownSoFar (parseLines i lines st) = shownSoFar st ++ shownLines lines.
Proof.
  revert i st. induction lines as [|line lines IH]; intros i st Hl Hc Hn.
  - simpl. rewrite app_nil_r. auto.
  - apply Forall_cons in Hl as [Hh Hl]. cbn [parseLines].
    destruct (parseLine_plain i line st Hh Hc Hn) as (P1 & P2 & P3).
    destruct (IH (S i) _ Hl P1 P2) as (Q1 & Q2 & Q3).
    split; [exact Q1|]. split; [exact Q2|].
    rewrite Q3, P3, <- app_assoc, <- shownLines_cons. reflexivity.
Qed.

(** X21.  A reply without card headings (no line starts with "【title】")
    is shown whole and in order: the paragraphs and the list items of
    the elements, read from top to bottom, are the lines of the reply
    that are not blank, the bulleted ones ("•", "-", "*") without their
    bullet and the white space after it, the others as they are; no
    card is built. *)
Theorem parse_plain_text (c : jsstring) :
  c <> [] ->
  Forall (fun l => cardHead l = None) (splitLines c) ->
  exists els,
    parseMessageContent (Some c) = Some els
    /\ plainLines els = shownLines (splitLines c)
    /\ Forall notCard els.
Proof.
  intros Hne Hl. destruct c as [|ch c]; [contradiction|].
  eexists. split; [reflexivity|].
  destruct (parseLines_plain (splitLines (ch :: c)) 0
              (mkParse [] [] false [] []) Hl eq_refl)
    as (P1 & P2 & P3); [constructor|].
  generalize dependent (parseLines 0 (splitLines (ch :: c))
                          (mkParse [] [] false [] [])).
  intros st P1 P2 P3. unfold parseEnd.
  destruct (flushList_plain None st) as (F1 & F2 & F3 & F4).
  rewrite F3, P1. cbn [andb].
  unfold shownSoFar at 1 in F1. rewrite F2 in F1. simpl in F1.
  rewrite app_nil_r in F1. rewrite F1, P3. split; [reflexivity|].
  apply F4, P2.
Qed.

(** A greeting, a blank line, two bulleted lines and a closing line. *)
Lemma parse_plain_text_witness :
  exists els,
    parseMessageContent (Some listReply) = Some els
    /\ plainLines els
       = [js "您好"; js "搬出地址"; js "搬入地址"; js "请告诉我"]
    /\ Forall notCard els.
Proof.
  apply (parse_plain_text listReply).
  - discriminate.
  - vm_compute. repeat constructor.
Defined.

(* ------------------------------------------------------------------ *)
(** ** The checklist *)
(* ------------------------------------------------------------------ *)

(** X22.  The checklist shows every visible row once, in the order of
    [allFields]: grouping the rows by phase loses none, repeats none and
    does not reorder them.  The rows [from_room_type] and
    [from_floor_elevator] are shown together or not at all (both depend
    on the building type of the address to move from), so the checklist
    has 11 rows for an apartment-like building and 9 otherwise, and the
    five phase groups are shown in either case. *)
Theorem checklist_rows_grouped (s : State) :
  concat (List.map snd (shownGroups s))
  = List.filter (isVisible s) allFields
  /\ List.map fst (shownGroups s) = [1; 2; 3; 4; 5]
  /\ isVisible s from_room_type = isVisible s from_floor_elevator
  /\ length (List.filter (isVisible s) allFields)
     = (if isApartment s then 11 else 9)%nat.
Proof.
  unfold shownGroups, phaseGroups, allFields.
  cbn [fold_left isVisible List.filter].
  destruct (isApartment s); repeat split.
Qed.

(* ------------------------------------------------------------------ *)
(** ** [handleSubmitContact] *)
(* ------------------------------------------------------------------ *)

(** X23.  The contact form needs a phone number or an e-mail address.
    With both fields empty the handler shows one warning and does
    nothing else.  With at least one of them not empty (the test is on
    the raw value: a blank one counts), on an open connection, one
    [submit_quote] frame leaves with both values as typed, and both
    fields are emptied. *)
Theorem handleSubmitContact_outcomes (s : State) :
  wsRef s = true -> isConnected s = true ->
  let s' := handleSubmitContact s in
  (contactPhone s = [] /\ contactEmail s = [] ->
     s' = notify (notice_warning (js "请输入手机号或邮箱")) s)
  /\ (contactPhone s <> [] \/ contactEmail s <> [] ->
      sent s' = sent s ++ [out_submit_quote (contactPhone s) (contactEmail s)]
      /\ contactPhone s' = [] /\ contactEmail s' = []
      /\ notices s' = notices s).
Proof.
  intros Hws Hco s'. subst s'. unfold handleSubmitContact. handler_unfold.
  split.
  - intros [-> ->]. reflexivity.
  - intros H.
    assert (E : nonEmpty (contactPhone s) || nonEmpty (contactEmail s)
                = true).
    { destruct (contactPhone s), (contactEmail s); try reflexivity.
      destruct H as [H|H]; contradiction. }
    rewrite E, Hws. repeat split.
Qed.

(** A phone number made of one blank. *)
Lemma handleSubmitContact_outcomes_witness :
  let s := run [ev_mount; ev_open; ev_contactPhone (js " ")]
               (initialState None) in
  let s' := handleSubmitContact s in
  sent s' = [out_submit_quote (js " ") []]
  /\ contactPhone s' = [] /\ contactEmail s' = []
  /\ notices s' = notices s.
Proof.
  intros s.
  apply (proj2 (handleSubmitContact_outcomes s eq_refl eq_refl)).
  left. discriminate.
Defined.

(* ------------------------------------------------------------------ *)
(** ** The panels below the messages and the send button *)
(* ------------------------------------------------------------------ *)

(** X25.  The chat area never shows two panels of the item flow at
    once: the upload panel, the recognition progress and the recognition
    result exclude one another.  The quick options are never shown
    together with the recognition progress, the recognition result or
    the address verification progress.  Of the four panels chosen by the
    UI component of the server (upload panel, address verification,
    confirmation card, login card) at most one is shown. *)
Theorem panels_exclusive (s : State) :
  (forall p q,
      In p [panel_item_eval; panel_recognition_progress;
            panel_recognition_result] ->
      In q [panel_item_eval; panel_recognition_progress;
            panel_recognition_result] ->
      p <> q -> shows s p && shows s q = false)
  /\ (forall q,
         In q [panel_recognition_progress; panel_recognition_result;
               panel_address_progress] ->
         shows s panel_quick_options && shows s q = false)
  /\ (forall p q,
         In p [panel_item_eval; panel_address_verify; panel_confirm_card;
               panel_login_card] ->
         In q [panel_item_eval; panel_address_verify; panel_confirm_card;
               panel_login_card] ->
         p <> q -> shows s p && shows s q = false).
Proof.
  split; [|split].
  - intros p q Hp Hq Hne. simpl in Hp, Hq.
    destruct Hp as [<-|[<-|[<-|[]]]], Hq as [<-|[<-|[<-|[]]]];
      try contradiction; unfold shows;
      destruct (isRecognizing s), (bool_decide (pendingItems s = []));
      simpl; rewrite ?andb_false_r; reflexivity.
  - intros q Hq. simpl in Hq.
    destruct Hq as [<-|[<-|[<-|[]]]]; unfold shows;
      destruct (isRecognizing s), (bool_decide (pendingItems s = [])),
        (isVerifyingAddress s); simpl; rewrite ?andb_false_r; reflexivity.
  - intros p q Hp Hq Hne. simpl in Hp, Hq.
    destruct Hp as [<-|[<-|[<-|[<-|[]]]]], Hq as [<-|[<-|[<-|[<-|[]]]]];
      try contradiction; unfold shows;
      repeat case_bool_decide; simpl; try reflexivity;
      rewrite ?andb_false_r; try reflexivity;
      match goal with
      | H1 : ui_type _ = _, H2 : ui_type _ = _ |- _ =>
        rewrite H1 in H2; discriminate H2
      end.
Qed.

(** X26.  The send button agrees with [sendMessage].  While the button
    is disabled (no connection, or a blank input) sending the input does
    nothing at all, also through the Enter key.  While it is enabled and
    a socket is in place, sending always consumes the input: the input
    and the quick options are emptied, and either the text leaves as a
    message with its bubble, or (an add-item request in phase 4) the
    upload panel is opened. *)
Theorem send_button_consistent (s : State) :
  (sendDisabled s = true -> step ev_send s = s)
  /\ (sendDisabled s = false -> wsRef s = true ->
      let s' := step ev_send s in
      inputValue s' = [] /\ quickOptions s' = []
      /\ (sent s' = sent s ++ [out_message (inputValue s)]
          /\ messages s'
             = messages s
               ++ [textMsg (js "user") (Some (inputValue s)) false]
          \/ sent s' = sent s /\ messages s' = messages s
             /\ uiComponent s' = mkUi (js "item_evaluation") None)).
Proof.
  unfold sendDisabled, step, sendMessage. split.
  - intros H.
    destruct (nonEmpty (trim (inputValue s))), (wsRef s), (isConnected s);
      simpl in H |- *; try reflexivity; discriminate H.
  - intros H Hws. apply orb_false_iff in H as [Hco Hne].
    apply negb_false_iff in Hco, Hne. rewrite Hne, Hws, Hco. cbn [negb orb].
    destruct (existsb _ addItemKeywords && (currentPhase s =? 4)).
    + split; [reflexivity|]. split; [reflexivity|]. right. repeat split.
    + split; [reflexivity|]. split; [reflexivity|]. left. repeat split.
Qed.

(** "hi" typed in a connected session, then sent. *)
Lemma send_button_consistent_witness :
  let s := run [ev_mount; ev_open; ev_input (js "hi")] (initialState None) in
  let s' := step ev_send s in
  inputValue s = js "hi" /\ inputValue s' = [] /\ quickOptions s' = []
  /\ sent s' = [out_message (js "hi")].
Proof.
  intros s s'.
  destruct (proj2 (send_button_consistent s) eq_refl eq_refl)
    as (H1 & H2 & _).
  split; [reflexivity|]. split; [exact H1|]. split; [exact H2|reflexivity].
Defined.
